(** * TrafficGen-AI: policy evaluation, dominance analysis and ANOVA flags

    A shallow embedding of the algorithmic core of the repository:
      - [modules/evaluator.py]  (class PerformanceEvaluator),
      - [modules/optimizer.py]  (class MultiObjectiveOptimizer),
      - [modules/analytics.py]  (class StatisticalAnalyzer, ANOVA part).

    Modelling conventions.
      - A Python [dict] is an association list in insertion order; the
        predicate [Py.wf] (no key occurs twice) singles out the lists that
        are dicts.
      - Metric values are finite numbers and are modelled as rationals [Q];
        arithmetic on them is exact.  Results are compared with [==].
      - Where the binary64 arithmetic of Python floats decides a property
        (NaN and infinities, the rounding of sums), the evaluator is also
        embedded on Rocq's primitive [float] ([Py64], [Evaluator64]).
      - The p-value handled by the ANOVA code is a binary64 value returned by
        SciPy; it is modelled by Rocq's primitive [float], so that the
        literals [0.95], [0.05], ... denote the same doubles as in Python.
      - A Python exception is the [Raise] case of [Py.result]. *)

From Stdlib Require Import List String Ascii Bool Arith ZArith QArith Qround Lia Lqa.
From Stdlib Require Import Permutation.
From Stdlib Require Import Floats.
Import ListNotations.

Set Warnings "-inexact-float,-register-all".

Local Open Scope string_scope.
Local Open Scope Q_scope.

(** ** Python values and built-ins *)

Module Py.

Inductive exn : Type :=
| KeyError (key : string)
| ValueError (msg : string)
| ZeroDivisionError.

Inductive result (A : Type) : Type :=
| Ok (a : A)
| Raise (e : exn).
Arguments Ok {A} a.
Arguments Raise {A} e.

Definition bind {A B} (r : result A) (f : A -> result B) : result B :=
  match r with
  | Ok a => f a
  | Raise e => Raise e
  end.

(** [for x in xs: ...] collecting results, stopping at the first exception. *)
Fixpoint mapM {A B} (f : A -> result B) (xs : list A) : result (list B) :=
  match xs with
  | [] => Ok []
  | x :: xs' =>
      bind (f x) (fun y => bind (mapM f xs') (fun ys => Ok (y :: ys)))
  end.

(** Dictionaries, in insertion order. *)
Definition dict (V : Type) : Type := list (string * V).

Definition keys {V} (d : dict V) : list string := map fst d.
Definition values {V} (d : dict V) : list V := map snd d.
Definition wf {V} (d : dict V) : Prop := NoDup (keys d).

(** [d.get(k)] *)
Fixpoint get {V} (d : dict V) (k : string) : option V :=
  match d with
  | [] => None
  | (k', v) :: d' => if String.eqb k k' then Some v else get d' k
  end.

(** [d.get(k, dflt)] *)
Definition get_or {V} (d : dict V) (k : string) (dflt : V) : V :=
  match get d k with
  | Some v => v
  | None => dflt
  end.

(** [d[k]] *)
Definition item {V} (d : dict V) (k : string) : result V :=
  match get d k with
  | Some v => Ok v
  | None => Raise (KeyError k)
  end.

(** [d[k] = v]: overwrite in place, or append a new key. *)
Fixpoint set {V} (d : dict V) (k : string) (v : V) : dict V :=
  match d with
  | [] => [(k, v)]
  | (k', v') :: d' =>
      if String.eqb k k' then (k', v) :: d' else (k', v') :: set d' k v
  end.

(** [k in xs] for a list of strings. *)
Definition mem (k : string) (xs : list string) : bool :=
  existsb (String.eqb k) xs.

(** Comparisons of numbers. *)
Definition leb (a b : Q) : bool := Qle_bool a b.
Definition ltb (a b : Q) : bool := negb (Qle_bool b a).
Definition eqb (a b : Q) : bool := Qeq_bool a b.

(** The built-ins [max(a, b)] and [min(a, b)]: the first argument is kept
    unless the second is strictly larger (smaller). *)
Definition max2 (a b : Q) : Q := if ltb a b then b else a.
Definition min2 (a b : Q) : Q := if ltb b a then b else a.

(** [max(xs)] and [min(xs)] of a list; [ValueError] on the empty list. *)
Definition max_list (xs : list Q) : result Q :=
  match xs with
  | [] => Raise (ValueError "max() arg is an empty sequence")
  | x :: xs' => Ok (fold_left max2 xs' x)
  end.

Definition min_list (xs : list Q) : result Q :=
  match xs with
  | [] => Raise (ValueError "min() arg is an empty sequence")
  | x :: xs' => Ok (fold_left min2 xs' x)
  end.

(** [a / b] *)
Definition div (a b : Q) : result Q :=
  if eqb b 0 then Raise ZeroDivisionError else Ok (a / b).

(** [sum(xs)]: left to right, starting from 0. *)
Definition sum (xs : list Q) : Q := fold_left Qplus xs 0.

(** Rounding to the nearest integer, ties to even. *)
Definition round_half_even (x : Q) : Z :=
  let f := Qfloor x in
  let r := x - inject_Z f in
  if ltb r (1 # 2) then f
  else if ltb (1 # 2) r then (f + 1)%Z
  else if Z.even f then f else (f + 1)%Z.

(** [round(x, 2)] *)
Definition round2 (x : Q) : Q := inject_Z (round_half_even (x * 100)) / 100.

(** A number or [float('inf')]. *)
Inductive num : Type :=
| Fin (q : Q)
| Inf.

Definition num_ltb (a b : num) : bool :=
  match a, b with
  | Fin x, Fin y => ltb x y
  | Fin _, Inf => true
  | Inf, _ => false
  end.

(** [min(d, key=d.get)] and [max(d, key=d.get)] over the items of a
    non-empty dict: the first key with the least (greatest) value. *)
Definition argmin {K V} (lt : V -> V -> bool) (first : K * V)
    (rest : list (K * V)) : K :=
  fst (fold_left (fun best x => if lt (snd x) (snd best) then x else best)
                 rest first).

Definition argmax {K V} (lt : V -> V -> bool) (first : K * V)
    (rest : list (K * V)) : K :=
  fst (fold_left (fun best x => if lt (snd best) (snd x) then x else best)
                 rest first).

(** [sorted(xs, key=...)]: stable, ascending in the key. *)
Fixpoint insert_by {A} (key : A -> nat) (x : A) (xs : list A) : list A :=
  match xs with
  | [] => [x]
  | y :: ys =>
      if (key x <=? key y)%nat then x :: y :: ys
      else y :: insert_by key x ys
  end.

Fixpoint sorted_by {A} (key : A -> nat) (xs : list A) : list A :=
  match xs with
  | [] => []
  | x :: xs' => insert_by key x (sorted_by key xs')
  end.

End Py.

Import Py.

Notation "x <- r ;; k" := (Py.bind r (fun x => k))
  (at level 61, r at next level, right associativity).

(** A metric set: metric key -> value. *)
Definition metrics : Type := dict Q.

(** ** modules/optimizer.py *)

Module Optimizer.

(** [__init__] *)
Definition objectives : list string :=
  ["average_delay"; "co2_emissions"; "throughput"; "average_speed"].
Definition minimize_objectives : list string :=
  ["average_delay"; "co2_emissions"].
Definition maximize_objectives : list string :=
  ["throughput"; "average_speed"].

(** The inner loop that fills one row of the objective matrix:
    maximisation objectives are negated. *)
Definition objective_values (m : metrics) : list Q :=
  map (fun obj =>
         let value := get_or m obj 0 in
         if mem obj maximize_objectives then - value else value)
      objectives.

(** [np.all(a <= b)] and [np.any(a < b)], element-wise on two rows. *)
Definition np_all_le (a b : list Q) : bool :=
  forallb (fun p => leb (fst p) (snd p)) (combine a b).
Definition np_any_lt (a b : list Q) : bool :=
  existsb (fun p => ltb (fst p) (snd p)) (combine a b).

(** [_dominates] *)
Definition _dominates (solution_a solution_b : list Q) : bool :=
  np_all_le solution_a solution_b && np_any_lt solution_a solution_b.

(** The objective matrix of [calculate_pareto_frontier]: one row per
    policy, in the order of [policy_names]. *)
Definition objective_matrix (policies_metrics : dict metrics)
  : list (list Q) :=
  map (fun policy_name_metrics => objective_values (snd policy_name_metrics))
      policies_metrics.

(** The inner [for j] loop: is row [i] dominated by some other row? *)
Definition is_dominated (matrix : list (list Q)) (i : nat) : bool :=
  existsb (fun j => negb (i =? j)%nat
                    && _dominates (nth j matrix []) (nth i matrix []))
          (seq 0 (List.length matrix)).

(** [calculate_pareto_frontier] *)
Definition calculate_pareto_frontier (policies_metrics : dict metrics)
  : list string :=
  let policy_names := keys policies_metrics in
  let n_policies := List.length policy_names in
  let matrix := objective_matrix policies_metrics in
  map (fun i => nth i policy_names "")
      (filter (fun i => negb (is_dominated matrix i)) (seq 0 n_policies)).

(** The reference point built when none is supplied. *)
Definition default_reference_point (policies_metrics : dict metrics)
  : result (list Q) :=
  mapM (fun obj =>
          let vals := map (fun m => get_or m obj 0) (values policies_metrics) in
          if mem obj minimize_objectives
          then (v <- max_list vals ;; Ok (v * 1.1))
          else (v <- min_list vals ;; Ok (v * 0.9)))
       objectives.

(** [calculate_hypervolume] *)
Definition calculate_hypervolume (policies_metrics : dict metrics)
    (reference_point : option (list Q)) : result Q :=
  _reference_point <-
    match reference_point with
    | None => default_reference_point policies_metrics
    | Some r => Ok r
    end ;;
  let pareto_policies := calculate_pareto_frontier policies_metrics in
  match pareto_policies with
  | [] => Ok 0
  | _ =>
      div (inject_Z (Z.of_nat (List.length pareto_policies)))
          (inject_Z (Z.of_nat (List.length policies_metrics)))
  end.

(** [dominance_count[name] += 1] *)
Fixpoint increment (d : dict nat) (name : string) : dict nat :=
  match d with
  | [] => []
  | (k, c) :: d' =>
      if String.eqb name k then (k, S c) :: d' else (k, c) :: increment d' name
  end.

(** The objective matrix of [rank_policies_by_dominance], a dict keyed by
    policy name; every name looked up is present. *)
Definition objective_rows (policies_metrics : dict metrics)
  : dict (list Q) :=
  fold_left (fun om pm => set om (fst pm) (objective_values (snd pm)))
            policies_metrics [].

(** The two nested loops that count, for every policy, the policies that
    dominate it. *)
Definition count_dominators (policy_names : list string)
    (om : dict (list Q)) (dominance_count : dict nat) : dict nat :=
  fold_left
    (fun dc name_a =>
       fold_left
         (fun dc name_b =>
            if negb (String.eqb name_a name_b)
               && _dominates (get_or om name_b []) (get_or om name_a [])
            then increment dc name_a
            else dc)
         policy_names dc)
    policy_names dominance_count.

(** The final loop: walk the sorted items, keeping the index [i], the
    count of the previous item and the current rank. *)
Fixpoint assign_ranks (sorted_policies : list (string * nat)) (i : nat)
    (previous : nat) (current_rank : nat) (ranks : dict nat) : dict nat :=
  match sorted_policies with
  | [] => ranks
  | (policy, count) :: rest =>
      let current_rank :=
        if (0 <? i)%nat && (previous <? count)%nat then (i + 1)%nat
        else current_rank in
      assign_ranks rest (S i) count current_rank (set ranks policy current_rank)
  end.

(** [rank_policies_by_dominance] *)
Definition rank_policies_by_dominance (policies_metrics : dict metrics)
  : dict nat :=
  let policy_names := keys policies_metrics in
  let dominance_count :=
    count_dominators policy_names (objective_rows policies_metrics)
                     (map (fun name => (name, 0%nat)) policy_names) in
  let sorted_policies := sorted_by snd dominance_count in
  assign_ranks sorted_policies 0 0 1 [].

(** The branch of [calculate_weighted_score] that brings one objective to
    the scale 0..100. *)
Definition normalize_objective (obj : string) (value : Q) : Q :=
  if String.eqb obj "average_delay" then max2 0 (100 - value / 3)
  else if String.eqb obj "throughput" then min2 100 (value / 20)
  else if String.eqb obj "co2_emissions" then max2 0 (100 - value / 10)
  else if String.eqb obj "average_speed" then min2 100 (value / 0.6)
  else 50.

(** [calculate_weighted_score] *)
Definition calculate_weighted_score (m : metrics) (weights : option (dict Q))
  : Q :=
  let weights :=
    match weights with
    | None =>
        map (fun obj => (obj, 1 / inject_Z (Z.of_nat (List.length objectives))))
            objectives
    | Some w => w
    end in
  let score :=
    fold_left
      (fun score obj =>
         let value := get_or m obj 0 in
         let weight := get_or weights obj 0 in
         score + normalize_objective obj value * weight)
      objectives 0 in
  min2 100 (max2 0 score).

End Optimizer.

(** ** modules/evaluator.py *)

Module Evaluator.

(** One entry of the dict returned by [compare_policies]. *)
Record comparison : Type := {
  baseline : Q;
  policy : Q;
  absolute_change : Q;
  percent_change : Q;
  is_improvement : bool
}.

(** [_is_improvement] *)
Definition _is_improvement (metric_key : string) (change : Q) : bool :=
  let lower_is_better :=
    ["average_delay"; "co2_emissions"; "total_travel_time"] in
  let higher_is_better := ["throughput"; "average_speed"] in
  if mem metric_key lower_is_better then ltb change 0
  else if mem metric_key higher_is_better then ltb 0 change
  else false.

(** The body of the loop of [compare_policies] for one metric key. *)
Definition compare_metric (baseline_metrics policy_metrics : metrics)
    (metric_key : string) : result comparison :=
  baseline_value <- item baseline_metrics metric_key ;;
  policy_value <- item policy_metrics metric_key ;;
  let absolute_change := policy_value - baseline_value in
  percent_change <-
    (if negb (eqb baseline_value 0)
     then (r <- div absolute_change baseline_value ;; Ok (r * 100))
     else Ok (if eqb policy_value 0 then 0 else 100)) ;;
  Ok {| baseline := baseline_value;
        policy := policy_value;
        absolute_change := absolute_change;
        percent_change := percent_change;
        is_improvement := _is_improvement metric_key absolute_change |}.

(** [compare_policies] *)
Definition compare_policies (baseline_metrics policy_metrics : metrics)
  : result (dict comparison) :=
  fold_left
    (fun acc metric_key =>
       comparison <- acc ;;
       entry <- compare_metric baseline_metrics policy_metrics metric_key ;;
       Ok (set comparison metric_key entry))
    (keys baseline_metrics) (Ok []).

Definition default_weights : dict Q :=
  [("average_delay", 0.25); ("throughput", 0.25);
   ("co2_emissions", 0.25); ("average_speed", 0.25)].

(** The dict [normalized] built by [calculate_composite_score]. *)
Definition normalized_scores (m : metrics) : dict Q :=
  let delay := min2 (max2 (get_or m "average_delay" 150) 0) 300 in
  let throughput := min2 (max2 (get_or m "throughput" 0) 0) 2000 in
  let emissions := min2 (max2 (get_or m "co2_emissions" 500) 0) 1000 in
  let speed := min2 (max2 (get_or m "average_speed" 0) 0) 60 in
  [("average_delay", (300 - delay) / 300 * 100);
   ("throughput", throughput / 2000 * 100);
   ("co2_emissions", (1000 - emissions) / 1000 * 100);
   ("average_speed", speed / 60 * 100)].

(** [calculate_composite_score] *)
Definition calculate_composite_score (m : metrics)
    (weights : option (dict Q)) : Q :=
  let weights :=
    match weights with
    | None => default_weights
    | Some w => w
    end in
  let normalized := normalized_scores m in
  let score :=
    Py.sum (map (fun kw => get_or normalized (fst kw) 0 * snd kw) weights) in
  round2 score.

Definition metric_map : dict string :=
  [("delay", "average_delay"); ("emissions", "co2_emissions");
   ("throughput", "throughput"); ("speed", "average_speed")].

(** The value entered in [values] for one policy. *)
Definition objective_value (m : metrics) (metric_key : string)
    (is_lower_better : bool) : num :=
  match get m metric_key with
  | Some v => Fin v
  | None => if is_lower_better then Inf else Fin 0
  end.

(** [identify_best_policy]; [Ok None] is the Python [None]. *)
Definition identify_best_policy (results_dict : dict metrics)
    (objective : string) : result (option string) :=
  match results_dict with
  | [] => Ok None
  | first :: rest =>
      if String.eqb objective "composite" then
        let score nm := (fst nm, calculate_composite_score (snd nm) None) in
        Ok (Some (argmax ltb (score first) (map score rest)))
      else
        let metric_key := get_or metric_map objective "average_delay" in
        let is_lower_better :=
          mem metric_key
              ["average_delay"; "co2_emissions"; "total_travel_time"] in
        let value nm :=
          (fst nm, objective_value (snd nm) metric_key is_lower_better) in
        if is_lower_better
        then Ok (Some (argmin num_ltb (value first) (map value rest)))
        else Ok (Some (argmax num_ltb (value first) (map value rest)))
  end.

(** One record of the list [simulation_data['vehicles']].  A field that the
    record's dict lacks is [None]; the flag [completed] is carried by every
    record. *)
Record vehicle : Type := {
  delay : option Q;
  speed : option Q;
  travel_time : option Q;
  distance : option Q;
  co2_emissions : option Q;
  completed : bool
}.

(** The argument of [calculate_metrics]; [simulation_time] is [None] when
    the key is absent. *)
Record simulation_data : Type := {
  vehicles : list vehicle;
  simulation_time : option Q
}.

(** [_get_empty_metrics] *)
Definition _get_empty_metrics : metrics :=
  [("average_delay", 0.0); ("throughput", 0.0); ("co2_emissions", 0.0);
   ("average_speed", 0.0); ("total_travel_time", 0.0)].

(** [df[field]] without its missing entries, which [mean] and [sum] skip. *)
Definition column (field : vehicle -> option Q) (df : list vehicle) : list Q :=
  flat_map (fun v => match field v with
                     | Some x => [x]
                     | None => []
                     end) df.

(** [field in df.columns]: some record has the field. *)
Definition has_column (field : vehicle -> option Q) (df : list vehicle) : bool :=
  existsb (fun v => match field v with
                    | Some _ => true
                    | None => false
                    end) df.

(** [Series.mean()] of a column that has an entry. *)
Definition mean (xs : list Q) : Q :=
  Py.sum xs / inject_Z (Z.of_nat (List.length xs)).

(** [simulation_data.get('simulation_time', 3600)] *)
Definition total_time (data : simulation_data) : Q :=
  match simulation_time data with
  | Some t => t
  | None => 3600
  end.

(** [calculate_metrics] *)
Definition calculate_metrics (data : simulation_data) : result metrics :=
  match vehicles data with
  | [] => Ok _get_empty_metrics
  | _ =>
      let df := vehicles data in
      let average_delay :=
        if has_column delay df then mean (column delay df) else 0.0 in
      let completed_vehicles := List.length (filter completed df) in
      ratio <- div (inject_Z (Z.of_nat completed_vehicles)) (total_time data) ;;
      let throughput := ratio * 3600 in
      let emissions :=
        if has_column co2_emissions df then
          Py.sum (column co2_emissions df) / 1000
        else if has_column distance df then
          let total_distance := Py.sum (column distance df) / 1000 in
          total_distance * 0.12
        else 0.0 in
      let average_speed :=
        if has_column speed df then mean (column speed df) * 3.6 else 0.0 in
      let total_travel_time :=
        if has_column travel_time df then Py.sum (column travel_time df) / 3600
        else 0.0 in
      Ok [("average_delay", average_delay);
          ("throughput", throughput);
          ("co2_emissions", emissions);
          ("average_speed", average_speed);
          ("total_travel_time", total_travel_time)]
  end.

End Evaluator.

(** ** modules/analytics.py *)

Module Analytics.

(** [__init__] *)
Definition confidence_level : float := 0.95%float.

(** One simulation record [{'metrics': ..., ...}]; only the entries that
    are metric sets are kept, the code reads no other. *)
Definition scenario_data : Type := dict metrics.

(** One entry of the dict returned by [perform_anova]. *)
Record anova_entry : Type := {
  f_statistic : float;
  p_value : float;
  significant : bool;
  interpretation : string
}.

(** [_interpret_anova] *)
Definition _interpret_anova (p_value : float) : string :=
  if (p_value <? 0.001)%float then
    "Highly significant difference between policies (p < 0.001)"
  else if (p_value <? 0.01)%float then
    "Very significant difference between policies (p < 0.01)"
  else if (p_value <? 0.05)%float then
    "Significant difference between policies (p < 0.05)"
  else
    "No significant difference between policies (p >= 0.05)".

Definition metrics_list : list string :=
  ["average_delay"; "throughput"; "co2_emissions"; "average_speed"].

(** The loop that collects, for one metric, the samples of every policy. *)
Definition collect_policy_data (results : dict (dict scenario_data))
    (metric : string) : result (list (list Q)) :=
  mapM (fun policy_scenarios =>
          mapM (fun data =>
                  m <- item data "metrics" ;; Ok (get_or m metric 0))
               (values (snd policy_scenarios)))
       results.

Section WithSciPy.

(** [scipy.stats.f_oneway]: the F statistic and the p-value. *)
Variable f_oneway : list (list Q) -> float * float.

(** The dict stored under one metric. *)
Definition anova_of (policy_data : list (list Q)) : anova_entry :=
  let (f_stat, p_value) := f_oneway policy_data in
  {| f_statistic := f_stat;
     p_value := p_value;
     significant := (p_value <? 1 - confidence_level)%float;
     interpretation := _interpret_anova p_value |}.

(** [perform_anova] *)
Definition perform_anova (results : dict (dict scenario_data))
  : result (dict anova_entry) :=
  fold_left
    (fun acc metric =>
       anova_results <- acc ;;
       policy_data <- collect_policy_data results metric ;;
       if (1 <? List.length policy_data)%nat
          && forallb (fun data => (0 <? List.length data)%nat) policy_data
       then Ok (set anova_results metric (anova_of policy_data))
       else Ok anova_results)
    metrics_list (Ok []).

End WithSciPy.

(** [s.lower()] on ASCII text: the letters A to Z are mapped to a to z. *)
Definition lower_ascii (c : ascii) : ascii :=
  let n := nat_of_ascii c in
  if ((65 <=? n) && (n <=? 90))%nat then ascii_of_nat (n + 32) else c.

Fixpoint str_lower (s : string) : string :=
  match s with
  | EmptyString => EmptyString
  | String c s' => String (lower_ascii c) (str_lower s')
  end.

(** [word in s] for strings. *)
Fixpoint contains (word s : string) : bool :=
  String.prefix word s ||
  match s with
  | EmptyString => false
  | String _ s' => contains word s'
  end.

(** [word in parameter.lower()] *)
Definition mentions (word parameter : string) : bool :=
  contains word (str_lower parameter).

(** [d[k] *= rhs]: the item is read before the right-hand side is
    evaluated. *)
Definition imul (d : metrics) (k : string) (rhs : result Q) : result metrics :=
  v <- item d k ;;
  x <- rhs ;;
  Ok (set d k (v * x)).

(** [_apply_parameter_variation]; the copy of [base_metrics] is the value
    itself. *)
Definition _apply_parameter_variation (base_metrics : metrics)
    (parameter : string) (factor : Q) : result metrics :=
  let varied_metrics := base_metrics in
  if mentions "signal" parameter || mentions "timing" parameter then
    (varied_metrics <- imul varied_metrics "average_delay"
                            (Ok (1 + (factor - 1) * 0.5)) ;;
     imul varied_metrics "throughput" (Ok (1 - (factor - 1) * 0.3)))
  else if mentions "speed" parameter then
    (varied_metrics <- imul varied_metrics "average_speed" (Ok factor) ;;
     imul varied_metrics "co2_emissions" (Ok (1 + (factor - 1) * 0.4)))
  else if mentions "capacity" parameter then
    (varied_metrics <- imul varied_metrics "throughput" (Ok factor) ;;
     imul varied_metrics "average_delay" (div 1 factor))
  else Ok varied_metrics.

(** One row of the table returned by [perform_sensitivity_analysis]. *)
Record sensitivity_row : Type := {
  parameter : string;
  variation_factor : Q;
  delay_change : Q;
  throughput_change : Q;
  emissions_change : Q
}.

(** [(varied_metrics[k] - base_metrics[k]) / base_metrics[k] * 100] *)
Definition relative_change (varied_metrics base_metrics : metrics)
    (k : string) : result Q :=
  v <- item varied_metrics k ;;
  b <- item base_metrics k ;;
  b' <- item base_metrics k ;;
  r <- div (v - b) b' ;;
  Ok (r * 100).

(** The body of the inner loop. *)
Definition sensitivity_row_for (base_metrics : metrics)
    (param_factor : string * Q) : result sensitivity_row :=
  let (param, factor) := param_factor in
  varied_metrics <- _apply_parameter_variation base_metrics param factor ;;
  delay_change <- relative_change varied_metrics base_metrics "average_delay" ;;
  throughput_change <- relative_change varied_metrics base_metrics "throughput" ;;
  emissions_change <-
    relative_change varied_metrics base_metrics "co2_emissions" ;;
  Ok {| parameter := param;
        variation_factor := factor;
        delay_change := delay_change;
        throughput_change := throughput_change;
        emissions_change := emissions_change |}.

(** The pairs that the two nested loops go through, in order. *)
Definition variations (parameter_variations : dict (list Q))
    : list (string * Q) :=
  flat_map (fun param_factors =>
              map (pair (fst param_factors)) (snd param_factors))
           parameter_variations.

(** [perform_sensitivity_analysis]; the data frame is the list of its
    rows. *)
Definition perform_sensitivity_analysis (base_metrics : metrics)
    (parameter_variations : dict (list Q)) : result (list sensitivity_row) :=
  mapM (sensitivity_row_for base_metrics) (variations parameter_variations).

(** [np.mean] *)
Definition np_mean (values : list Q) : Q :=
  Py.sum values / inject_Z (Z.of_nat (List.length values)).

(** One entry of the dict that [calculate_confidence_intervals] stores under
    a metric. *)
Record interval : Type := {
  mean : Q;
  lower : Q;
  upper : Q;
  margin_of_error : Q
}.

(** The body of the loop over the items of one metric set: the entry of the
    metric is made where it is missing, then the value is appended. *)
Definition record_value (metrics_data : dict (list Q))
    (metric_value : string * Q) : result (dict (list Q)) :=
  let (metric, value) := metric_value in
  let metrics_data :=
    if negb (mem metric (keys metrics_data))
    then set metrics_data metric []
    else metrics_data in
  values <- item metrics_data metric ;;
  Ok (set metrics_data metric (values ++ [value])%list).

(** The loop over the scenarios of one policy. *)
Definition collect_metrics_data (scenarios : dict scenario_data)
  : result (dict (list Q)) :=
  fold_left
    (fun acc data =>
       metrics_data <- acc ;;
       m <- item data "metrics" ;;
       fold_left (fun acc' metric_value =>
                    metrics_data <- acc' ;;
                    record_value metrics_data metric_value)
                 m (Ok metrics_data))
    (values scenarios) (Ok []).

Section WithSciPyIntervals.

(** [scipy.stats.sem], and [scipy.stats.t.interval] with its arguments
    confidence, degrees of freedom, location and scale. *)
Variable sem : list Q -> Q.
Variable t_interval : Q -> nat -> Q -> Q -> Q * Q.

(** The dict stored under one metric. *)
Definition interval_of (confidence : Q) (values : list Q) : interval :=
  let mean := np_mean values in
  let std_err := sem values in
  let ci := t_interval confidence (List.length values - 1) mean std_err in
  {| mean := mean;
     lower := fst ci;
     upper := snd ci;
     margin_of_error := (snd ci - fst ci) / 2 |}.

(** The loop over the collected metrics of one policy. *)
Definition policy_intervals (confidence : Q) (metrics_data : dict (list Q))
  : dict interval :=
  fold_left
    (fun entries metric_values =>
       if (1 <? List.length (snd metric_values))%nat
       then set entries (fst metric_values)
                (interval_of confidence (snd metric_values))
       else entries)
    metrics_data [].

(** [calculate_confidence_intervals] *)
Definition calculate_confidence_intervals
    (results : dict (dict scenario_data)) (confidence : Q)
  : result (dict (dict interval)) :=
  fold_left
    (fun acc policy_scenarios =>
       ci_results <- acc ;;
       let ci_results := set ci_results (fst policy_scenarios) [] in
       metrics_data <- collect_metrics_data (snd policy_scenarios) ;;
       Ok (set ci_results (fst policy_scenarios)
               (policy_intervals confidence metrics_data)))
    results (Ok []).

End WithSciPyIntervals.

End Analytics.

(** ** config/settings.py and modules/climate_scenarios.py *)

Module ClimateScenarios.

(** One entry of [CLIMATE_SCENARIOS]. *)
Record scenario : Type := {
  name : string;
  capacity_reduction : Q;
  efficiency_loss : Q;
  emission_factor : Q
}.

Definition CLIMATE_SCENARIOS : dict scenario :=
  [("baseline", {| name := "Baseline (No Climate Stress)";
                   capacity_reduction := 0.0;
                   efficiency_loss := 0.0;
                   emission_factor := 1.0 |});
   ("moderate", {| name := "Moderate Climate Stress";
                   capacity_reduction := 0.15;
                   efficiency_loss := 0.10;
                   emission_factor := 1.15 |});
   ("severe", {| name := "Severe Climate Stress";
                 capacity_reduction := 0.30;
                 efficiency_loss := 0.20;
                 emission_factor := 1.30 |});
   ("extreme", {| name := "Extreme Climate Stress";
                  capacity_reduction := 0.45;
                  efficiency_loss := 0.35;
                  emission_factor := 1.50 |})].

(** [self.scenarios] *)
Definition scenarios : dict scenario := CLIMATE_SCENARIOS.

(** [get_scenario] *)
Definition get_scenario (scenario_name : string) : result scenario :=
  if negb (mem scenario_name (keys scenarios)) then
    Raise (ValueError
             ("Unknown scenario: " ++ scenario_name
              ++ ". Available: ['baseline', 'moderate', 'severe', 'extreme']"))
  else item scenarios scenario_name.

(** [get_scenario_names] *)
Definition get_scenario_names : list string := keys scenarios.

(** [apply_capacity_reduction] *)
Definition apply_capacity_reduction (base_capacity : Q)
    (scenario_name : string) : result Q :=
  s <- get_scenario scenario_name ;;
  let reduction := capacity_reduction s in
  Ok (base_capacity * (1 - reduction)).

(** [apply_efficiency_loss] *)
Definition apply_efficiency_loss (base_speed : Q) (scenario_name : string)
  : result Q :=
  s <- get_scenario scenario_name ;;
  let loss := efficiency_loss s in
  Ok (base_speed * (1 - loss)).

(** [get_emission_factor] *)
Definition get_emission_factor (scenario_name : string) : result Q :=
  s <- get_scenario scenario_name ;;
  Ok (emission_factor s).

(** One entry of the dict returned by [compare_scenarios]. *)
Record impact : Type := {
  base_value : Q;
  adjusted_value : Q;
  change : Q;
  percent_change : Q
}.

(** The body of the loop of [compare_scenarios]. *)
Definition scenario_impact (base_value : Q) (metric_name : string)
    (s : scenario) : impact :=
  let adjusted :=
    if String.eqb metric_name "capacity" then
      base_value * (1 - capacity_reduction s)
    else if String.eqb metric_name "speed" then
      base_value * (1 - efficiency_loss s)
    else if String.eqb metric_name "emissions" then
      base_value * emission_factor s
    else base_value in
  {| base_value := base_value;
     adjusted_value := adjusted;
     change := adjusted - base_value;
     percent_change :=
       if negb (eqb base_value 0)
       then (adjusted - base_value) / base_value * 100
       else 0 |}.

(** [compare_scenarios] *)
Definition compare_scenarios (base_value : Q) (metric_name : string)
  : dict impact :=
  fold_left
    (fun comparisons ns =>
       set comparisons (fst ns) (scenario_impact base_value metric_name (snd ns)))
    scenarios [].

End ClimateScenarios.

(** ** modules/policy_generator.py *)

Module PolicyGenerator.

(** The values of a policy configuration parsed from JSON. *)
Inductive value : Type :=
| VNone
| VBool (b : bool)
| VNum (q : Q)
| VStr (s : string)
| VList (items : list value)
| VDict (entries : list (string * value)).

(** [isinstance(v, dict)] *)
Definition is_dict (v : value) : bool :=
  match v with
  | VDict _ => true
  | _ => false
  end.

Definition required_fields : list string :=
  ["policy_name"; "policy_type"; "description"; "parameters"].

(** The loop over [required_fields]: the first field that the policy
    lacks. *)
Fixpoint first_missing (fields : list string) (policy : dict value)
  : option string :=
  match fields with
  | [] => None
  | field :: rest =>
      if negb (mem field (keys policy)) then Some field
      else first_missing rest policy
  end.

(** [validate_policy]; the result is the pair [(is_valid, error_message)].
    [policy["parameters"]] is read after the loop has found the key. *)
Definition validate_policy (policy : dict value) : result (bool * string) :=
  match first_missing required_fields policy with
  | Some field => Ok (false, "Missing required field: " ++ field)
  | None =>
      parameters <- item policy "parameters" ;;
      if negb (is_dict parameters)
      then Ok (false, "Parameters must be a dictionary")
      else Ok (true, "Policy configuration is valid")
  end.

End PolicyGenerator.

(** ** Python floats: binary64 values with their own arithmetic *)

Module Py64.

(** [max(a, b)] and [min(a, b)]: the first argument is kept unless the
    comparison with the second succeeds; a NaN first argument is kept, since
    every comparison with NaN fails. *)
Definition max2 (a b : float) : float := if (a <? b)%float then b else a.
Definition min2 (a b : float) : float := if (b <? a)%float then b else a.

(** [a / b]: a zero divisor raises. *)
Definition div (a b : float) : result float :=
  if (b =? 0)%float then Raise ZeroDivisionError else Ok (a / b)%float.

(** [sum(xs)]: left to right, starting from 0. *)
Definition sum (xs : list float) : float := fold_left PrimFloat.add xs 0%float.

(** The double nearest to the quotient of two positive integers, ties to
    even, with the given sign. *)
Definition nearest (s : bool) (n d : positive) : float :=
  let '(q, e, l) := SFdiv_core_binary prec emax (Zpos n) 0 (Zpos d) 0 in
  SF2Prim (binary_round_aux prec emax s q e l).

(** [round(x, 2)]: infinities, NaN and zeros round to themselves; any other
    value is rounded on its exact decimal expansion to two places, ties to
    even, and the decimal is read back as the nearest double, the sign
    kept. *)
Definition round2 (x : float) : float :=
  match Prim2SF x with
  | S754_finite s m e =>
      match Py.round_half_even (inject_Z (Zpos m) * 2 ^ e * 100) with
      | Zpos k => nearest s k 100
      | _ => if s then (-0)%float else 0%float
      end
  | _ => x
  end.

End Py64.

(** ** modules/evaluator.py on binary64 values *)

Module Evaluator64.

Definition metrics : Type := dict float.

(** One entry of the dict returned by [compare_policies]. *)
Record comparison : Type := {
  baseline : float;
  policy : float;
  absolute_change : float;
  percent_change : float;
  is_improvement : bool
}.

(** [_is_improvement] *)
Definition _is_improvement (metric_key : string) (change : float) : bool :=
  let lower_is_better :=
    ["average_delay"; "co2_emissions"; "total_travel_time"] in
  let higher_is_better := ["throughput"; "average_speed"] in
  if mem metric_key lower_is_better then (change <? 0)%float
  else if mem metric_key higher_is_better then (0 <? change)%float
  else false.

(** The body of the loop of [compare_policies] for one metric key. *)
Definition compare_metric (baseline_metrics policy_metrics : metrics)
    (metric_key : string) : result comparison :=
  baseline_value <- item baseline_metrics metric_key ;;
  policy_value <- item policy_metrics metric_key ;;
  let absolute_change := (policy_value - baseline_value)%float in
  percent_change <-
    (if negb (baseline_value =? 0)%float
     then (r <- Py64.div absolute_change baseline_value ;;
           Ok (r * 100)%float)
     else Ok (if (policy_value =? 0)%float then 0%float else 100%float)) ;;
  Ok {| baseline := baseline_value;
        policy := policy_value;
        absolute_change := absolute_change;
        percent_change := percent_change;
        is_improvement := _is_improvement metric_key absolute_change |}.

(** [compare_policies] *)
Definition compare_policies (baseline_metrics policy_metrics : metrics)
  : result (dict comparison) :=
  fold_left
    (fun acc metric_key =>
       comparison <- acc ;;
       entry <- compare_metric baseline_metrics policy_metrics metric_key ;;
       Ok (set comparison metric_key entry))
    (keys baseline_metrics) (Ok []).

Definition default_weights : dict float :=
  [("average_delay", 0.25%float); ("throughput", 0.25%float);
   ("co2_emissions", 0.25%float); ("average_speed", 0.25%float)].

(** The dict [normalized] built by [calculate_composite_score]. *)
Definition normalized_scores (m : metrics) : dict float :=
  let delay :=
    Py64.min2 (Py64.max2 (get_or m "average_delay" 150%float) 0%float)
              300%float in
  let throughput :=
    Py64.min2 (Py64.max2 (get_or m "throughput" 0%float) 0%float)
              2000%float in
  let emissions :=
    Py64.min2 (Py64.max2 (get_or m "co2_emissions" 500%float) 0%float)
              1000%float in
  let speed :=
    Py64.min2 (Py64.max2 (get_or m "average_speed" 0%float) 0%float)
              60%float in
  [("average_delay", ((300 - delay) / 300 * 100)%float);
   ("throughput", (throughput / 2000 * 100)%float);
   ("co2_emissions", ((1000 - emissions) / 1000 * 100)%float);
   ("average_speed", (speed / 60 * 100)%float)].

(** [calculate_composite_score] *)
Definition calculate_composite_score (m : metrics)
    (weights : option (dict float)) : float :=
  let weights :=
    match weights with
    | None => default_weights
    | Some w => w
    end in
  let normalized := normalized_scores m in
  let score :=
    Py64.sum (map (fun kw => (get_or normalized (fst kw) 0 * snd kw)%float)
                  weights) in
  Py64.round2 score.

End Evaluator64.

(** ** Example inputs *)

Module Examples.

Definition mk (delay emissions throughput speed : Q) : metrics :=
  [("average_delay", delay); ("co2_emissions", emissions);
   ("throughput", throughput); ("average_speed", speed)].

(** P1 is better than P2 in every objective. *)
Definition p1_p2 : dict metrics :=
  [("P1", mk 30 200 1500 45); ("P2", mk 60 400 1000 30)].

(** Only B reports a throughput. *)
Definition partial_metrics : dict metrics :=
  [("A", [("average_delay", 10)]);
   ("B", [("average_delay", 5); ("throughput", 1200)])].

Definition record (m : metrics) : Analytics.scenario_data :=
  [("metrics", m)].

(** One policy, two scenarios. *)
Definition one_group : dict (dict Analytics.scenario_data) :=
  [("P1", [("baseline", record (mk 30 200 1500 45));
           ("severe", record (mk 35 220 1400 40))])].

(** Two policies, two scenarios each. *)
Definition two_groups : dict (dict Analytics.scenario_data) :=
  [("P1", [("baseline", record (mk 30 200 1500 45));
           ("severe", record (mk 35 220 1400 40))]);
   ("P2", [("baseline", record (mk 60 400 1000 30));
           ("severe", record (mk 70 450 900 25))])].

(** A and B are incomparable, C is dominated by A only. *)
Definition tie_then_worse : dict metrics :=
  [("A", mk 10 10 10 10); ("B", mk 5 50 10 10); ("C", mk 20 10 10 10)].

End Examples.

(** ** Definitions used in the statements and proofs *)

(** The sum of a row of the objective matrix: a dominating row has a
    strictly smaller sum. *)
Definition row_sum (a : list Q) : Q := fold_right Qplus 0 a.

(** One iteration of the loop of [compare_policies]. *)
Definition compare_step (b p : metrics)
    (acc : result (dict Evaluator.comparison)) (metric_key : string)
  : result (dict Evaluator.comparison) :=
  comparison <- acc ;;
  entry <- Evaluator.compare_metric b p metric_key ;;
  Ok (set comparison metric_key entry).

(** The objectives that [identify_best_policy] documents. *)
Definition defined_objectives : list string :=
  ["composite"; "delay"; "emissions"; "throughput"; "speed"].

(** A call of [identify_best_policy] is malformed when the objective is not
    a defined one, or when it is a single-metric objective and some policy
    lacks the metric it ranks by. *)
Definition malformed_request (results_dict : dict metrics)
    (objective : string) : bool :=
  negb (mem objective defined_objectives)
  || match get Evaluator.metric_map objective with
     | Some metric_key =>
         existsb (fun nm => match get (snd nm) metric_key with
                            | Some _ => false
                            | None => true
                            end)
                 results_dict
     | None => false
     end.

(** A simulation record has a ['metrics'] entry. *)
Definition has_metrics (data : Analytics.scenario_data) : bool :=
  match get data "metrics" with
  | Some _ => true
  | None => false
  end.

(** Every simulation record of [results] has a ['metrics'] entry. *)
Definition all_have_metrics (results : dict (dict Analytics.scenario_data))
  : bool :=
  forallb (fun policy_scenarios =>
             forallb has_metrics (values (snd policy_scenarios)))
          results.

(** One iteration of the loop over metrics of [perform_anova]. *)
Definition anova_step (f_oneway : list (list Q) -> float * float)
    (results : dict (dict Analytics.scenario_data))
    (acc : result (dict Analytics.anova_entry)) (metric : string)
  : result (dict Analytics.anova_entry) :=
  anova_results <- acc ;;
  policy_data <- Analytics.collect_policy_data results metric ;;
  if (1 <? List.length policy_data)%nat
     && forallb (fun data => (0 <? List.length data)%nat) policy_data
  then Ok (set anova_results metric (Analytics.anova_of f_oneway policy_data))
  else Ok anova_results.

(** An [f_oneway] that reports the given F statistic and p-value. *)
Definition f_oneway_returning (f_stat p_value : float)
  : list (list Q) -> float * float :=
  fun _ => (f_stat, p_value).

(** The dict [dominance_count] at the end of the counting loops of
    [rank_policies_by_dominance]. *)
Definition dominance_count (policies_metrics : dict metrics) : dict nat :=
  let policy_names := keys policies_metrics in
  Optimizer.count_dominators policy_names
    (Optimizer.objective_rows policies_metrics)
    (map (fun name => (name, 0%nat)) policy_names).

(** The test of the counting loops: [name_b] is another policy and its row
    dominates the row of [name_a]. *)
Definition dominated_by (om : dict (list Q)) (name_a name_b : string) : bool :=
  negb (String.eqb name_a name_b)
  && Optimizer._dominates (get_or om name_b []) (get_or om name_a []).

(** The inner loop of the counting loops, for one [name_a]. *)
Definition count_pass (policy_names : list string) (om : dict (list Q))
    (name_a : string) (dominance_count : dict nat) : dict nat :=
  fold_left
    (fun dc name_b =>
       if dominated_by om name_a name_b
       then Optimizer.increment dc name_a
       else dc)
    policy_names dominance_count.

(** Add [n] to the count stored under [a]. *)
Definition bump (a : string) (n : nat) (kc : string * nat) : string * nat :=
  if String.eqb a (fst kc) then (fst kc, (snd kc + n)%nat) else kc.

(** How many other policies dominate the policy [name], as the
    specification words it. *)
Definition dominators (policies_metrics : dict metrics) (name : string) : nat :=
  List.length
    (filter
       (fun other =>
          negb (String.eqb name (fst other))
          && Optimizer._dominates
               (Optimizer.objective_values (snd other))
               (Optimizer.objective_values (get_or policies_metrics name [])))
       policies_metrics).

(** How many entries have a count strictly below [c]. *)
Definition strictly_below (counts : dict nat) (c : nat) : nat :=
  List.length (filter (fun x => (snd x <? c)%nat) counts).

(** Items in ascending order of their count. *)
Fixpoint ascending (items : list (string * nat)) : Prop :=
  match items with
  | [] => True
  | x :: rest =>
      (forall y, In y rest -> (snd x <= snd y)%nat) /\ ascending rest
  end.

(** Dense ranking: equal counts share a rank, and the ranks in use have no
    gap. *)
Definition dense_ranks (policies_metrics : dict metrics) : Prop :=
  let counts := dominance_count policies_metrics in
  let ranks := Optimizer.rank_policies_by_dominance policies_metrics in
  (forall p q c,
      get counts p = Some c -> get counts q = Some c ->
      get ranks p = get ranks q) /\
  (forall r, In r (values ranks) -> (1 < r)%nat ->
             In (r - 1)%nat (values ranks)).

(** The composite score as the specification words it: every metric is
    clamped to its operating range, normalised to 0..100 (inverted when lower
    is better), and the equally weighted sum is rounded to two decimals. *)
Module Spec.

Definition clamp (lo hi x : Q) : Q :=
  if ltb x lo then lo else if ltb hi x then hi else x.

Definition higher_is_better_score (hi x : Q) : Q :=
  clamp 0 hi x / hi * 100.

Definition lower_is_better_score (hi x : Q) : Q :=
  (hi - clamp 0 hi x) / hi * 100.

Definition composite_score (m : metrics) : Q :=
  round2
    (0.25 * lower_is_better_score 300 (get_or m "average_delay" 150)
     + 0.25 * higher_is_better_score 2000 (get_or m "throughput" 0)
     + 0.25 * lower_is_better_score 1000 (get_or m "co2_emissions" 500)
     + 0.25 * higher_is_better_score 60 (get_or m "average_speed" 0)).

End Spec.

(** Some other policy of [pm] dominates the policy [nm]. *)
Definition dominated_in (pm : dict metrics) (nm : string * metrics) : Prop :=
  exists other,
    In other pm /\ fst other <> fst nm /\
    Optimizer._dominates (Optimizer.objective_values (snd other))
                         (Optimizer.objective_values (snd nm)) = true.

(** The samples that [perform_anova] hands to [f_oneway] for one metric: one
    list per policy, one value per scenario, 0 where a record's metrics lack
    the metric. *)
Definition samples (results : dict (dict Analytics.scenario_data))
    (metric : string) : list (list Q) :=
  map (fun policy_scenarios =>
         map (fun data => get_or (get_or data "metrics" []) metric 0)
             (values (snd policy_scenarios)))
      results.

(** A vehicle record none of whose values is negative. *)
Definition nonnegative_vehicle (v : Evaluator.vehicle) : Prop :=
  forall field x,
    In field [Evaluator.delay; Evaluator.speed; Evaluator.travel_time;
              Evaluator.distance; Evaluator.co2_emissions] ->
    field v = Some x -> 0 <= x.

(** The changes of delay, throughput and emissions, in percent, that belong
    to a parameter name and a variation factor. *)
Definition expected_changes (parameter : string) (factor : Q) : Q * Q * Q :=
  if Analytics.mentions "signal" parameter
     || Analytics.mentions "timing" parameter
  then (50 * (factor - 1), -30 * (factor - 1), 0)
  else if Analytics.mentions "speed" parameter
  then (0, 0, 40 * (factor - 1))
  else if Analytics.mentions "capacity" parameter
  then ((1 / factor - 1) * 100, (factor - 1) * 100, 0)
  else (0, 0, 0).

(** A row agrees with the expected changes of its parameter and factor. *)
Definition row_as_expected (row : Analytics.sensitivity_row) : Prop :=
  let '(d, t, e) :=
    expected_changes (Analytics.parameter row)
                     (Analytics.variation_factor row) in
  Analytics.delay_change row == d /\
  Analytics.throughput_change row == t /\
  Analytics.emissions_change row == e.

(** The values of one metric over the scenarios of a policy, in order: one
    value per simulation record whose metrics have the metric. *)
Definition metric_samples (scenarios : dict Analytics.scenario_data)
    (metric : string) : list Q :=
  flat_map (fun data =>
              match get (get_or data "metrics" []) metric with
              | Some value => [value]
              | None => []
              end)
           (values scenarios).

(** The values stored under a key among the items of a metric set. *)
Definition values_of (m : metrics) (k : string) : list Q :=
  map snd (filter (fun kv => String.eqb k (fst kv)) m).

(** A binary64 value that is neither an infinity nor NaN. *)
Definition finite64 (x : float) : bool :=
  match Prim2SF x with
  | S754_zero _ | S754_finite _ _ _ => true
  | S754_infinity _ | S754_nan => false
  end.

(** ** Facts about the Python built-ins *)

Section BuiltinFacts.

Lemma ltb_lt (a b : Q) : ltb a b = true <-> a < b.
Proof.
  unfold ltb. rewrite negb_true_iff.
  split; intro H.
  - apply Qnot_le_lt. intro Hle. apply Qle_bool_iff in Hle. congruence.
  - destruct (Qle_bool b a) eqn:E; [|reflexivity].
    apply Qle_bool_iff in E. exfalso. exact (Qlt_not_le _ _ H E).
Qed.

Lemma ltb_ge (a b : Q) : ltb a b = false <-> b <= a.
Proof.
  unfold ltb. rewrite negb_false_iff. apply Qle_bool_iff.
Qed.

Lemma leb_le (a b : Q) : leb a b = true <-> a <= b.
Proof. apply Qle_bool_iff. Qed.

Lemma ltb_irrefl (a : Q) : ltb a a = false.
Proof. apply ltb_ge. apply Qle_refl. Qed.

End BuiltinFacts.

(** ** Dominance *)

Section Dominance.

Import Optimizer.

Lemma np_any_lt_irrefl (a : list Q) : np_any_lt a a = false.
Proof.
  unfold np_any_lt.
  induction a as [|x a IH]; simpl; [reflexivity|].
  now rewrite ltb_irrefl, IH.
Qed.

Lemma np_any_lt_not_all_ge (a b : list Q) :
  np_any_lt a b = true -> np_all_le b a = false.
Proof.
  unfold np_any_lt, np_all_le.
  revert b; induction a as [|x a IH]; intros [|y b]; simpl; try discriminate.
  intro H. apply orb_true_iff in H. apply andb_false_iff.
  destruct H as [H|H].
  - left. apply ltb_lt in H.
    destruct (leb y x) eqn:E; [|reflexivity].
    apply leb_le in E. exfalso. exact (Qlt_not_le _ _ H E).
  - right. now apply IH.
Qed.

Lemma np_all_le_sum (a b : list Q) :
  List.length a = List.length b ->
  np_all_le a b = true -> row_sum a <= row_sum b.
Proof.
  unfold np_all_le.
  revert b; induction a as [|x a IH]; intros [|y b] Hlen; simpl in *;
    try discriminate Hlen.
  - intros _. apply Qle_refl.
  - intros H. apply andb_true_iff in H. destruct H as [Hxy H].
    apply leb_le in Hxy.
    apply Qplus_le_compat; [exact Hxy|].
    apply IH; [now injection Hlen | exact H].
Qed.

Lemma dominates_sum_lt (a b : list Q) :
  List.length a = List.length b ->
  _dominates a b = true -> row_sum a < row_sum b.
Proof.
  unfold _dominates. intros Hlen H.
  apply andb_true_iff in H. destruct H as [Hall Hany].
  revert b Hlen Hall Hany.
  unfold np_all_le, np_any_lt.
  induction a as [|x a IH]; intros [|y b] Hlen; simpl in *;
    try discriminate.
  intros Hall Hany.
  apply andb_true_iff in Hall. destruct Hall as [Hxy Hall].
  apply leb_le in Hxy.
  apply orb_true_iff in Hany. destruct Hany as [Hlt|Hany].
  - apply ltb_lt in Hlt.
    apply Qplus_lt_le_compat; [exact Hlt|].
    apply np_all_le_sum; [now injection Hlen | exact Hall].
  - rewrite (Qplus_comm x), (Qplus_comm y).
    apply Qplus_lt_le_compat; [|exact Hxy].
    apply IH; [now injection Hlen | exact Hall | exact Hany].
Qed.

Lemma objective_values_length (m : metrics) :
  List.length (objective_values m) = 4%nat.
Proof. reflexivity. Qed.

Lemma objective_matrix_length (pm : dict metrics) :
  List.length (objective_matrix pm) = List.length pm.
Proof. unfold objective_matrix. apply length_map. Qed.

Lemma objective_matrix_row_length (pm : dict metrics) (i : nat) :
  (i < List.length pm)%nat ->
  List.length (nth i (objective_matrix pm) []) = 4%nat.
Proof.
  intro Hi. unfold objective_matrix.
  destruct pm as [|d pm']; [simpl in Hi; lia|].
  rewrite (nth_indep _ [] (objective_values (snd d)))
    by (rewrite length_map; exact Hi).
  rewrite (map_nth (fun nm => objective_values (snd nm)) (d :: pm') d i).
  apply objective_values_length.
Qed.

(** A list of rows that is not empty has a row of least sum. *)
Lemma least_row_sum (rows : list (list Q)) :
  rows <> [] ->
  exists i, (i < List.length rows)%nat /\
    forall j, (j < List.length rows)%nat ->
      row_sum (nth i rows []) <= row_sum (nth j rows []).
Proof.
  induction rows as [|r rows IH]; [congruence|]. intros _.
  destruct rows as [|r' rows'].
  - exists 0%nat. split; [simpl; lia|].
    intros [|j] Hj; [apply Qle_refl | simpl in Hj; lia].
  - destruct IH as [i [Hi Hmin]]; [discriminate|].
    destruct (Qlt_le_dec (row_sum (nth i (r' :: rows') [])) (row_sum r))
      as [Hlt|Hle].
    + exists (S i). split; [simpl in *; lia|].
      intros [|j] Hj.
      * apply Qlt_le_weak. exact Hlt.
      * apply Hmin. simpl in *; lia.
    + exists 0%nat. split; [simpl; lia|].
      intros [|j] Hj; [apply Qle_refl|].
      eapply Qle_trans; [exact Hle|].
      apply Hmin. simpl in *; lia.
Qed.

(** Some policy has no dominator. *)
Lemma some_row_not_dominated (pm : dict metrics) :
  pm <> [] ->
  exists i, (i < List.length pm)%nat /\
            is_dominated (objective_matrix pm) i = false.
Proof.
  intro Hne.
  destruct (least_row_sum (objective_matrix pm)) as [i [Hi Hmin]].
  { intro E. apply Hne. unfold objective_matrix in E.
    now apply map_eq_nil in E. }
  rewrite objective_matrix_length in Hi, Hmin.
  exists i. split; [exact Hi|].
  unfold is_dominated.
  destruct (existsb _ _) eqn:E; [|reflexivity].
  apply existsb_exists in E. destruct E as [j [Hj E]].
  apply in_seq in Hj. rewrite objective_matrix_length in Hj.
  apply andb_true_iff in E. destruct E as [_ E].
  apply dominates_sum_lt in E.
  - exfalso. apply (Qlt_not_le _ _ E). apply Hmin. lia.
  - rewrite !objective_matrix_row_length by lia. reflexivity.
Qed.

Lemma pareto_frontier_not_nil (pm : dict metrics) :
  pm <> [] -> calculate_pareto_frontier pm <> [].
Proof.
  intro Hne.
  destruct (some_row_not_dominated pm Hne) as [i [Hi Hnd]].
  unfold calculate_pareto_frontier. intro E.
  apply map_eq_nil in E.
  assert (Hin : In i (filter (fun i => negb (is_dominated (objective_matrix pm) i))
                        (seq 0 (List.length (keys pm))))).
  { apply filter_In. split.
    - apply in_seq. unfold keys. rewrite length_map. lia.
    - now rewrite Hnd. }
  rewrite E in Hin. exact Hin.
Qed.

End Dominance.

(** C6.  The dominance relation [_dominates] is irreflexive and asymmetric:
    no objective vector dominates itself (so two policies with equal vectors
    dominate neither each other), and if A dominates B then B does not
    dominate A. *)
Theorem dominates_irreflexive_asymmetric :
  (forall a : list Q, Optimizer._dominates a a = false) /\
  (forall a b : list Q,
      Optimizer._dominates a b = true -> Optimizer._dominates b a = false).
Proof.
  split.
  - intro a. unfold Optimizer._dominates.
    rewrite np_any_lt_irrefl. apply andb_false_r.
  - intros a b H. unfold Optimizer._dominates in *.
    apply andb_true_iff in H. destruct H as [_ Hany].
    now rewrite (np_any_lt_not_all_ge a b Hany).
Qed.

Lemma dominates_irreflexive_asymmetric_witness :
  Optimizer._dominates [30; 200; -1500; -45] [60; 400; -1000; -30] = true /\
  Optimizer._dominates [60; 400; -1000; -30] [30; 200; -1500; -45] = false.
Proof.
  split.
  - reflexivity.
  - apply (proj2 dominates_irreflexive_asymmetric). reflexivity.
Defined.

(** C7.  For every non-empty mapping of policies to metrics the Pareto
    frontier is not empty: some policy has no dominator and is on the
    frontier; a single policy is always on the frontier. *)
Theorem pareto_frontier_nonempty :
  (forall pm : dict metrics,
      pm <> [] ->
      Optimizer.calculate_pareto_frontier pm <> [] /\
      exists i,
        (i < List.length pm)%nat /\
        Optimizer.is_dominated (Optimizer.objective_matrix pm) i = false /\
        In (nth i (keys pm) "") (Optimizer.calculate_pareto_frontier pm)) /\
  (forall (name : string) (m : metrics),
      Optimizer.calculate_pareto_frontier [(name, m)] = [name]).
Proof.
  split.
  - intros pm Hne. split; [now apply pareto_frontier_not_nil|].
    destruct (some_row_not_dominated pm Hne) as [i [Hi Hnd]].
    exists i. split; [exact Hi|]. split; [exact Hnd|].
    unfold Optimizer.calculate_pareto_frontier.
    apply in_map_iff. exists i. split; [reflexivity|].
    apply filter_In. split.
    + apply in_seq. unfold keys. rewrite length_map. lia.
    + now rewrite Hnd.
  - intros name m. reflexivity.
Qed.

Lemma pareto_frontier_nonempty_witness :
  Examples.p1_p2 <> [] /\
  Optimizer.calculate_pareto_frontier Examples.p1_p2 <> [].
Proof.
  split.
  - discriminate.
  - apply (proj1 pareto_frontier_nonempty). discriminate.
Defined.

(** ** The hypervolume proxy *)

Section Hypervolume.

Import Optimizer.

Lemma default_reference_point_ok (pm : dict metrics) :
  pm <> [] -> exists r, default_reference_point pm = Ok r.
Proof.
  destruct pm as [|[name m] pm']; [congruence|]. intros _.
  eexists. unfold default_reference_point. simpl. reflexivity.
Qed.

Lemma div_by_length {A} (a : Q) (xs : list A) :
  xs <> [] ->
  div a (inject_Z (Z.of_nat (List.length xs)))
  = Ok (a / inject_Z (Z.of_nat (List.length xs))).
Proof.
  intro Hne. unfold div.
  destruct (eqb _ 0) eqn:E; [|reflexivity].
  exfalso. apply Qeq_bool_eq in E.
  destruct xs as [|x xs']; [congruence|].
  unfold Qeq in E. simpl in E. lia.
Qed.

End Hypervolume.

(** C8.  For every non-empty mapping of policies to metrics, and whether or
    not a reference point is supplied, [calculate_hypervolume] returns
    |pareto front| / |all policies|; the reference point is ignored.  With
    two policies of which one dominates the other the value is 0.5. *)
Theorem hypervolume_is_frontier_fraction :
  (forall (pm : dict metrics) (reference_point : option (list Q)),
      pm <> [] ->
      Optimizer.calculate_hypervolume pm reference_point
      = Ok (inject_Z (Z.of_nat (List.length (Optimizer.calculate_pareto_frontier pm)))
            / inject_Z (Z.of_nat (List.length pm)))) /\
  (forall reference_point : option (list Q),
      exists v, Optimizer.calculate_hypervolume Examples.p1_p2 reference_point = Ok v
                /\ v == 0.5).
Proof.
  assert (General : forall (pm : dict metrics) (reference_point : option (list Q)),
      pm <> [] ->
      Optimizer.calculate_hypervolume pm reference_point
      = Ok (inject_Z (Z.of_nat (List.length (Optimizer.calculate_pareto_frontier pm)))
            / inject_Z (Z.of_nat (List.length pm)))).
  { intros pm reference_point Hne.
    unfold Optimizer.calculate_hypervolume.
    assert (Href : exists r,
               match reference_point with
               | Some r => Ok r
               | None => Optimizer.default_reference_point pm
               end = Ok r).
    { destruct reference_point as [r|]; [now exists r|].
      now apply default_reference_point_ok. }
    destruct Href as [r ->]. simpl.
    pose proof (pareto_frontier_not_nil pm Hne) as Hfront.
    destruct (Optimizer.calculate_pareto_frontier pm) as [|p front] eqn:E;
      [congruence|].
    now apply div_by_length. }
  split; [exact General|].
  intro reference_point. eexists. split.
  - apply General. discriminate.
  - reflexivity.
Qed.

Lemma hypervolume_is_frontier_fraction_witness :
  Examples.p1_p2 <> [] /\
  Optimizer.calculate_hypervolume Examples.p1_p2 (Some [330; 440; 900; 27])
  = Ok (1 # 2).
Proof.
  split.
  - discriminate.
  - apply (proj1 hypervolume_is_frontier_fraction Examples.p1_p2). discriminate.
Defined.

(** ** The composite score *)

Section CompositeScore.

Import Evaluator.

Lemma ltb_comp (a a' b b' : Q) : a == a' -> b == b' -> ltb a b = ltb a' b'.
Proof.
  intros Ha Hb.
  destruct (ltb a b) eqn:E1; destruct (ltb a' b') eqn:E2; try reflexivity.
  - apply ltb_lt in E1. apply ltb_ge in E2.
    rewrite Ha, Hb in E1. exfalso. exact (Qlt_not_le _ _ E1 E2).
  - apply ltb_ge in E1. apply ltb_lt in E2.
    rewrite Ha, Hb in E1. exfalso. exact (Qlt_not_le _ _ E2 E1).
Qed.

Lemma round_half_even_comp (x y : Q) :
  x == y -> round_half_even x = round_half_even y.
Proof.
  intro H. unfold round_half_even.
  rewrite (Qfloor_comp x y H).
  assert (Hr : x - inject_Z (Qfloor y) == y - inject_Z (Qfloor y))
    by (rewrite H; reflexivity).
  rewrite (ltb_comp _ _ _ _ Hr (Qeq_refl (1 # 2))).
  rewrite (ltb_comp _ _ _ _ (Qeq_refl (1 # 2)) Hr).
  reflexivity.
Qed.

Lemma round2_comp (x y : Q) : x == y -> round2 x = round2 y.
Proof.
  intro H. unfold round2.
  rewrite (round_half_even_comp (x * 100) (y * 100)); [reflexivity|].
  now rewrite H.
Qed.

Lemma round_half_even_bounds (y : Q) (n : Z) :
  0 <= y -> y <= inject_Z n -> (0 <= round_half_even y <= n)%Z.
Proof.
  intros H0 Hn.
  pose proof (Qfloor_resp_le _ _ H0) as Hf0. change (0 <= Qfloor y)%Z in Hf0.
  pose proof (Qfloor_resp_le _ _ Hn) as Hfn. rewrite Qfloor_Z in Hfn.
  assert (Hhalf : ltb (y - inject_Z (Qfloor y)) (1 # 2) = false ->
                  (Qfloor y + 1 <= n)%Z).
  { intro E. apply ltb_ge in E.
    assert (Hlt : inject_Z (Qfloor y) < inject_Z n).
    { apply Qlt_le_trans with (y := y); [|exact Hn].
      apply Qlt_le_trans with (y := inject_Z (Qfloor y) + (1 # 2)).
      - rewrite <- (Qplus_0_r (inject_Z (Qfloor y))) at 1.
        apply Qplus_lt_r. reflexivity.
      - apply Qplus_le_l with (z := - inject_Z (Qfloor y)).
        setoid_replace (inject_Z (Qfloor y) + (1 # 2) + - inject_Z (Qfloor y))
          with (1 # 2) by ring.
        exact E. }
    rewrite <- Zlt_Qlt in Hlt. lia. }
  unfold round_half_even.
  destruct (ltb (y - inject_Z (Qfloor y)) (1 # 2)) eqn:E1; [lia|].
  specialize (Hhalf eq_refl).
  destruct (ltb (1 # 2) _); [lia|].
  destruct (Z.even _); lia.
Qed.

Lemma round2_bounds (x : Q) : 0 <= x <= 100 -> 0 <= round2 x <= 100.
Proof.
  intros [H0 H100].
  destruct (round_half_even_bounds (x * 100) 10000) as [Hlo Hhi].
  - apply Qmult_le_0_compat; [exact H0 | discriminate].
  - setoid_replace (inject_Z 10000) with (100 * 100) by reflexivity.
    apply Qmult_le_compat_r; [exact H100 | discriminate].
  - unfold round2. split.
    + apply Qle_shift_div_l; [reflexivity|].
      rewrite Qmult_0_l. now rewrite <- (Zle_Qle 0).
    + apply Qle_shift_div_r; [reflexivity|].
      setoid_replace (100 * 100) with (inject_Z 10000) by reflexivity.
      now rewrite <- Zle_Qle.
Qed.

(** The code's [min(max(x, 0), hi)] is the clamp to [0, hi]. *)
Lemma min_max_is_clamp (x hi : Q) :
  0 <= hi -> min2 (max2 x 0) hi = Spec.clamp 0 hi x.
Proof.
  intro Hhi. unfold min2, max2, Spec.clamp.
  destruct (ltb x 0) eqn:E; [|reflexivity].
  assert (E' : ltb hi 0 = false) by now apply ltb_ge.
  now rewrite E'.
Qed.

Lemma clamp_bounds (x hi : Q) :
  0 <= hi -> 0 <= Spec.clamp 0 hi x <= hi.
Proof.
  intro Hhi. unfold Spec.clamp.
  destruct (ltb x 0) eqn:E0.
  - split; [apply Qle_refl | exact Hhi].
  - apply ltb_ge in E0.
    destruct (ltb hi x) eqn:E1.
    + split; [exact Hhi | apply Qle_refl].
    + apply ltb_ge in E1. now split.
Qed.

End CompositeScore.

Section CompositeScoreBounds.

Import Evaluator.

(** The score before rounding, with the four sub-scores spelled out. *)
Lemma composite_score_unfold (m : metrics) :
  calculate_composite_score m None
  = round2
      (0
       + (300 - min2 (max2 (get_or m "average_delay" 150) 0) 300) / 300 * 100 * 0.25
       + min2 (max2 (get_or m "throughput" 0) 0) 2000 / 2000 * 100 * 0.25
       + (1000 - min2 (max2 (get_or m "co2_emissions" 500) 0) 1000) / 1000 * 100 * 0.25
       + min2 (max2 (get_or m "average_speed" 0) 0) 60 / 60 * 100 * 0.25).
Proof. reflexivity. Qed.

Lemma composite_score_refines_spec (m : metrics) :
  calculate_composite_score m None = Spec.composite_score m.
Proof.
  rewrite composite_score_unfold.
  rewrite !min_max_is_clamp by discriminate.
  apply round2_comp.
  unfold Spec.lower_is_better_score, Spec.higher_is_better_score, Qdiv.
  ring.
Qed.

Lemma spec_composite_score_bounds (m : metrics) :
  0 <= Spec.composite_score m <= 100.
Proof.
  unfold Spec.composite_score. apply round2_bounds.
  unfold Spec.lower_is_better_score, Spec.higher_is_better_score.
  pose proof (clamp_bounds (get_or m "average_delay" 150) 300) as Hd.
  pose proof (clamp_bounds (get_or m "throughput" 0) 2000) as Ht.
  pose proof (clamp_bounds (get_or m "co2_emissions" 500) 1000) as He.
  pose proof (clamp_bounds (get_or m "average_speed" 0) 60) as Hs.
  specialize (Hd ltac:(discriminate)). specialize (Ht ltac:(discriminate)).
  specialize (He ltac:(discriminate)). specialize (Hs ltac:(discriminate)).
  generalize dependent (Spec.clamp 0 300 (get_or m "average_delay" 150)).
  generalize dependent (Spec.clamp 0 2000 (get_or m "throughput" 0)).
  generalize dependent (Spec.clamp 0 1000 (get_or m "co2_emissions" 500)).
  generalize dependent (Spec.clamp 0 60 (get_or m "average_speed" 0)).
  intros s Hs e He t Ht d Hd.
  unfold Qdiv.
  change (/ 300) with (1 # 300). change (/ 2000) with (1 # 2000).
  change (/ 1000) with (1 # 1000). change (/ 60) with (1 # 60).
  split; lra.
Qed.

End CompositeScoreBounds.

(** C10.  A metric key absent from the input is replaced, before clamping,
    by a default that depends on the metric: 150 for [average_delay] and 500
    for [co2_emissions], each giving the sub-score 50; 0 for [throughput] and
    [average_speed], each giving the sub-score 0.  A mapping that lacks all
    four keys scores 25 under the default weights. *)
Theorem composite_score_missing_defaults :
  forall m : metrics,
    (get m "average_delay" = None ->
       get_or m "average_delay" 150 = 150 /\
       get_or (Evaluator.normalized_scores m) "average_delay" 0 == 50) /\
    (get m "co2_emissions" = None ->
       get_or m "co2_emissions" 500 = 500 /\
       get_or (Evaluator.normalized_scores m) "co2_emissions" 0 == 50) /\
    (get m "throughput" = None ->
       get_or m "throughput" 0 = 0 /\
       get_or (Evaluator.normalized_scores m) "throughput" 0 == 0) /\
    (get m "average_speed" = None ->
       get_or m "average_speed" 0 = 0 /\
       get_or (Evaluator.normalized_scores m) "average_speed" 0 == 0) /\
    (get m "average_delay" = None -> get m "co2_emissions" = None ->
     get m "throughput" = None -> get m "average_speed" = None ->
       Evaluator.calculate_composite_score m None == 25).
Proof.
  intro m. repeat split.
  - unfold get_or. now rewrite H.
  - change (get_or (Evaluator.normalized_scores m) "average_delay" 0)
      with ((300 - min2 (max2 (get_or m "average_delay" 150) 0) 300) / 300 * 100).
    unfold get_or. rewrite H. reflexivity.
  - unfold get_or. now rewrite H.
  - change (get_or (Evaluator.normalized_scores m) "co2_emissions" 0)
      with ((1000 - min2 (max2 (get_or m "co2_emissions" 500) 0) 1000) / 1000 * 100).
    unfold get_or. rewrite H. reflexivity.
  - unfold get_or. now rewrite H.
  - change (get_or (Evaluator.normalized_scores m) "throughput" 0)
      with (min2 (max2 (get_or m "throughput" 0) 0) 2000 / 2000 * 100).
    unfold get_or. rewrite H. reflexivity.
  - unfold get_or. now rewrite H.
  - change (get_or (Evaluator.normalized_scores m) "average_speed" 0)
      with (min2 (max2 (get_or m "average_speed" 0) 0) 60 / 60 * 100).
    unfold get_or. rewrite H. reflexivity.
  - intros Hd He Ht Hs. rewrite composite_score_unfold.
    unfold get_or. rewrite Hd, He, Ht, Hs. reflexivity.
Qed.

Lemma composite_score_missing_defaults_witness :
  Evaluator.calculate_composite_score [("total_travel_time", 2)] None == 25.
Proof.
  apply (composite_score_missing_defaults [("total_travel_time", 2)]);
    reflexivity.
Defined.

(** ** Dictionaries *)

Section DictFacts.

Context {V : Type}.

Lemma get_set_same (d : dict V) (k : string) (v : V) :
  get (set d k v) k = Some v.
Proof.
  induction d as [|[k' v'] d IH]; simpl.
  - now rewrite String.eqb_refl.
  - destruct (String.eqb k k') eqn:E; simpl; rewrite E; [reflexivity | exact IH].
Qed.

Lemma get_set_other (d : dict V) (k k' : string) (v : V) :
  k' <> k -> get (set d k v) k' = get d k'.
Proof.
  intro Hne. apply String.eqb_neq in Hne.
  induction d as [|[k0 v0] d IH]; simpl.
  - now rewrite Hne.
  - destruct (String.eqb k k0) eqn:E; simpl.
    + apply String.eqb_eq in E. subst k0. now rewrite Hne.
    + now rewrite IH.
Qed.

Lemma in_keys_get (d : dict V) (k : string) :
  In k (keys d) -> exists v, get d k = Some v.
Proof.
  induction d as [|[k' v'] d IH]; simpl; [contradiction|].
  intros [->|Hin].
  - rewrite String.eqb_refl. now exists v'.
  - destruct (String.eqb k k'); [now exists v' | now apply IH].
Qed.

Lemma get_in_keys (d : dict V) (k : string) (v : V) :
  get d k = Some v -> In k (keys d).
Proof.
  induction d as [|[k' v'] d IH]; simpl; [discriminate|].
  destruct (String.eqb k k') eqn:E.
  - apply String.eqb_eq in E. now left.
  - intro H. right. now apply IH.
Qed.

Lemma set_fresh (d : dict V) (k : string) (v : V) :
  ~ In k (keys d) -> set d k v = (d ++ [(k, v)])%list.
Proof.
  induction d as [|[k' v'] d IH]; simpl; [reflexivity|].
  intro Hnin. destruct (String.eqb k k') eqn:E.
  - apply String.eqb_eq in E. exfalso. apply Hnin. now left.
  - f_equal. apply IH. intro Hin. apply Hnin. now right.
Qed.

End DictFacts.

(** ** Comparing a policy with a baseline *)

Section ComparePolicies.

Import Evaluator.

Lemma sub_self_lt_0 (v : Q) : ltb (v - v) 0 = false /\ ltb 0 (v - v) = false.
Proof.
  assert (H : v - v == 0) by ring.
  split; apply ltb_ge; rewrite H; apply Qle_refl.
Qed.

Lemma is_improvement_no_change (metric_key : string) (v : Q) :
  _is_improvement metric_key (v - v) = false.
Proof.
  unfold _is_improvement.
  destruct (sub_self_lt_0 v) as [-> ->].
  destruct (mem metric_key _); [reflexivity|].
  destruct (mem metric_key _); reflexivity.
Qed.

(** The loop body never fails when both dicts have the key. *)
Lemma compare_metric_ok (b p : metrics) (k : string) (bv pv : Q) :
  get b k = Some bv -> get p k = Some pv ->
  exists e, compare_metric b p k = Ok e /\
            baseline e = bv /\ policy e = pv /\
            absolute_change e = pv - bv /\
            is_improvement e = _is_improvement k (pv - bv) /\
            (bv == 0 -> pv == 0 -> percent_change e == 0) /\
            (bv == 0 -> ~ pv == 0 -> percent_change e == 100) /\
            (~ bv == 0 -> percent_change e == (pv - bv) / bv * 100).
Proof.
  intros Hb Hp. unfold compare_metric, item. rewrite Hb, Hp. simpl.
  unfold div, eqb.
  destruct (Qeq_bool bv 0) eqn:Eb; simpl.
  - apply Qeq_bool_eq in Eb.
    eexists. split; [reflexivity|]. simpl.
    repeat split; try reflexivity.
    + intros _ Hpv. apply Qeq_bool_iff in Hpv. now rewrite Hpv.
    + intros _ Hpv.
      destruct (Qeq_bool pv 0) eqn:Ep; [|reflexivity].
      apply Qeq_bool_eq in Ep. contradiction.
    + intro Hne. contradiction.
  - eexists. split; [reflexivity|]. simpl.
    apply Qeq_bool_neq in Eb.
    repeat split; try reflexivity; intro H0; contradiction.
Qed.

Lemma compare_loop (b p : metrics) (ks : list string) :
  (forall k, In k ks -> exists e, compare_metric b p k = Ok e) ->
  forall cmp0, exists cmp,
    fold_left (compare_step b p) ks (Ok cmp0) = Ok cmp /\
    (forall k, In k ks ->
       exists e, compare_metric b p k = Ok e /\ get cmp k = Some e) /\
    (forall k, ~ In k ks -> get cmp k = get cmp0 k).
Proof.
  induction ks as [|k ks IH]; intros Hok cmp0.
  - exists cmp0. simpl. split; [reflexivity|].
    split; [intros k [] | reflexivity].
  - destruct (Hok k (or_introl eq_refl)) as [e He].
    destruct (IH (fun k' Hin => Hok k' (or_intror Hin)) (set cmp0 k e))
      as [cmp [Hfold [Hin Hout]]].
    assert (Hstep : compare_step b p (Ok cmp0) k = Ok (set cmp0 k e))
      by (unfold compare_step; simpl; rewrite He; reflexivity).
    exists cmp. cbn [fold_left]. rewrite Hstep.
    split; [exact Hfold|]. split.
    + intros k' Hk'.
      destruct (in_dec string_dec k' ks) as [Hks|Hks]; [now apply Hin|].
      destruct Hk' as [<-|Hk']; [|contradiction].
      exists e. split; [exact He|].
      rewrite (Hout k Hks). apply get_set_same.
    + intros k' Hk'. rewrite Hout by (intro; apply Hk'; now right).
      apply get_set_other. intro E. apply Hk'. now left.
Qed.

Lemma compare_policies_loop (b p : metrics) :
  compare_policies b p = fold_left (compare_step b p) (keys b) (Ok []).
Proof. reflexivity. Qed.

End ComparePolicies.

(** ** Selecting the best policy *)

Section BestPolicy.

Import Evaluator.

Lemma fold_pick_in {A} (pick : A -> A -> bool) (rest : list A) (first : A) :
  In (fold_left (fun best x => if pick best x then x else best) rest first)
     (first :: rest).
Proof.
  revert first. induction rest as [|x rest IH]; intro first; simpl.
  - now left.
  - destruct (IH (if pick first x then x else first)) as [H|H].
    + destruct (pick first x); [right; left | left]; exact H.
    + right. right. exact H.
Qed.

Lemma argmin_in {V} (lt : V -> V -> bool) (first : string * V)
    (rest : list (string * V)) :
  In (argmin lt first rest) (keys (first :: rest)).
Proof.
  unfold argmin, keys. apply in_map.
  apply (fold_pick_in (fun best x => lt (snd x) (snd best))).
Qed.

Lemma argmax_in {V} (lt : V -> V -> bool) (first : string * V)
    (rest : list (string * V)) :
  In (argmax lt first rest) (keys (first :: rest)).
Proof.
  unfold argmax, keys. apply in_map.
  apply (fold_pick_in (fun best x => lt (snd best) (snd x))).
Qed.

Lemma keys_map_relabel {V W} (f : V -> W) (d : dict V) :
  keys (map (fun nm => (fst nm, f (snd nm))) d) = keys d.
Proof.
  unfold keys. rewrite map_map. reflexivity.
Qed.

(** On a non-empty dict the function returns one of its keys. *)
Lemma identify_best_policy_returns_key (rd : dict metrics) (objective : string) :
  rd <> [] ->
  exists name, In name (keys rd) /\
               identify_best_policy rd objective = Ok (Some name).
Proof.
  destruct rd as [|first rest]; [congruence|]. intros _.
  unfold identify_best_policy.
  destruct (String.eqb objective "composite").
  - eexists. split; [|reflexivity].
    rewrite <- (keys_map_relabel (fun m => calculate_composite_score m None)
                                 (first :: rest)).
    apply argmax_in.
  - set (metric_key := get_or metric_map objective "average_delay").
    set (lower := mem metric_key _).
    destruct lower eqn:E; (eexists; split; [|reflexivity]).
    + rewrite <- (keys_map_relabel (fun m => objective_value m metric_key true)
                                   (first :: rest)).
      apply argmin_in.
    + rewrite <- (keys_map_relabel (fun m => objective_value m metric_key false)
                                   (first :: rest)).
      apply argmax_in.
Qed.

(** An objective outside the defined set is ranked as ["delay"]. *)
Lemma identify_best_policy_unknown_objective (rd : dict metrics)
    (objective : string) :
  mem objective defined_objectives = false ->
  identify_best_policy rd objective = identify_best_policy rd "delay".
Proof.
  unfold mem, defined_objectives. simpl. intro H.
  repeat (apply orb_false_iff in H; destruct H as [? H]).
  unfold identify_best_policy. destruct rd as [|first rest]; [reflexivity|].
  unfold get_or, metric_map. simpl.
  repeat match goal with
         | E : String.eqb objective _ = false |- _ => rewrite E; clear E
         end.
  reflexivity.
Qed.

End BestPolicy.

(** C2 fails on the code: an objective outside the defined set, and a policy
    that lacks the metric the objective ranks by, both give a policy name and
    no error. *)
Lemma identify_best_policy_silent_defaults :
  Examples.partial_metrics <> [] /\
  malformed_request Examples.partial_metrics "fastest" = true /\
  Evaluator.identify_best_policy Examples.partial_metrics "fastest"
  = Ok (Some "B") /\
  malformed_request Examples.partial_metrics "throughput" = true /\
  Evaluator.identify_best_policy Examples.partial_metrics "throughput"
  = Ok (Some "B") /\
  ~ (exists e, Evaluator.identify_best_policy Examples.partial_metrics "fastest"
               = Raise e) /\
  ~ (exists e, Evaluator.identify_best_policy Examples.partial_metrics "throughput"
               = Raise e).
Proof.
  repeat split; try reflexivity; try discriminate.
  - intros [e H]. discriminate H.
  - intros [e H]. discriminate H.
Qed.

(** C2, amended.  [identify_best_policy] returns null exactly when the input
    mapping is empty.  On a non-empty mapping it never fails: it returns the
    name of one of the policies; an objective outside the defined set is
    ranked as "delay"; a policy that lacks the metric ranked by is entered
    with the value +infinity when lower is better and 0 when higher is
    better. *)
Theorem identify_best_policy_total :
  forall (rd : dict metrics) (objective : string),
    (Evaluator.identify_best_policy rd objective = Ok None <-> rd = []) /\
    (rd <> [] ->
       exists name, In name (keys rd) /\
                    Evaluator.identify_best_policy rd objective = Ok (Some name)) /\
    (mem objective defined_objectives = false ->
       Evaluator.identify_best_policy rd objective
       = Evaluator.identify_best_policy rd "delay") /\
    (forall (m : metrics) (metric_key : string),
       get m metric_key = None ->
       Evaluator.objective_value m metric_key true = Inf /\
       Evaluator.objective_value m metric_key false = Fin 0).
Proof.
  intros rd objective. split; [|split; [|split]].
  - split.
    + intro H. destruct rd as [|first rest]; [reflexivity|].
      destruct (identify_best_policy_returns_key (first :: rest) objective)
        as [name [_ Hname]]; [discriminate|].
      rewrite Hname in H. discriminate H.
    + intros ->. reflexivity.
  - apply identify_best_policy_returns_key.
  - apply identify_best_policy_unknown_objective.
  - intros m metric_key H. unfold Evaluator.objective_value.
    rewrite H. split; reflexivity.
Qed.

Lemma identify_best_policy_total_witness :
  exists name,
    In name (keys Examples.partial_metrics) /\
    Evaluator.identify_best_policy Examples.partial_metrics "fastest"
    = Ok (Some name).
Proof.
  apply (identify_best_policy_total Examples.partial_metrics "fastest").
  discriminate.
Defined.

(** ** ANOVA *)

Section Anova.

Import Analytics.

Lemma mapM_ok {A B} (f : A -> result B) (xs : list A) :
  (forall x, In x xs -> exists y, f x = Ok y) ->
  exists ys, mapM f xs = Ok ys /\ List.length ys = List.length xs.
Proof.
  induction xs as [|x xs IH]; intro H.
  - now exists [].
  - destruct (H x (or_introl eq_refl)) as [y Hy].
    destruct IH as [ys [Hys Hlen]]; [intros x' Hx'; apply H; now right|].
    exists (y :: ys). simpl. rewrite Hy, Hys. simpl. now rewrite Hlen.
Qed.

Lemma has_metrics_item (data : scenario_data) :
  has_metrics data = true -> exists m, item data "metrics" = Ok m.
Proof.
  unfold has_metrics, item.
  destruct (get data "metrics") as [m|]; [now exists m | discriminate].
Qed.

Lemma collect_policy_data_ok (results : dict (dict scenario_data))
    (metric : string) :
  all_have_metrics results = true ->
  exists policy_data,
    collect_policy_data results metric = Ok policy_data /\
    List.length policy_data = List.length results.
Proof.
  intro Hall. unfold all_have_metrics in Hall.
  rewrite forallb_forall in Hall.
  apply mapM_ok. intros ps Hps.
  specialize (Hall ps Hps). rewrite forallb_forall in Hall.
  destruct (mapM_ok (fun data => m <- item data "metrics" ;; Ok (get_or m metric 0))
                    (values (snd ps))) as [ys [Hys _]].
  - intros data Hdata. specialize (Hall data Hdata).
    destruct (has_metrics_item data Hall) as [m Hm].
    exists (get_or m metric 0).
    unfold scenario_data, metrics in *. now rewrite Hm.
  - now exists ys.
Qed.

Lemma perform_anova_loop (f_oneway : list (list Q) -> float * float)
    (results : dict (dict scenario_data)) :
  perform_anova f_oneway results
  = fold_left (anova_step f_oneway results) metrics_list (Ok []).
Proof. reflexivity. Qed.

(** With fewer than two groups an iteration leaves the result unchanged. *)
Lemma anova_step_too_few (f_oneway : list (list Q) -> float * float)
    (results : dict (dict scenario_data)) (acc : dict anova_entry)
    (metric : string) :
  (List.length results < 2)%nat ->
  all_have_metrics results = true ->
  anova_step f_oneway results (Ok acc) metric = Ok acc.
Proof.
  intros Hlen Hall. unfold anova_step. simpl.
  destruct (collect_policy_data_ok results metric Hall) as [pd [-> Hpd]].
  simpl.
  assert (E : (1 <? List.length pd)%nat = false)
    by (apply Nat.ltb_ge; lia).
  now rewrite E.
Qed.

End Anova.

(** C3 fails on the code: with no group, or with one group, [perform_anova]
    raises nothing and returns the empty mapping, in which no test appears. *)
Lemma perform_anova_single_group_silent :
  (List.length Examples.one_group < 2)%nat /\
  Analytics.perform_anova (f_oneway_returning 1 1) [] = Ok [] /\
  Analytics.perform_anova (f_oneway_returning 1 1) Examples.one_group = Ok [] /\
  ~ (exists e, Analytics.perform_anova (f_oneway_returning 1 1) Examples.one_group
               = Raise e).
Proof.
  split; [simpl; lia|].
  split; [reflexivity|].
  split; [reflexivity|].
  intros [e H]. discriminate H.
Qed.

(** C3, amended.  Given fewer than 2 policy groups whose simulation records
    all carry a 'metrics' entry, [perform_anova] does not fail and reports no
    error: the guard skips the test for every metric and the empty mapping is
    returned, whatever [f_oneway] would compute. *)
Theorem perform_anova_too_few_groups :
  forall (f_oneway : list (list Q) -> float * float)
         (results : dict (dict Analytics.scenario_data)),
    (List.length results < 2)%nat ->
    all_have_metrics results = true ->
    Analytics.perform_anova f_oneway results = Ok [].
Proof.
  intros f_oneway results Hlen Hall.
  rewrite perform_anova_loop.
  generalize (@nil (string * Analytics.anova_entry)) as acc.
  induction Analytics.metrics_list as [|metric rest IH]; intro acc.
  - reflexivity.
  - cbn [fold_left]. rewrite anova_step_too_few by assumption. apply IH.
Qed.

Lemma perform_anova_too_few_groups_witness :
  Analytics.perform_anova (f_oneway_returning 1 1) Examples.one_group = Ok [].
Proof.
  apply perform_anova_too_few_groups.
  - simpl. lia.
  - reflexivity.
Defined.

(** The threshold of the significance flag.  The flag is computed as
    [p_value < 1 - confidence_level] for the p-value that [f_oneway]
    returns, and the interpretation compares the same p-value with the
    literals.  In binary64 [1 - 0.95] is 0.050000000000000044, the sixth
    double above 0.05. *)
Lemma significance_threshold :
  (forall (f_oneway : list (list Q) -> float * float)
          (policy_data : list (list Q)),
      Analytics.significant (Analytics.anova_of f_oneway policy_data)
      = (snd (f_oneway policy_data) <? 1 - Analytics.confidence_level)%float /\
      Analytics.interpretation (Analytics.anova_of f_oneway policy_data)
      = Analytics._interpret_anova (snd (f_oneway policy_data))) /\
  (1 - Analytics.confidence_level =? 0.05)%float = false /\
  (0.05 <? 1 - Analytics.confidence_level)%float = true /\
  next_up (next_up (next_up (next_up (next_up (next_up 0.05%float)))))
  = (1 - Analytics.confidence_level)%float.
Proof.
  split; [|repeat split; reflexivity].
  intros f_oneway policy_data. unfold Analytics.anova_of.
  destruct (f_oneway policy_data) as [f_stat p]. split; reflexivity.
Qed.

(** ** Ranking by dominance count *)

Section Sorting.

Lemma insert_by_perm (x : string * nat) (l : list (string * nat)) :
  Permutation (insert_by snd x l) (x :: l).
Proof.
  induction l as [|y l IH]; simpl.
  - apply Permutation_refl.
  - destruct (snd x <=? snd y)%nat.
    + apply Permutation_refl.
    + eapply perm_trans; [apply perm_skip; exact IH | apply perm_swap].
Qed.

Lemma sorted_by_perm (l : list (string * nat)) :
  Permutation (sorted_by snd l) l.
Proof.
  induction l as [|x l IH]; simpl.
  - apply perm_nil.
  - eapply perm_trans; [apply insert_by_perm | apply perm_skip; exact IH].
Qed.

Lemma insert_by_ascending (x : string * nat) (l : list (string * nat)) :
  ascending l -> ascending (insert_by snd x l).
Proof.
  induction l as [|y l IH]; simpl.
  - intros _. split; [intros y []| exact I].
  - intros [Hy Hl].
    destruct (snd x <=? snd y)%nat eqn:E.
    + apply Nat.leb_le in E. simpl. split; [|split; assumption].
      intros z [<-|Hz]; [exact E|].
      specialize (Hy z Hz). lia.
    + apply Nat.leb_gt in E. simpl. split; [|now apply IH].
      intros z Hz.
      apply (Permutation_in _ (insert_by_perm x l)) in Hz.
      destruct Hz as [<-|Hz]; [lia | now apply Hy].
Qed.

Lemma sorted_by_ascending (l : list (string * nat)) :
  ascending (sorted_by snd l).
Proof.
  induction l as [|x l IH]; simpl; [exact I|].
  now apply insert_by_ascending.
Qed.

Lemma ascending_app (l1 l2 : list (string * nat)) :
  ascending (l1 ++ l2) ->
  ascending l2 /\
  forall x y, In x l1 -> In y l2 -> (snd x <= snd y)%nat.
Proof.
  induction l1 as [|a l1 IH]; simpl.
  - intro H. split; [exact H | intros x y []].
  - intros [Ha H]. destruct (IH H) as [H2 Hcross].
    split; [exact H2|].
    intros x y [<-|Hx] Hy.
    + apply Ha. apply in_or_app. now right.
    + now apply Hcross.
Qed.

Lemma filter_none {A} (f : A -> bool) (l : list A) :
  (forall x, In x l -> f x = false) -> filter f l = [].
Proof.
  induction l as [|x l IH]; simpl; intro H; [reflexivity|].
  rewrite (H x (or_introl eq_refl)). apply IH.
  intros y Hy. apply H. now right.
Qed.

Lemma filter_all {A} (f : A -> bool) (l : list A) :
  (forall x, In x l -> f x = true) -> filter f l = l.
Proof.
  induction l as [|x l IH]; simpl; intro H; [reflexivity|].
  rewrite (H x (or_introl eq_refl)). f_equal. apply IH.
  intros y Hy. apply H. now right.
Qed.

Lemma filter_length_perm {A} (f : A -> bool) (l l' : list A) :
  Permutation l l' ->
  List.length (filter f l) = List.length (filter f l').
Proof.
  induction 1 as [|x l l' _ IH|x y l|l l' l'' _ IH1 _ IH2]; simpl.
  - reflexivity.
  - destruct (f x); simpl; now rewrite IH.
  - destruct (f x), (f y); reflexivity.
  - now rewrite IH1.
Qed.

Lemma strictly_below_perm (l l' : dict nat) (c : nat) :
  Permutation l l' -> strictly_below l c = strictly_below l' c.
Proof. apply filter_length_perm. Qed.

End Sorting.

Section Ranking.

Import Optimizer.

Lemma keys_increment (d : dict nat) (a : string) :
  keys (increment d a) = keys d.
Proof.
  induction d as [|[k c] d IH]; simpl; [reflexivity|].
  destruct (String.eqb a k); simpl; [reflexivity | now rewrite IH].
Qed.

Lemma count_dominators_keys (names : list string) (om : dict (list Q))
    (dc : dict nat) :
  keys (count_dominators names om dc) = keys dc.
Proof.
  unfold count_dominators.
  assert (Inner : forall a l d,
    keys (fold_left
            (fun dc name_b =>
               if negb (String.eqb a name_b)
                  && _dominates (get_or om name_b []) (get_or om a [])
               then increment dc a else dc) l d) = keys d).
  { intros a l. induction l as [|b l IH]; intro d; simpl; [reflexivity|].
    rewrite IH. destruct (_ && _); [apply keys_increment | reflexivity]. }
  generalize names at 1 as bs.
  intro bs. revert dc.
  induction names as [|a names IH]; intro dc; simpl; [reflexivity|].
  rewrite IH. apply Inner.
Qed.

Lemma dominance_count_keys (pm : dict metrics) :
  keys (dominance_count pm) = keys pm.
Proof.
  unfold dominance_count. rewrite count_dominators_keys.
  unfold keys. rewrite map_map. simpl. apply map_id.
Qed.

Lemma get_in {V} (d : dict V) (k : string) (v : V) :
  get d k = Some v -> In (k, v) d.
Proof.
  induction d as [|[k' v'] d IH]; simpl; [discriminate|].
  destruct (String.eqb k k') eqn:E.
  - apply String.eqb_eq in E. subst k'. intro H. left. congruence.
  - intro H. right. now apply IH.
Qed.

Lemma fold_set_untouched {V} (g : string * V -> nat) (l : list (string * V))
    (r : dict nat) (p : string) :
  ~ In p (keys l) ->
  get (fold_left (fun r x => set r (fst x) (g x)) l r) p = get r p.
Proof.
  revert r. induction l as [|x l IH]; intros r Hnin; simpl; [reflexivity|].
  rewrite IH by (intro H; apply Hnin; now right).
  apply get_set_other. intro E. apply Hnin. now left.
Qed.

Lemma fold_set_get {V} (g : string * V -> nat) (l : list (string * V))
    (r : dict nat) (x : string * V) :
  NoDup (keys l) -> In x l ->
  get (fold_left (fun r x => set r (fst x) (g x)) l r) (fst x) = Some (g x).
Proof.
  revert r. induction l as [|y l IH]; intros r Hnd Hin; [contradiction|].
  simpl in Hnd. apply NoDup_cons_iff in Hnd. destruct Hnd as [Hy Hnd].
  simpl. destruct Hin as [->|Hin].
  - rewrite fold_set_untouched by exact Hy. apply get_set_same.
  - now apply IH.
Qed.

(** The loop that assigns the ranks gives every item one plus the number
    of items with a strictly smaller count. *)
Lemma assign_ranks_closed_form (all : list (string * nat)) :
  ascending all ->
  forall rest pre previous current_rank ranks,
    all = (pre ++ rest)%list ->
    (pre = [] /\ current_rank = 1%nat) \/
    ((forall y, In y pre -> (snd y <= previous)%nat) /\
     (exists y, In y pre /\ snd y = previous) /\
     current_rank = (1 + strictly_below all previous)%nat) ->
    assign_ranks rest (List.length pre) previous current_rank ranks
    = fold_left (fun r x => set r (fst x) (1 + strictly_below all (snd x))%nat)
                rest ranks.
Proof.
  intros Hasc rest.
  induction rest as [|[p c] rest IH]; intros pre previous cur ranks Hall Hinv;
    [reflexivity|].
  assert (Hsplit := Hasc). rewrite Hall in Hsplit.
  apply ascending_app in Hsplit. destruct Hsplit as [[Hrest _] Hcross].
  assert (Hpre : forall y, In y pre -> (snd y <= c)%nat).
  { intros y Hy. apply (Hcross y (p, c) Hy). now left. }
  assert (Hbelow : strictly_below all c
                   = List.length (filter (fun x => (snd x <? c)%nat) pre)).
  { unfold strictly_below. rewrite Hall, filter_app, length_app.
    rewrite (filter_none _ ((p, c) :: rest)); [simpl; lia|].
    intros y [<-|Hy]; apply Nat.ltb_ge; [simpl; lia | now apply Hrest]. }
  assert (Hcur :
    (if (0 <? List.length pre)%nat && (previous <? c)%nat
     then (List.length pre + 1)%nat else cur)
    = (1 + strictly_below all c)%nat).
  { destruct Hinv as [[-> ->]|[Hle [[y [Hy Hprev]] Hrank]]].
    - simpl. rewrite Hbelow. reflexivity.
    - destruct (previous <? c)%nat eqn:E.
      + apply Nat.ltb_lt in E.
        assert (Hlen : (0 <? List.length pre)%nat = true).
        { apply Nat.ltb_lt. destruct pre; [contradiction | simpl; lia]. }
        rewrite Hlen. simpl. rewrite Hbelow, filter_all; [lia|].
        intros z Hz. apply Nat.ltb_lt. specialize (Hle z Hz). lia.
      + apply Nat.ltb_ge in E. rewrite andb_false_r.
        specialize (Hpre y Hy).
        assert (Heq : previous = c) by lia. rewrite <- Heq. exact Hrank. }
  cbn [assign_ranks]. rewrite Hcur.
  replace (S (List.length pre)) with (List.length (pre ++ [(p, c)]))
    by (rewrite length_app; simpl; lia).
  rewrite (IH (pre ++ [(p, c)])%list c (1 + strictly_below all c)%nat).
  - reflexivity.
  - rewrite <- app_assoc. exact Hall.
  - right. split; [|split].
    + intros y Hy. apply in_app_or in Hy.
      destruct Hy as [Hy|[<-|[]]]; [now apply Hpre | simpl; lia].
    + exists (p, c). split; [apply in_or_app; right; now left | reflexivity].
    + reflexivity.
Qed.

Lemma rank_policies_closed_form (pm : dict metrics) :
  rank_policies_by_dominance pm
  = fold_left
      (fun r x =>
         set r (fst x)
             (1 + strictly_below (sorted_by snd (dominance_count pm)) (snd x))%nat)
      (sorted_by snd (dominance_count pm)) [].
Proof.
  change (rank_policies_by_dominance pm)
    with (assign_ranks (sorted_by snd (dominance_count pm))
                       (List.length (@nil (string * nat))) 0 1 []).
  apply assign_ranks_closed_form.
  - apply sorted_by_ascending.
  - reflexivity.
  - left. now split.
Qed.

(** The rank of a policy in terms of the dominance counts. *)
Lemma rank_of_policy (pm : dict metrics) (p : string) (c : nat) :
  wf pm ->
  get (dominance_count pm) p = Some c ->
  get (rank_policies_by_dominance pm) p
  = Some (1 + strictly_below (dominance_count pm) c)%nat.
Proof.
  intros Hwf Hget.
  pose proof (sorted_by_perm (dominance_count pm)) as Hperm.
  rewrite rank_policies_closed_form.
  rewrite <- (strictly_below_perm _ _ c Hperm).
  apply (fold_set_get
           (fun x => (1 + strictly_below (sorted_by snd (dominance_count pm))
                                         (snd x))%nat)
           (sorted_by snd (dominance_count pm)) [] (p, c)).
  - apply (Permutation_NoDup (l := keys (dominance_count pm))).
    + unfold keys. apply Permutation_map. apply Permutation_sym. exact Hperm.
    + rewrite dominance_count_keys. exact Hwf.
  - apply (Permutation_in _ (Permutation_sym Hperm)). now apply get_in.
Qed.

End Ranking.

Section CountingDominators.

Import Optimizer.

Lemma keys_map_bump (a : string) (n : nat) (d : dict nat) :
  keys (map (bump a n) d) = keys d.
Proof.
  unfold keys. rewrite map_map. apply map_ext.
  intros [k c]. unfold bump. simpl. now destruct (String.eqb a k).
Qed.

Lemma map_bump_fresh (a : string) (n : nat) (d : dict nat) :
  ~ In a (keys d) -> map (bump a n) d = d.
Proof.
  induction d as [|[k c] d IH]; simpl; intro Hnin; [reflexivity|].
  unfold bump at 1. simpl.
  destruct (String.eqb a k) eqn:E.
  - apply String.eqb_eq in E. exfalso. apply Hnin. now left.
  - f_equal. apply IH. intro H. apply Hnin. now right.
Qed.

Lemma map_bump_zero (a : string) (d : dict nat) : map (bump a 0) d = d.
Proof.
  rewrite <- (map_id d) at 2. apply map_ext.
  intros [k c]. unfold bump. simpl.
  destruct (String.eqb a k); [now rewrite Nat.add_0_r | reflexivity].
Qed.

Lemma map_bump_bump (a : string) (m n : nat) (d : dict nat) :
  map (bump a n) (map (bump a m) d) = map (bump a (m + n)) d.
Proof.
  rewrite map_map. apply map_ext.
  intros [k c]. unfold bump. simpl.
  destruct (String.eqb a k) eqn:E; simpl; rewrite E; [|reflexivity].
  now rewrite Nat.add_assoc.
Qed.

Lemma increment_bump (d : dict nat) (a : string) :
  wf d -> increment d a = map (bump a 1) d.
Proof.
  unfold wf.
  induction d as [|[k c] d IH]; simpl; intro Hnd; [reflexivity|].
  apply NoDup_cons_iff in Hnd. destruct Hnd as [Hk Hnd].
  unfold bump at 1. simpl.
  destruct (String.eqb a k) eqn:E.
  - apply String.eqb_eq in E. subst k.
    rewrite (map_bump_fresh a 1 d Hk). now rewrite Nat.add_1_r.
  - now rewrite IH.
Qed.

Lemma iter_increment_bump (d : dict nat) (a : string) (n : nat) :
  wf d -> Nat.iter n (fun dc => increment dc a) d = map (bump a n) d.
Proof.
  intro Hwf. induction n as [|n IH]; simpl.
  - now rewrite map_bump_zero.
  - rewrite IH. rewrite increment_bump.
    + rewrite map_bump_bump. now rewrite Nat.add_1_r.
    + unfold wf. now rewrite keys_map_bump.
Qed.

Lemma count_pass_iter (names : list string) (om : dict (list Q))
    (a : string) (dc : dict nat) :
  count_pass names om a dc
  = Nat.iter (List.length (filter (dominated_by om a) names))
             (fun dc => increment dc a) dc.
Proof.
  unfold count_pass. revert dc.
  induction names as [|b names IH]; intro dc; simpl; [reflexivity|].
  rewrite IH. destruct (dominated_by om a b); [|reflexivity].
  simpl List.length. now rewrite Nat.iter_succ_r.
Qed.

Lemma count_pass_bump (names : list string) (om : dict (list Q))
    (a : string) (dc : dict nat) :
  wf dc ->
  count_pass names om a dc
  = map (bump a (List.length (filter (dominated_by om a) names))) dc.
Proof.
  intro Hwf. rewrite count_pass_iter. now apply iter_increment_bump.
Qed.

Lemma mem_In (k : string) (xs : list string) : mem k xs = true <-> In k xs.
Proof.
  unfold mem. rewrite existsb_exists. split.
  - intros [x [Hx E]]. apply String.eqb_eq in E. now subst x.
  - intro H. exists k. split; [exact H | apply String.eqb_refl].
Qed.

Lemma count_dominators_passes (names : list string) (om : dict (list Q))
    (dc : dict nat) :
  count_dominators names om dc
  = fold_left (fun dc a => count_pass names om a dc) names dc.
Proof. reflexivity. Qed.

(** The outer loop over a duplicate-free list [l] of names. *)
Lemma count_passes_closed_form (names : list string) (om : dict (list Q))
    (l : list string) :
  NoDup l ->
  forall dc, wf dc ->
    fold_left (fun dc a => count_pass names om a dc) l dc
    = map (fun kc =>
             (fst kc,
              (snd kc
               + if mem (fst kc) l
                 then List.length (filter (dominated_by om (fst kc)) names)
                 else 0)%nat))
          dc.
Proof.
  induction l as [|a l IH]; intros Hnd dc Hwf.
  - simpl. rewrite <- (map_id dc) at 1. apply map_ext.
    intros [k c]. simpl. now rewrite Nat.add_0_r.
  - apply NoDup_cons_iff in Hnd. destruct Hnd as [Ha Hnd].
    cbn [fold_left]. rewrite count_pass_bump by exact Hwf.
    rewrite IH; [|exact Hnd|unfold wf; now rewrite keys_map_bump].
    rewrite map_map. apply map_ext.
    intros [k c]. unfold bump. cbn [fst snd].
    change (mem k (a :: l)) with (String.eqb k a || mem k l).
    rewrite (String.eqb_sym k a).
    destruct (String.eqb a k) eqn:E; cbn [fst snd orb].
    + apply String.eqb_eq in E. subst k.
      assert (Hmem : mem a l = false).
      { destruct (mem a l) eqn:M; [|reflexivity].
        apply mem_In in M. contradiction. }
      rewrite Hmem. now rewrite Nat.add_0_r.
    + reflexivity.
Qed.

Lemma count_dominators_closed_form (names : list string) (om : dict (list Q)) :
  NoDup names ->
  count_dominators names om (map (fun name => (name, 0%nat)) names)
  = map (fun name =>
           (name, List.length (filter (dominated_by om name) names)))
        names.
Proof.
  intro Hnd. rewrite count_dominators_passes.
  rewrite count_passes_closed_form.
  - rewrite map_map. apply map_ext_in.
    intros k Hk. cbn [fst snd].
    apply mem_In in Hk. now rewrite Hk.
  - exact Hnd.
  - unfold wf, keys. rewrite map_map. simpl. now rewrite map_id.
Qed.

Lemma get_map_values {V W} (f : V -> W) (d : dict V) (k : string) :
  get (map (fun nm => (fst nm, f (snd nm))) d) k = option_map f (get d k).
Proof.
  induction d as [|[k' v] d IH]; simpl; [reflexivity|].
  destruct (String.eqb k k'); [reflexivity | exact IH].
Qed.

Lemma get_of_in {V} (d : dict V) (k : string) (v : V) :
  wf d -> In (k, v) d -> get d k = Some v.
Proof.
  unfold wf.
  induction d as [|[k' v'] d IH]; simpl; intros Hnd Hin; [contradiction|].
  apply NoDup_cons_iff in Hnd. destruct Hnd as [Hk Hnd].
  destruct Hin as [E|Hin].
  - injection E as -> ->. now rewrite String.eqb_refl.
  - destruct (String.eqb k k') eqn:E.
    + apply String.eqb_eq in E. subst k'. exfalso. apply Hk.
      apply (in_map fst) in Hin. exact Hin.
    + now apply IH.
Qed.

Lemma fold_set_fresh {V W} (f : V -> W) (pm : dict V) :
  forall acc : dict W,
    NoDup (keys acc ++ keys pm) ->
    fold_left (fun om nm => set om (fst nm) (f (snd nm))) pm acc
    = (acc ++ map (fun nm => (fst nm, f (snd nm))) pm)%list.
Proof.
  induction pm as [|[k v] pm IH]; intros acc Hnd; simpl.
  - now rewrite app_nil_r.
  - simpl in Hnd.
    assert (Hk : ~ In k (keys acc)).
    { apply NoDup_remove_2 in Hnd. intro H. apply Hnd.
      apply in_or_app. now left. }
    rewrite (set_fresh acc k (f v) Hk).
    rewrite IH.
    + now rewrite <- app_assoc.
    + unfold keys in *. rewrite map_app. simpl.
      now rewrite <- app_assoc.
Qed.

Lemma objective_rows_closed_form (pm : dict metrics) :
  wf pm ->
  objective_rows pm = map (fun nm => (fst nm, objective_values (snd nm))) pm.
Proof.
  intro Hwf. unfold objective_rows.
  now rewrite (fold_set_fresh objective_values pm []).
Qed.

(** The counting loops store, for every policy, the number of other
    policies that dominate it. *)
Lemma dominance_count_closed_form (pm : dict metrics) :
  wf pm ->
  dominance_count pm = map (fun nm => (fst nm, dominators pm (fst nm))) pm.
Proof.
  intro Hwf. unfold dominance_count.
  rewrite count_dominators_closed_form by exact Hwf.
  unfold keys at 2. rewrite map_map. apply map_ext_in.
  intros [a ma] Ha. cbn [fst]. f_equal.
  unfold dominators, keys.
  rewrite filter_map_swap, length_map.
  f_equal. apply filter_ext_in.
  intros [b mb] Hb. cbn [fst snd]. unfold dominated_by. f_equal.
  rewrite (objective_rows_closed_form pm Hwf).
  unfold get_or. rewrite !get_map_values.
  rewrite (get_of_in pm a ma Hwf Ha), (get_of_in pm b mb Hwf Hb).
  reflexivity.
Qed.

Lemma strictly_below_dominators (pm : dict metrics) (c : nat) :
  strictly_below (map (fun nm => (fst nm, dominators pm (fst nm))) pm) c
  = List.length (filter (fun nm => (dominators pm (fst nm) <? c)%nat) pm).
Proof.
  unfold strictly_below.
  rewrite (filter_map_swap (fun x : string * nat => (snd x <? c)%nat)
                           (fun nm : string * metrics =>
                              (fst nm, dominators pm (fst nm)))).
  now rewrite length_map.
Qed.

Lemma dominance_count_get (pm : dict metrics) (p : string) :
  wf pm -> In p (keys pm) ->
  get (dominance_count pm) p = Some (dominators pm p).
Proof.
  intros Hwf Hp.
  rewrite (dominance_count_closed_form pm Hwf).
  destruct (in_keys_get pm p Hp) as [m Hm].
  apply get_in in Hm.
  apply (get_of_in (map (fun nm => (fst nm, dominators pm (fst nm))) pm)
                   p (dominators pm p)).
  - unfold wf, keys. rewrite map_map. exact Hwf.
  - apply in_map_iff. exists (p, m). split; [reflexivity | exact Hm].
Qed.

End CountingDominators.

Lemma tie_then_worse_wf : wf Examples.tie_then_worse.
Proof.
  unfold wf. simpl.
  repeat (constructor; [simpl; intuition discriminate|]). constructor.
Qed.

(** C1 fails on the code: with two policies tied at count 0 and a third at
    count 1 the ranks are 1, 1 and 3; rank 2 is skipped. *)
Lemma rank_policies_not_dense :
  wf Examples.tie_then_worse /\
  dominance_count Examples.tie_then_worse
  = [("A", 0%nat); ("B", 0%nat); ("C", 1%nat)] /\
  Optimizer.rank_policies_by_dominance Examples.tie_then_worse
  = [("A", 1%nat); ("B", 1%nat); ("C", 3%nat)] /\
  ~ dense_ranks Examples.tie_then_worse.
Proof.
  split; [|split; [reflexivity|split; [reflexivity|]]].
  - exact tie_then_worse_wf.
  - intros [_ Hgap].
    specialize (Hgap 3%nat). simpl in Hgap.
    destruct Hgap as [H|[H|[H|[]]]]; try discriminate H; [tauto | lia].
Qed.

(** C1, amended.  [rank_policies_by_dominance] assigns competition ranks.
    The dominance count of a policy is the number of other policies that
    dominate it, and the rank of a policy is one plus the number of policies
    whose dominance count is strictly smaller.  Hence two policies with equal
    dominance counts receive the same rank; after a tie the rank jumps to the
    position in the sorted order. *)
Theorem rank_is_competition_rank :
  forall pm : dict metrics,
    wf pm ->
    (forall p, In p (keys pm) ->
       get (dominance_count pm) p = Some (dominators pm p)) /\
    (forall p, In p (keys pm) ->
       get (Optimizer.rank_policies_by_dominance pm) p
       = Some (1 + List.length
                     (filter (fun q => (dominators pm (fst q)
                                        <? dominators pm p)%nat) pm))%nat) /\
    (forall p q, In p (keys pm) -> In q (keys pm) ->
       dominators pm p = dominators pm q ->
       get (Optimizer.rank_policies_by_dominance pm) p
       = get (Optimizer.rank_policies_by_dominance pm) q).
Proof.
  intros pm Hwf.
  assert (Hrank : forall p, In p (keys pm) ->
            get (Optimizer.rank_policies_by_dominance pm) p
            = Some (1 + List.length
                          (filter (fun q => (dominators pm (fst q)
                                             <? dominators pm p)%nat) pm))%nat).
  { intros p Hp.
    rewrite (rank_of_policy pm p (dominators pm p) Hwf
               (dominance_count_get pm p Hwf Hp)).
    rewrite (dominance_count_closed_form pm Hwf).
    now rewrite strictly_below_dominators. }
  split; [|split].
  - intros p Hp. now apply dominance_count_get.
  - exact Hrank.
  - intros p q Hp Hq Heq.
    rewrite (Hrank p Hp), (Hrank q Hq). now rewrite Heq.
Qed.

Lemma rank_is_competition_rank_witness :
  get (Optimizer.rank_policies_by_dominance Examples.tie_then_worse) "C"
  = Some 3%nat.
Proof.
  apply (proj1 (proj2 (rank_is_competition_rank Examples.tie_then_worse
                         tie_then_worse_wf)) "C").
  simpl. tauto.
Defined.

(** The two end-to-end scenarios of the specification: P1 better than P2 in
    every objective, and the choice of the policy of least delay. *)
Example end_to_end_scenarios :
  Optimizer.calculate_pareto_frontier Examples.p1_p2 = ["P1"] /\
  dominance_count Examples.p1_p2 = [("P1", 0%nat); ("P2", 1%nat)] /\
  Optimizer.rank_policies_by_dominance Examples.p1_p2
  = [("P1", 1%nat); ("P2", 2%nat)] /\
  Evaluator.identify_best_policy
    [("A", [("average_delay", 10)]); ("B", [("average_delay", 5)])] "delay"
  = Ok (Some "B").
Proof. repeat split; reflexivity. Qed.

(** * Further properties of the same code *)

(** ** Dominance is a strict partial order *)

Section DominanceOrder.

Import Optimizer.

Lemma np_all_le_trans (a b c : list Q) :
  List.length a = List.length b -> List.length b = List.length c ->
  np_all_le a b = true -> np_all_le b c = true -> np_all_le a c = true.
Proof.
  unfold np_all_le.
  revert b c; induction a as [|x a IH]; intros [|y b] [|z c] Hab Hbc;
    simpl in *; try discriminate; try reflexivity.
  intros H1 H2.
  apply andb_true_iff in H1. destruct H1 as [Hxy H1].
  apply andb_true_iff in H2. destruct H2 as [Hyz H2].
  apply andb_true_iff. split.
  - apply leb_le. apply leb_le in Hxy. apply leb_le in Hyz.
    now apply Qle_trans with (y := y).
  - apply (IH b c); congruence.
Qed.

Lemma np_any_lt_le_trans (a b c : list Q) :
  List.length a = List.length b -> List.length b = List.length c ->
  np_any_lt a b = true -> np_all_le b c = true -> np_any_lt a c = true.
Proof.
  unfold np_all_le, np_any_lt.
  revert b c; induction a as [|x a IH]; intros [|y b] [|z c] Hab Hbc;
    simpl in *; try discriminate.
  intros H1 H2.
  apply andb_true_iff in H2. destruct H2 as [Hyz H2].
  apply leb_le in Hyz.
  apply orb_true_iff in H1. apply orb_true_iff.
  destruct H1 as [Hxy|H1].
  - left. apply ltb_lt. apply ltb_lt in Hxy.
    now apply Qlt_le_trans with (y := y).
  - right. apply (IH b c); congruence.
Qed.

End DominanceOrder.

(** X1.  [_dominates] is transitive on rows of the same length: if A
    dominates B and B dominates C then A dominates C. *)
Theorem dominates_transitive :
  forall a b c : list Q,
    List.length a = List.length b -> List.length b = List.length c ->
    Optimizer._dominates a b = true -> Optimizer._dominates b c = true ->
    Optimizer._dominates a c = true.
Proof.
  intros a b c Hab Hbc H1 H2. unfold Optimizer._dominates in *.
  apply andb_true_iff in H1. destruct H1 as [Hle1 Hlt1].
  apply andb_true_iff in H2. destruct H2 as [Hle2 _].
  apply andb_true_iff. split.
  - now apply (np_all_le_trans a b c).
  - now apply (np_any_lt_le_trans a b c).
Qed.

Lemma dominates_transitive_witness :
  Optimizer._dominates [1; 2] [3; 2] = true.
Proof.
  apply (dominates_transitive [1; 2] [2; 2] [3; 2]); reflexivity.
Defined.

(** ** The Pareto frontier and the dominance counts *)

Section Frontier.

Import Optimizer.

Lemma nth_objective_matrix (pm : dict metrics) (i : nat) (d : string * metrics) :
  (i < List.length pm)%nat ->
  nth i (objective_matrix pm) [] = objective_values (snd (nth i pm d)).
Proof.
  intro Hi. unfold objective_matrix.
  rewrite (nth_indep _ [] (objective_values (snd d)))
    by (rewrite length_map; exact Hi).
  apply (map_nth (fun nm => objective_values (snd nm))).
Qed.

Lemma nth_keys (pm : dict metrics) (i : nat) (d : string * metrics) :
  (i < List.length pm)%nat -> nth i (keys pm) "" = fst (nth i pm d).
Proof.
  intro Hi. unfold keys.
  rewrite (nth_indep _ "" (fst d)) by (rewrite length_map; exact Hi).
  apply (map_nth fst).
Qed.

Lemma is_dominated_iff (pm : dict metrics) (i : nat) (d : string * metrics) :
  wf pm -> (i < List.length pm)%nat ->
  is_dominated (objective_matrix pm) i = true <-> dominated_in pm (nth i pm d).
Proof.
  intros Hwf Hi. unfold is_dominated. rewrite existsb_exists.
  rewrite objective_matrix_length. split.
  - intros [j [Hj H]]. apply in_seq in Hj.
    apply andb_true_iff in H. destruct H as [Hij H].
    apply negb_true_iff, Nat.eqb_neq in Hij.
    rewrite (nth_objective_matrix pm j d), (nth_objective_matrix pm i d) in H
      by lia.
    exists (nth j pm d). split; [apply nth_In; lia|]. split; [|exact H].
    intro E. apply Hij.
    rewrite <- (nth_keys pm j d), <- (nth_keys pm i d) in E by lia.
    symmetry. apply (proj1 (NoDup_nth (keys pm) "") Hwf); unfold keys;
      rewrite ?length_map; try lia. exact E.
  - intros [other [Hin [Hne H]]].
    destruct (In_nth pm other d Hin) as [j [Hj Hnth]].
    exists j. split; [apply in_seq; lia|].
    apply andb_true_iff. split.
    + apply negb_true_iff, Nat.eqb_neq. intro E. subst j.
      apply Hne. now rewrite Hnth.
    + rewrite (nth_objective_matrix pm j d), (nth_objective_matrix pm i d)
        by lia.
      now rewrite Hnth.
Qed.

Lemma dominators_pred (pm : dict metrics) (nm other : string * metrics) :
  wf pm -> In nm pm ->
  negb (String.eqb (fst nm) (fst other))
  && _dominates (objective_values (snd other))
                (objective_values (get_or pm (fst nm) [])) = true
  <-> fst other <> fst nm /\
      _dominates (objective_values (snd other)) (objective_values (snd nm)) = true.
Proof.
  intros Hwf Hin.
  assert (Hget : get_or pm (fst nm) [] = snd nm).
  { unfold get_or. rewrite (get_of_in pm (fst nm) (snd nm) Hwf); [reflexivity|].
    now destruct nm. }
  rewrite Hget, andb_true_iff, negb_true_iff, String.eqb_neq.
  split; intros [H1 H2]; (split; [congruence | exact H2]).
Qed.

Lemma dominators_zero_iff (pm : dict metrics) (nm : string * metrics) :
  wf pm -> In nm pm ->
  dominators pm (fst nm) = 0%nat <-> ~ dominated_in pm nm.
Proof.
  intros Hwf Hin. unfold dominators. split.
  - intros H [other [Ho Hdom]].
    apply length_zero_iff_nil in H.
    assert (Hf : In other
               (filter (fun other =>
                  negb (String.eqb (fst nm) (fst other))
                  && _dominates (objective_values (snd other))
                       (objective_values (get_or pm (fst nm) []))) pm)).
    { apply filter_In. split; [exact Ho|].
      now apply (dominators_pred pm nm other Hwf Hin). }
    rewrite H in Hf. exact Hf.
  - intro Hnd. rewrite filter_none; [reflexivity|].
    intros other Ho.
    destruct (negb _ && _) eqn:E; [|reflexivity].
    exfalso. apply Hnd. exists other. split; [exact Ho|].
    now apply (dominators_pred pm nm other Hwf Hin).
Qed.

Lemma frontier_iff_not_dominated (pm : dict metrics) (p : string) :
  wf pm ->
  In p (calculate_pareto_frontier pm)
  <-> In p (keys pm) /\ dominators pm p = 0%nat.
Proof.
  intro Hwf. set (d := ("", @nil (string * Q))).
  unfold calculate_pareto_frontier. rewrite in_map_iff. split.
  - intros [i [Hp Hi]]. apply filter_In in Hi. destruct Hi as [Hi Hnd].
    apply in_seq in Hi. unfold keys in Hi. rewrite length_map in Hi.
    rewrite (nth_keys pm i d) in Hp by lia. subst p.
    assert (Hin : In (nth i pm d) pm) by (apply nth_In; lia).
    split; [now apply in_map|].
    apply (dominators_zero_iff pm _ Hwf Hin).
    intro Hdom. apply (is_dominated_iff pm i d Hwf) in Hdom; [|lia].
    rewrite Hdom in Hnd. discriminate Hnd.
  - intros [Hk Hzero].
    apply in_map_iff in Hk. destruct Hk as [nm [Hfst Hin]]. subst p.
    destruct (In_nth pm nm d Hin) as [i [Hi Hnth]].
    exists i. split.
    + rewrite (nth_keys pm i d) by lia. now rewrite Hnth.
    + apply filter_In. split.
      * apply in_seq. unfold keys. rewrite length_map. lia.
      * apply negb_true_iff.
        destruct (is_dominated (objective_matrix pm) i) eqn:E; [|reflexivity].
        apply (is_dominated_iff pm i d Hwf Hi) in E. rewrite Hnth in E.
        exfalso. now apply (dominators_zero_iff pm nm Hwf Hin).
Qed.

(** A list that is not empty has an element of least row sum. *)
Lemma least_by_row_sum (l : dict metrics) :
  l <> [] ->
  exists x, In x l /\
    forall y, In y l ->
      row_sum (objective_values (snd x)) <= row_sum (objective_values (snd y)).
Proof.
  induction l as [|a l IH]; [congruence|]. intros _.
  destruct l as [|b l'].
  - exists a. split; [now left|]. intros y [<-|[]]. apply Qle_refl.
  - destruct IH as [x [Hx Hmin]]; [discriminate|].
    destruct (Qlt_le_dec (row_sum (objective_values (snd x)))
                         (row_sum (objective_values (snd a)))) as [Hlt|Hle].
    + exists x. split; [now right|].
      intros y [<-|Hy]; [now apply Qlt_le_weak | now apply Hmin].
    + exists a. split; [now left|].
      intros y [<-|Hy]; [apply Qle_refl|].
      eapply Qle_trans; [exact Hle | now apply Hmin].
Qed.

End Frontier.

(** X2.  When the policy names are distinct, a policy is returned by
    [calculate_pareto_frontier] exactly when it is one of the input policies
    and no other policy dominates it. *)
Theorem pareto_frontier_sound_complete :
  forall (pm : dict metrics) (p : string),
    wf pm ->
    (In p (Optimizer.calculate_pareto_frontier pm)
     <-> In p (keys pm) /\ dominators pm p = 0%nat) /\
    (forall nm, In nm pm ->
       (dominators pm (fst nm) = 0%nat <-> ~ dominated_in pm nm)).
Proof.
  intros pm p Hwf. split.
  - now apply frontier_iff_not_dominated.
  - intros nm Hin. now apply dominators_zero_iff.
Qed.

Lemma pareto_frontier_sound_complete_witness :
  In "B" (Optimizer.calculate_pareto_frontier Examples.tie_then_worse).
Proof.
  apply (proj1 (pareto_frontier_sound_complete
                  Examples.tie_then_worse "B" tie_then_worse_wf)).
  split; [simpl; tauto | reflexivity].
Defined.

(** X3.  When the policy names are distinct, every policy that is not on the
    Pareto frontier is dominated by a policy that is on it. *)
Theorem off_frontier_dominated_by_frontier :
  forall (pm : dict metrics) (nm : string * metrics),
    wf pm -> In nm pm ->
    ~ In (fst nm) (Optimizer.calculate_pareto_frontier pm) ->
    exists other,
      In other pm /\
      In (fst other) (Optimizer.calculate_pareto_frontier pm) /\
      Optimizer._dominates (Optimizer.objective_values (snd other))
                           (Optimizer.objective_values (snd nm)) = true.
Proof.
  intros pm nm Hwf Hin Hoff.
  set (dom := fun o : string * metrics =>
                Optimizer._dominates (Optimizer.objective_values (snd o))
                                     (Optimizer.objective_values (snd nm))).
  assert (Hne : filter dom pm <> []).
  { intro E.
    apply Hoff. apply frontier_iff_not_dominated; [exact Hwf|].
    split; [now apply in_map|].
    apply (dominators_zero_iff pm nm Hwf Hin).
    intros [o [Ho [_ Hd]]].
    assert (Hf : In o (filter dom pm)) by (apply filter_In; now split).
    rewrite E in Hf. exact Hf. }
  destruct (least_by_row_sum (filter dom pm) Hne) as [x [Hx Hmin]].
  apply filter_In in Hx. destruct Hx as [Hxin Hxdom].
  exists x. split; [exact Hxin|]. split; [|exact Hxdom].
  apply frontier_iff_not_dominated; [exact Hwf|].
  split; [now apply in_map|].
  apply (dominators_zero_iff pm x Hwf Hxin).
  intros [z [Hz [_ Hzx]]].
  assert (Hzdom : dom z = true).
  { unfold dom.
    apply (dominates_transitive _ (Optimizer.objective_values (snd x)));
      try reflexivity; assumption. }
  assert (Hzf : In z (filter dom pm)) by (apply filter_In; now split).
  specialize (Hmin z Hzf).
  apply dominates_sum_lt in Hzx; [|reflexivity].
  exact (Qlt_not_le _ _ Hzx Hmin).
Qed.

Lemma off_frontier_dominated_by_frontier_witness :
  exists other,
    In other Examples.tie_then_worse /\
    In (fst other) (Optimizer.calculate_pareto_frontier Examples.tie_then_worse) /\
    Optimizer._dominates (Optimizer.objective_values (snd other))
                         (Optimizer.objective_values (Examples.mk 20 10 10 10))
    = true.
Proof.
  apply (off_frontier_dominated_by_frontier
           Examples.tie_then_worse ("C", Examples.mk 20 10 10 10)
           tie_then_worse_wf).
  - simpl. tauto.
  - simpl. intros [H|[H|[]]]; discriminate H.
Defined.

(** ** Ranks and the frontier *)

Section RanksAndFrontier.

Import Optimizer.

Lemma filter_length_le_all {A} (f : A -> bool) (l : list A) :
  (List.length (filter f l) <= List.length l)%nat.
Proof.
  induction l as [|x l IH]; simpl; [lia|].
  destruct (f x); simpl; lia.
Qed.

(** A predicate that holds wherever [f] holds, and at one more element of the
    list, keeps strictly more elements. *)
Lemma filter_length_strict {A} (f g : A -> bool) (l : list A) (x : A) :
  (forall y, In y l -> f y = true -> g y = true) ->
  In x l -> f x = false -> g x = true ->
  (List.length (filter f l) < List.length (filter g l))%nat.
Proof.
  induction l as [|a l IH]; intros Hsub Hin Hf Hg; [contradiction|].
  assert (Hle : forall l', (forall y, In y l' -> f y = true -> g y = true) ->
            (List.length (filter f l') <= List.length (filter g l'))%nat).
  { clear. induction l' as [|b l' IH']; intro H; simpl; [lia|].
    assert (IHl : (List.length (filter f l') <= List.length (filter g l'))%nat)
      by (apply IH'; intros y Hy; apply H; now right).
    destruct (f b) eqn:Eb.
    - rewrite (H b (or_introl eq_refl) Eb). simpl. lia.
    - destruct (g b); simpl; lia. }
  simpl. destruct Hin as [->|Hin].
  - rewrite Hf, Hg. simpl.
    specialize (Hle l (fun y Hy => Hsub y (or_intror Hy))). lia.
  - specialize (IH (fun y Hy => Hsub y (or_intror Hy)) Hin Hf Hg).
    destruct (f a) eqn:Ea.
    + rewrite (Hsub a (or_introl eq_refl) Ea). simpl. lia.
    + destruct (g a); simpl; lia.
Qed.

(** The rank of a policy, by the number of policies of smaller count. *)
Lemma rank_formula (pm : dict metrics) (p : string) :
  wf pm -> In p (keys pm) ->
  get (rank_policies_by_dominance pm) p
  = Some (1 + List.length
                (filter (fun q => (dominators pm (fst q) <? dominators pm p)%nat)
                        pm))%nat.
Proof.
  intros Hwf Hp.
  rewrite (rank_of_policy pm p (dominators pm p) Hwf
             (dominance_count_get pm p Hwf Hp)).
  rewrite (dominance_count_closed_form pm Hwf).
  now rewrite strictly_below_dominators.
Qed.

(** Only policies of the input receive a rank. *)
Lemma ranked_is_policy (pm : dict metrics) (p : string) (r : nat) :
  get (rank_policies_by_dominance pm) p = Some r -> In p (keys pm).
Proof.
  intro H. rewrite rank_policies_closed_form in H.
  destruct (in_dec string_dec p (keys (sorted_by snd (dominance_count pm))))
    as [Hin|Hnin].
  - rewrite <- dominance_count_keys.
    unfold keys in *.
    apply (Permutation_in _ (Permutation_map fst (sorted_by_perm _))).
    exact Hin.
  - rewrite fold_set_untouched in H by exact Hnin. discriminate H.
Qed.

(** The policy that dominates has the smaller dominance count. *)
Lemma dominators_strict (pm : dict metrics) (a b : string * metrics) :
  wf pm -> In a pm -> In b pm ->
  _dominates (objective_values (snd a)) (objective_values (snd b)) = true ->
  (dominators pm (fst a) < dominators pm (fst b))%nat.
Proof.
  intros Hwf Ha Hb Hab.
  assert (Hsame : forall x y : string * metrics,
            In x pm -> In y pm -> fst x = fst y -> x = y).
  { intros [kx vx] [ky vy] Hx Hy E. simpl in E. subst ky.
    pose proof (get_of_in pm kx vx Hwf Hx) as H1.
    pose proof (get_of_in pm kx vy Hwf Hy) as H2.
    congruence. }
  assert (Hirr : forall x, _dominates x x = false).
  { intro x. unfold _dominates. rewrite np_any_lt_irrefl. apply andb_false_r. }
  unfold dominators.
  apply (filter_length_strict _ _ pm a).
  - intros o Ho Hpa.
    apply (dominators_pred pm a o Hwf Ha) in Hpa. destruct Hpa as [Hne Hoa].
    apply (dominators_pred pm b o Hwf Hb). split.
    + intro E. apply (Hsame o b Ho Hb) in E. subst o.
      assert (H : _dominates (objective_values (snd a))
                             (objective_values (snd a)) = true).
      { apply (dominates_transitive _ (objective_values (snd b)));
          try reflexivity; assumption. }
      rewrite Hirr in H. discriminate H.
    + apply (dominates_transitive _ (objective_values (snd a)));
        try reflexivity; assumption.
  - exact Ha.
  - rewrite String.eqb_refl. reflexivity.
  - apply (dominators_pred pm b a Hwf Hb). split; [|exact Hab].
    intro E. apply (Hsame a b Ha Hb) in E. subst b.
    rewrite Hirr in Hab. discriminate Hab.
Qed.

End RanksAndFrontier.

(** X4.  When the policy names are distinct, the policies of rank 1 are
    exactly the policies on the Pareto frontier. *)
Theorem rank_one_iff_on_frontier :
  forall (pm : dict metrics) (p : string),
    wf pm ->
    (get (Optimizer.rank_policies_by_dominance pm) p = Some 1%nat
     <-> In p (Optimizer.calculate_pareto_frontier pm)).
Proof.
  intros pm p Hwf. split.
  - intro Hrank.
    pose proof (ranked_is_policy pm p 1 Hrank) as Hp.
    apply frontier_iff_not_dominated; [exact Hwf|]. split; [exact Hp|].
    rewrite (rank_formula pm p Hwf Hp) in Hrank.
    injection Hrank as Hlen.
    assert (Hnil : filter (fun q => (dominators pm (fst q) <? dominators pm p)%nat)
                          pm = []).
    { apply length_zero_iff_nil. lia. }
    assert (Hne : pm <> []).
    { intro E. subst pm. exact Hp. }
    pose proof (pareto_frontier_not_nil pm Hne) as Hfront.
    destruct (Optimizer.calculate_pareto_frontier pm) as [|q0 rest] eqn:E;
      [congruence|].
    assert (Hq0 : In q0 (Optimizer.calculate_pareto_frontier pm))
      by (rewrite E; now left).
    apply (frontier_iff_not_dominated pm q0 Hwf) in Hq0.
    destruct Hq0 as [Hk Hzero].
    apply in_map_iff in Hk. destruct Hk as [nm [Hfst Hin]].
    destruct (dominators pm p) as [|n] eqn:Ed; [reflexivity|].
    assert (Hf : In nm (filter (fun q => (dominators pm (fst q) <? S n)%nat) pm)).
    { apply filter_In. split; [exact Hin|].
      rewrite Hfst, Hzero. reflexivity. }
    rewrite Hnil in Hf. contradiction.
  - intro Hfront.
    apply (frontier_iff_not_dominated pm p Hwf) in Hfront.
    destruct Hfront as [Hp Hzero].
    rewrite (rank_formula pm p Hwf Hp), Hzero.
    rewrite filter_none; [reflexivity|].
    intros q _. apply Nat.ltb_ge. lia.
Qed.

Lemma rank_one_iff_on_frontier_witness :
  In "A" (Optimizer.calculate_pareto_frontier Examples.tie_then_worse).
Proof.
  apply (rank_one_iff_on_frontier Examples.tie_then_worse "A" tie_then_worse_wf).
  reflexivity.
Defined.

(** X5.  When the policy names are distinct, exactly the input policies
    receive a rank, and every rank lies between 1 and the number of
    policies. *)
Theorem ranks_cover_policies_within_bounds :
  forall (pm : dict metrics) (p : string),
    wf pm ->
    (In p (keys pm)
     <-> exists r, get (Optimizer.rank_policies_by_dominance pm) p = Some r) /\
    (forall r, get (Optimizer.rank_policies_by_dominance pm) p = Some r ->
               (1 <= r <= List.length pm)%nat).
Proof.
  intros pm p Hwf.
  assert (Hbound : In p (keys pm) ->
            (List.length
               (filter (fun q => (dominators pm (fst q) <? dominators pm p)%nat) pm)
             < List.length pm)%nat).
  { intro Hp. apply in_map_iff in Hp. destruct Hp as [nm [Hfst Hin]].
    rewrite <- (filter_all (fun _ => true) pm) at 2 by reflexivity.
    apply (filter_length_strict _ _ pm nm); try reflexivity; try exact Hin.
    rewrite Hfst. apply Nat.ltb_irrefl. }
  split.
  - split.
    + intro Hp. eexists. now apply rank_formula.
    + intros [r Hr]. exact (ranked_is_policy pm p r Hr).
  - intros r Hr.
    pose proof (ranked_is_policy pm p r Hr) as Hp.
    rewrite (rank_formula pm p Hwf Hp) in Hr. injection Hr as <-.
    specialize (Hbound Hp). lia.
Qed.

Lemma ranks_cover_policies_within_bounds_witness :
  exists r,
    get (Optimizer.rank_policies_by_dominance Examples.tie_then_worse) "C"
    = Some r.
Proof.
  apply (proj1 (ranks_cover_policies_within_bounds
                  Examples.tie_then_worse "C" tie_then_worse_wf)).
  simpl. tauto.
Defined.

(** X6.  When the policy names are distinct, the ranking agrees with
    dominance: a policy that dominates another has a strictly smaller
    dominance count and a strictly smaller rank. *)
Theorem dominating_policy_ranks_better :
  forall (pm : dict metrics) (a b : string * metrics),
    wf pm -> In a pm -> In b pm ->
    Optimizer._dominates (Optimizer.objective_values (snd a))
                         (Optimizer.objective_values (snd b)) = true ->
    (dominators pm (fst a) < dominators pm (fst b))%nat /\
    exists ra rb,
      get (Optimizer.rank_policies_by_dominance pm) (fst a) = Some ra /\
      get (Optimizer.rank_policies_by_dominance pm) (fst b) = Some rb /\
      (ra < rb)%nat.
Proof.
  intros pm a b Hwf Ha Hb Hab.
  pose proof (dominators_strict pm a b Hwf Ha Hb Hab) as Hlt.
  split; [exact Hlt|].
  do 2 eexists. split; [|split].
  - apply rank_formula; [exact Hwf | now apply in_map].
  - apply rank_formula; [exact Hwf | now apply in_map].
  - apply -> Nat.succ_lt_mono.
    apply (filter_length_strict _ _ pm a).
    + intros y _ Hy. apply Nat.ltb_lt in Hy. apply Nat.ltb_lt. lia.
    + exact Ha.
    + apply Nat.ltb_irrefl.
    + now apply Nat.ltb_lt.
Qed.

Lemma dominating_policy_ranks_better_witness :
  (dominators Examples.p1_p2 "P1" < dominators Examples.p1_p2 "P2")%nat.
Proof.
  apply (dominating_policy_ranks_better
           Examples.p1_p2
           ("P1", Examples.mk 30 200 1500 45) ("P2", Examples.mk 60 400 1000 30)).
  - unfold wf. simpl.
    repeat (constructor; [simpl; intuition discriminate|]). constructor.
  - simpl. tauto.
  - simpl. tauto.
  - reflexivity.
Defined.

(** ** The range of the hypervolume proxy *)

Section HypervolumeRange.

Import Optimizer.

Lemma hypervolume_value (pm : dict metrics) (reference_point : option (list Q)) :
  pm <> [] ->
  calculate_hypervolume pm reference_point
  = Ok (inject_Z (Z.of_nat (List.length (calculate_pareto_frontier pm)))
        / inject_Z (Z.of_nat (List.length pm))).
Proof.
  intro Hne. unfold calculate_hypervolume.
  assert (Href : exists r,
             match reference_point with
             | Some r => Ok r
             | None => default_reference_point pm
             end = Ok r).
  { destruct reference_point as [r|]; [now exists r|].
    now apply default_reference_point_ok. }
  destruct Href as [r ->]. simpl.
  pose proof (pareto_frontier_not_nil pm Hne) as Hfront.
  destruct (calculate_pareto_frontier pm) as [|p front] eqn:E; [congruence|].
  now apply div_by_length.
Qed.

Lemma pareto_frontier_length (pm : dict metrics) :
  (List.length (calculate_pareto_frontier pm) <= List.length pm)%nat.
Proof.
  unfold calculate_pareto_frontier. rewrite length_map.
  eapply Nat.le_trans; [apply filter_length_le_all|].
  rewrite length_seq. unfold keys. now rewrite length_map.
Qed.

End HypervolumeRange.

(** X7.  [calculate_hypervolume] returns a value in (0, 1] for every
    non-empty mapping.  On the empty mapping it returns 0 when a reference
    point is supplied, and fails with [ValueError] (the maximum of an empty
    sequence) when none is. *)
Theorem hypervolume_range :
  (forall (pm : dict metrics) (reference_point : option (list Q)),
      pm <> [] ->
      exists v, Optimizer.calculate_hypervolume pm reference_point = Ok v /\
                0 < v /\ v <= 1) /\
  (forall r : list Q, Optimizer.calculate_hypervolume [] (Some r) = Ok 0) /\
  Optimizer.calculate_hypervolume [] None
  = Raise (ValueError "max() arg is an empty sequence").
Proof.
  split; [|split; reflexivity].
  intros pm reference_point Hne. eexists. split;
    [now apply hypervolume_value|].
  pose proof (pareto_frontier_not_nil pm Hne) as Hfront.
  pose proof (pareto_frontier_length pm) as Hlen.
  assert (Hpos : (0 < List.length (Optimizer.calculate_pareto_frontier pm))%nat).
  { destruct (Optimizer.calculate_pareto_frontier pm); [congruence | simpl; lia]. }
  assert (Hn : 0 < inject_Z (Z.of_nat (List.length pm))).
  { rewrite <- (Zlt_Qlt 0). lia. }
  split.
  - apply Qlt_shift_div_l; [exact Hn|].
    rewrite Qmult_0_l. rewrite <- (Zlt_Qlt 0). lia.
  - apply Qle_shift_div_r; [exact Hn|].
    rewrite Qmult_1_l. rewrite <- Zle_Qle. lia.
Qed.

Lemma hypervolume_range_witness :
  exists v, Optimizer.calculate_hypervolume Examples.tie_then_worse None = Ok v /\
            0 < v /\ v <= 1.
Proof.
  apply (proj1 hypervolume_range Examples.tie_then_worse None). discriminate.
Defined.

(** ** The best policy is a best one *)

Section ArgBest.

Context {V : Type}.
Variable lt : V -> V -> bool.
Hypothesis lt_asym : forall a b, lt a b = true -> lt b a = false.
Hypothesis le_trans :
  forall a b c, lt b a = false -> lt c b = false -> lt c a = false.




End ArgBest.

Section BestPolicyOptimal.

Import Evaluator.









End BestPolicyOptimal.





(** ** More on comparing a policy with a baseline *)

Section CompareMore.

Import Evaluator.

Lemma get_none {V} (d : dict V) (k : string) :
  ~ In k (keys d) -> get d k = None.
Proof.
  intro Hnin. destruct (get d k) as [v|] eqn:E; [|reflexivity].
  exfalso. apply Hnin. exact (get_in_keys d k v E).
Qed.

Lemma compare_loop_raise (b p : metrics) (ks : list string) (e : exn) :
  fold_left (compare_step b p) ks (Raise e) = Raise e.
Proof.
  induction ks as [|k ks IH]; simpl; [reflexivity | exact IH].
Qed.

(** A loop that ends without exception went through every key without
    exception. *)
Lemma compare_loop_ok_inv (b p : metrics) (ks : list string) :
  forall cmp0 cmp,
    fold_left (compare_step b p) ks (Ok cmp0) = Ok cmp ->
    forall k, In k ks -> exists e, compare_metric b p k = Ok e.
Proof.
  induction ks as [|k ks IH]; intros cmp0 cmp H k' Hk'; [contradiction|].
  cbn [fold_left] in H.
  destruct (compare_metric b p k) as [e|err] eqn:E.
  - assert (Hstep : compare_step b p (Ok cmp0) k = Ok (set cmp0 k e))
      by (unfold compare_step; simpl; rewrite E; reflexivity).
    rewrite Hstep in H.
    destruct Hk' as [<-|Hk']; [now exists e|].
    exact (IH _ _ H k' Hk').
  - assert (Hstep : compare_step b p (Ok cmp0) k = Raise err)
      by (unfold compare_step; simpl; rewrite E; reflexivity).
    rewrite Hstep, compare_loop_raise in H. discriminate H.
Qed.

Lemma compare_loop_keys (b p : metrics) (ks : list string) :
  forall cmp0 cmp,
    NoDup (keys cmp0 ++ ks) ->
    fold_left (compare_step b p) ks (Ok cmp0) = Ok cmp ->
    keys cmp = (keys cmp0 ++ ks)%list.
Proof.
  induction ks as [|k ks IH]; intros cmp0 cmp Hnd H.
  - simpl in H. injection H as <-. now rewrite app_nil_r.
  - destruct (compare_loop_ok_inv b p (k :: ks) cmp0 cmp H k (or_introl eq_refl))
      as [e He].
    cbn [fold_left] in H.
    assert (Hstep : compare_step b p (Ok cmp0) k = Ok (set cmp0 k e))
      by (unfold compare_step; simpl; rewrite He; reflexivity).
    rewrite Hstep in H.
    assert (Hk : ~ In k (keys cmp0)).
    { apply NoDup_remove_2 in Hnd. intro Hin. apply Hnd.
      apply in_or_app. now left. }
    rewrite (set_fresh cmp0 k e Hk) in H.
    assert (Hnd' : NoDup (keys (cmp0 ++ [(k, e)])%list ++ ks)).
    { unfold keys in *. rewrite map_app. simpl. now rewrite <- app_assoc. }
    rewrite (IH _ _ Hnd' H).
    unfold keys. rewrite map_app. simpl. now rewrite <- app_assoc.
Qed.

(** An entry of the result is what the loop body computes for its key. *)
Lemma compare_policies_entry (b p : metrics) (cmp : dict comparison)
    (k : string) (e : comparison) :
  compare_policies b p = Ok cmp -> get cmp k = Some e ->
  compare_metric b p k = Ok e.
Proof.
  intros Hcmp Hget. rewrite compare_policies_loop in Hcmp.
  destruct (compare_loop b p (keys b)
              (compare_loop_ok_inv b p (keys b) [] cmp Hcmp) [])
    as [cmp' [Hfold [Hin Hout]]].
  pose proof (eq_trans (eq_sym Hfold) Hcmp) as E. injection E as ->.
  destruct (in_dec string_dec k (keys b)) as [Hk|Hk].
  - destruct (Hin k Hk) as [e' [He' Hget']]. congruence.
  - rewrite (Hout k Hk) in Hget. discriminate Hget.
Qed.

Lemma sub_neg_iff (pv bv : Q) : pv - bv < 0 <-> pv < bv.
Proof. split; intro H; lra. Qed.

Lemma sub_pos_iff (pv bv : Q) : 0 < pv - bv <-> bv < pv.
Proof. split; intro H; lra. Qed.

End CompareMore.

(** X10.  [compare_policies] fails with [KeyError] on the first metric key
    of the baseline, in its order, that the policy metrics lack. *)
Theorem compare_policies_missing_key :
  forall (b p : metrics) (before : list string) (k : string)
         (after : list string),
    keys b = (before ++ k :: after)%list ->
    (forall k', In k' before -> In k' (keys p)) ->
    ~ In k (keys p) ->
    Evaluator.compare_policies b p = Raise (KeyError k).
Proof.
  intros b p before k after Hkeys Hbefore Hmissing.
  rewrite compare_policies_loop, Hkeys, fold_left_app.
  assert (Hb : forall k', In k' (keys b) -> exists v, get b k' = Some v)
    by (intro k'; apply in_keys_get).
  destruct (compare_loop b p before) with (cmp0 := @nil (string * Evaluator.comparison))
    as [cmp [Hfold _]].
  { intros k' Hk'.
    destruct (Hb k') as [bv Hbv].
    { rewrite Hkeys. apply in_or_app. now left. }
    destruct (in_keys_get p k' (Hbefore k' Hk')) as [pv Hpv].
    destruct (compare_metric_ok b p k' bv pv Hbv Hpv) as [e [He _]].
    now exists e. }
  unfold dict in *. rewrite Hfold. cbn [fold_left].
  assert (Hstep : compare_step b p (Ok cmp) k = Raise (KeyError k)).
  { destruct (Hb k) as [bv Hbv].
    { rewrite Hkeys. apply in_or_app. right. now left. }
    unfold compare_step, Evaluator.compare_metric, item. simpl.
    rewrite Hbv, (get_none p k Hmissing). reflexivity. }
  rewrite Hstep. apply compare_loop_raise.
Qed.

Lemma compare_policies_missing_key_witness :
  Evaluator.compare_policies
    (Examples.mk 30 200 1500 45)
    [("average_delay", 25); ("throughput", 1600)]
  = Raise (KeyError "co2_emissions").
Proof.
  apply (compare_policies_missing_key _ _
           ["average_delay"] "co2_emissions" ["throughput"; "average_speed"]).
  - reflexivity.
  - simpl. intros k' [<-|[]]. tauto.
  - simpl. intros [H|[H|[]]]; discriminate H.
Defined.

(** X11.  When the policy metrics have every key of the baseline,
    [compare_policies] succeeds, its result has exactly the keys of the
    baseline in the same order (keys that only the policy has are ignored),
    and each entry records both values and their difference. *)
Theorem compare_policies_keys_and_values :
  forall b p : metrics,
    wf b ->
    (forall k, In k (keys b) -> In k (keys p)) ->
    exists cmp,
      Evaluator.compare_policies b p = Ok cmp /\
      keys cmp = keys b /\
      forall k bv pv,
        get b k = Some bv -> get p k = Some pv ->
        exists e, get cmp k = Some e /\
                  Evaluator.baseline e = bv /\
                  Evaluator.policy e = pv /\
                  Evaluator.absolute_change e = pv - bv.
Proof.
  intros b p Hwf Hsub.
  destruct (compare_loop b p (keys b)) with (cmp0 := @nil (string * Evaluator.comparison))
    as [cmp [Hfold [Hin _]]].
  { intros k Hk. destruct (in_keys_get b k Hk) as [bv Hbv].
    destruct (in_keys_get p k (Hsub k Hk)) as [pv Hpv].
    destruct (compare_metric_ok b p k bv pv Hbv Hpv) as [e [He _]].
    now exists e. }
  exists cmp. split; [exact Hfold|]. split.
  - now apply (compare_loop_keys b p (keys b) [] cmp).
  - intros k bv pv Hbv Hpv.
    destruct (Hin k (get_in_keys b k bv Hbv)) as [e [He Hget]].
    exists e. split; [exact Hget|].
    destruct (compare_metric_ok b p k bv pv Hbv Hpv)
      as [e' [He' [H1 [H2 [H3 _]]]]].
    rewrite He in He'. injection He' as <-. now repeat split.
Qed.

Lemma compare_policies_keys_and_values_witness :
  exists cmp,
    Evaluator.compare_policies
      [("throughput", 1500)] [("average_delay", 20); ("throughput", 1600)]
    = Ok cmp /\
    keys cmp = ["throughput"].
Proof.
  destruct (compare_policies_keys_and_values
              [("throughput", 1500)]
              [("average_delay", 20); ("throughput", 1600)])
    as [cmp [H [Hk _]]].
  - unfold wf. simpl. constructor; [intros []| constructor].
  - simpl. intros k [<-|[]]. tauto.
  - exists cmp. now split.
Defined.

(** X12.  The flag [is_improvement] of an entry of [compare_policies] tells
    the direction of the change: for average_delay, co2_emissions and
    total_travel_time it is set exactly when the policy value is smaller
    than the baseline value; for throughput and average_speed exactly when
    it is greater; for every other key it is never set. *)
Theorem is_improvement_direction :
  forall (b p : metrics) (cmp : dict Evaluator.comparison) (k : string)
         (e : Evaluator.comparison) (bv pv : Q),
    Evaluator.compare_policies b p = Ok cmp ->
    get cmp k = Some e -> get b k = Some bv -> get p k = Some pv ->
    (In k ["average_delay"; "co2_emissions"; "total_travel_time"] ->
       (Evaluator.is_improvement e = true <-> pv < bv)) /\
    (In k ["throughput"; "average_speed"] ->
       (Evaluator.is_improvement e = true <-> bv < pv)) /\
    (~ In k ["average_delay"; "co2_emissions"; "total_travel_time";
             "throughput"; "average_speed"] ->
       Evaluator.is_improvement e = false).
Proof.
  intros b p cmp k e bv pv Hcmp Hget Hbv Hpv.
  pose proof (compare_policies_entry b p cmp k e Hcmp Hget) as He.
  destruct (compare_metric_ok b p k bv pv Hbv Hpv)
    as [e' [He' [_ [_ [_ [Himp _]]]]]].
  rewrite He in He'. injection He' as <-. rewrite Himp.
  unfold Evaluator._is_improvement.
  split; [|split].
  - intro Hk. apply mem_In in Hk. rewrite Hk.
    rewrite ltb_lt. apply sub_neg_iff.
  - intro Hk.
    assert (Hlow : mem k ["average_delay"; "co2_emissions"; "total_travel_time"]
                   = false).
    { simpl in Hk. destruct Hk as [<-|[<-|[]]]; reflexivity. }
    apply mem_In in Hk. rewrite Hlow, Hk.
    rewrite ltb_lt. apply sub_pos_iff.
  - intro Hk.
    assert (Hlow : mem k ["average_delay"; "co2_emissions"; "total_travel_time"]
                   = false).
    { destruct (mem k ["average_delay"; "co2_emissions"; "total_travel_time"])
        eqn:E; [|reflexivity].
      apply mem_In in E. exfalso. apply Hk. simpl in *. tauto. }
    assert (Hhigh : mem k ["throughput"; "average_speed"] = false).
    { destruct (mem k ["throughput"; "average_speed"]) eqn:E; [|reflexivity].
      apply mem_In in E. exfalso. apply Hk. simpl in *. tauto. }
    now rewrite Hlow, Hhigh.
Qed.

Lemma is_improvement_direction_witness :
  Evaluator._is_improvement "average_delay" (20 - 30) = true <-> 20 < 30.
Proof.
  pose (e := {| Evaluator.baseline := 30; Evaluator.policy := 20;
                Evaluator.absolute_change := 20 - 30;
                Evaluator.percent_change := (20 - 30) / 30 * 100;
                Evaluator.is_improvement :=
                  Evaluator._is_improvement "average_delay" (20 - 30) |}).
  apply (proj1 (is_improvement_direction
                  [("average_delay", 30)] [("average_delay", 20)]
                  [("average_delay", e)] "average_delay" e 30 20
                  eq_refl eq_refl eq_refl eq_refl)).
  simpl. tauto.
Defined.

(** ** Monotonicity and custom weights of the composite score *)

Section CompositeMore.

Import Evaluator.

Lemma round_half_even_between (z : Q) :
  (Qfloor z <= round_half_even z <= Qfloor z + 1)%Z.
Proof.
  unfold round_half_even.
  generalize (Qfloor z) as f. intro f.
  destruct (ltb _ _); [lia|].
  destruct (ltb _ _); [lia|].
  destruct (Z.even f); lia.
Qed.

Lemma round_half_even_mono (x y : Q) :
  x <= y -> (round_half_even x <= round_half_even y)%Z.
Proof.
  intro Hxy.
  pose proof (Qfloor_resp_le _ _ Hxy) as Hf.
  pose proof (round_half_even_between x) as Hx.
  pose proof (round_half_even_between y) as Hy.
  destruct (Z_lt_le_dec (Qfloor x) (Qfloor y)) as [Hlt|Hge].
  - generalize dependent (round_half_even x).
    generalize dependent (round_half_even y).
    generalize dependent (Qfloor x). generalize dependent (Qfloor y).
    intros. lia.
  - assert (E : Qfloor x = Qfloor y).
    { generalize dependent (Qfloor x). generalize dependent (Qfloor y).
      intros. lia. }
    clear Hx Hy Hf Hge.
    unfold round_half_even. rewrite E.
    set (f := Qfloor y).
    destruct (ltb (x - inject_Z f) (1 # 2)) eqn:X1.
    { destruct (ltb (y - inject_Z f) (1 # 2)); [lia|].
      destruct (ltb (1 # 2) (y - inject_Z f)); [lia|].
      destruct (Z.even f); lia. }
    apply ltb_ge in X1.
    assert (Y1 : ltb (y - inject_Z f) (1 # 2) = false) by (apply ltb_ge; lra).
    rewrite Y1.
    destruct (ltb (1 # 2) (x - inject_Z f)) eqn:X2.
    { apply ltb_lt in X2.
      assert (Y2 : ltb (1 # 2) (y - inject_Z f) = true) by (apply ltb_lt; lra).
      rewrite Y2. lia. }
    destruct (ltb (1 # 2) (y - inject_Z f)); destruct (Z.even f); lia.
Qed.

Lemma round2_mono (x y : Q) : x <= y -> round2 x <= round2 y.
Proof.
  intro Hxy. unfold round2.
  assert (H : (round_half_even (x * 100) <= round_half_even (y * 100))%Z).
  { apply round_half_even_mono. lra. }
  rewrite Zle_Qle in H.
  unfold Qdiv. change (/ 100) with (1 # 100). lra.
Qed.

Lemma clamp_mono (x y hi : Q) :
  0 <= hi -> x <= y -> Spec.clamp 0 hi x <= Spec.clamp 0 hi y.
Proof.
  intros Hhi Hxy. unfold Spec.clamp.
  destruct (ltb x 0) eqn:X0; destruct (ltb y 0) eqn:Y0;
    try (apply ltb_lt in X0); try (apply ltb_ge in X0);
    try (apply ltb_lt in Y0); try (apply ltb_ge in Y0);
    destruct (ltb hi x) eqn:X1; destruct (ltb hi y) eqn:Y1;
    try (apply ltb_lt in X1); try (apply ltb_ge in X1);
    try (apply ltb_lt in Y1); try (apply ltb_ge in Y1); lra.
Qed.


Lemma sum_from (xs : list Q) (a : Q) :
  fold_left Qplus xs a == a + Py.sum xs.
Proof.
  unfold Py.sum. revert a.
  induction xs as [|x xs IH]; intro a; simpl.
  - ring.
  - rewrite (IH (a + x)), (IH (0 + x)). ring.
Qed.

Lemma sum_cons (x : Q) (xs : list Q) : Py.sum (x :: xs) == x + Py.sum xs.
Proof.
  unfold Py.sum at 1. simpl. rewrite sum_from. ring.
Qed.




End CompositeMore.

(** X13.  The composite score with default weights is monotone: lowering the
    delay or the emissions, or raising the throughput or the speed (absent
    keys counted with their defaults 150, 500, 0, 0), never lowers the
    score. *)
Theorem composite_score_monotone :
  forall m m' : metrics,
    get_or m' "average_delay" 150 <= get_or m "average_delay" 150 ->
    get_or m "throughput" 0 <= get_or m' "throughput" 0 ->
    get_or m' "co2_emissions" 500 <= get_or m "co2_emissions" 500 ->
    get_or m "average_speed" 0 <= get_or m' "average_speed" 0 ->
    Evaluator.calculate_composite_score m None
    <= Evaluator.calculate_composite_score m' None.
Proof.
  intros m m' Hd Ht He Hs.
  rewrite !composite_score_refines_spec. unfold Spec.composite_score.
  apply round2_mono.
  unfold Spec.lower_is_better_score, Spec.higher_is_better_score.
  pose proof (clamp_mono _ _ 300 ltac:(discriminate) Hd) as Cd.
  pose proof (clamp_mono _ _ 2000 ltac:(discriminate) Ht) as Ct.
  pose proof (clamp_mono _ _ 1000 ltac:(discriminate) He) as Ce.
  pose proof (clamp_mono _ _ 60 ltac:(discriminate) Hs) as Cs.
  unfold Qdiv.
  change (/ 300) with (1 # 300). change (/ 2000) with (1 # 2000).
  change (/ 1000) with (1 # 1000). change (/ 60) with (1 # 60).
  lra.
Qed.

Lemma composite_score_monotone_witness :
  Evaluator.calculate_composite_score (Examples.mk 60 400 1000 30) None
  <= Evaluator.calculate_composite_score (Examples.mk 30 200 1500 45) None.
Proof.
  apply composite_score_monotone; discriminate.
Defined.



(** ** More on the ANOVA loop *)

Section AnovaMore.

Import Analytics.

Lemma mapM_raise {A B} (f : A -> result B) (xs : list A) (e : exn) :
  (forall x, In x xs -> (exists y, f x = Ok y) \/ f x = Raise e) ->
  (exists x, In x xs /\ f x = Raise e) ->
  mapM f xs = Raise e.
Proof.
  induction xs as [|x xs IH]; intros Hall [x0 [Hin Hx0]]; [contradiction|].
  simpl. destruct (Hall x (or_introl eq_refl)) as [[y Hy]|Hr].
  - rewrite Hy. simpl.
    rewrite IH; [reflexivity | intros x' Hx'; apply Hall; now right |].
    destruct Hin as [->|Hin]; [congruence|]. now exists x0.
  - now rewrite Hr.
Qed.

Lemma mapM_pure {A B} (f : A -> result B) (g : A -> B) (xs : list A) :
  (forall x, In x xs -> f x = Ok (g x)) -> mapM f xs = Ok (map g xs).
Proof.
  induction xs as [|x xs IH]; intro H; [reflexivity|].
  simpl. rewrite (H x (or_introl eq_refl)). simpl.
  rewrite IH by (intros x' Hx'; apply H; now right). reflexivity.
Qed.

Lemma forallb_false_witness {A} (f : A -> bool) (l : list A) :
  forallb f l = false -> exists x, In x l /\ f x = false.
Proof.
  induction l as [|a l IH]; simpl; [discriminate|].
  destruct (f a) eqn:E.
  - intro H. destruct (IH H) as [x [Hin Hx]]. exists x. split; [now right|exact Hx].
  - intros _. exists a. split; [now left | exact E].
Qed.

Lemma record_sample (data : scenario_data) (metric : string) :
  (has_metrics data = true ->
   bind (item data "metrics") (fun m => Ok (get_or m metric 0))
   = Ok (get_or (get_or data "metrics" []) metric 0)) /\
  (has_metrics data = false ->
   bind (item data "metrics") (fun m => Ok (get_or m metric 0))
   = Raise (KeyError "metrics")).
Proof.
  unfold has_metrics, item, get_or.
  destruct (get data "metrics") as [m|]; split; intro H;
    try discriminate H; reflexivity.
Qed.

Lemma collect_policy_data_samples (results : dict (dict scenario_data))
    (metric : string) :
  all_have_metrics results = true ->
  collect_policy_data results metric = Ok (samples results metric).
Proof.
  intro Hall. unfold all_have_metrics in Hall. rewrite forallb_forall in Hall.
  unfold collect_policy_data, samples.
  apply mapM_pure. intros ps Hps.
  specialize (Hall ps Hps). rewrite forallb_forall in Hall.
  apply mapM_pure. intros data Hdata.
  apply (proj1 (record_sample data metric)). now apply Hall.
Qed.

Lemma collect_policy_data_key_error (results : dict (dict scenario_data))
    (metric : string) :
  all_have_metrics results = false ->
  collect_policy_data results metric = Raise (KeyError "metrics").
Proof.
  intro Hall. unfold all_have_metrics in Hall.
  assert (Hinner : forall ps : string * dict scenario_data,
    (forallb has_metrics (values (snd ps)) = false ->
     mapM (fun data => bind (item data "metrics")
                            (fun m => Ok (get_or m metric 0)))
          (values (snd ps)) = Raise (KeyError "metrics")) /\
    ((exists y, mapM (fun data => bind (item data "metrics")
                                       (fun m => Ok (get_or m metric 0)))
                     (values (snd ps)) = Ok y) \/
     mapM (fun data => bind (item data "metrics")
                            (fun m => Ok (get_or m metric 0)))
          (values (snd ps)) = Raise (KeyError "metrics"))).
  { intro ps.
    assert (Hcase : forall data, In data (values (snd ps)) ->
      (exists y, bind (item data "metrics") (fun m => Ok (get_or m metric 0))
                 = Ok y) \/
      bind (item data "metrics") (fun m => Ok (get_or m metric 0))
      = Raise (KeyError "metrics")).
    { intros data _. destruct (has_metrics data) eqn:E.
      - left. eexists. now apply (proj1 (record_sample data metric)).
      - right. now apply (proj2 (record_sample data metric)). }
    split.
    - intro Hf. apply mapM_raise; [exact Hcase|].
      destruct (forallb_false_witness _ _ Hf) as [data [Hin Hd]].
      exists data. split; [exact Hin|].
      now apply (proj2 (record_sample data metric)).
    - destruct (forallb has_metrics (values (snd ps))) eqn:Hf.
      + left. rewrite forallb_forall in Hf.
        eexists. apply mapM_pure. intros data Hdata.
        apply (proj1 (record_sample data metric)). now apply Hf.
      + right. apply mapM_raise; [exact Hcase|].
        destruct (forallb_false_witness _ _ Hf) as [data [Hin Hd]].
        exists data. split; [exact Hin|].
        now apply (proj2 (record_sample data metric)). }
  unfold collect_policy_data.
  apply mapM_raise.
  - intros ps _. exact (proj2 (Hinner ps)).
  - destruct (forallb_false_witness _ _ Hall) as [ps [Hin Hps]].
    exists ps. split; [exact Hin|]. now apply (proj1 (Hinner ps)).
Qed.

Lemma anova_loop_raise (f_oneway : list (list Q) -> float * float)
    (results : dict (dict scenario_data)) (ms : list string) (e : exn) :
  fold_left (anova_step f_oneway results) ms (Raise e) = Raise e.
Proof.
  induction ms as [|m ms IH]; simpl; [reflexivity | exact IH].
Qed.

Lemma samples_length (results : dict (dict scenario_data)) (metric : string) :
  List.length (samples results metric) = List.length results /\
  map (@List.length Q) (samples results metric)
  = map (fun ps => List.length (snd ps)) results.
Proof.
  unfold samples. split; [apply length_map|].
  rewrite map_map. apply map_ext. intro ps.
  unfold values. now rewrite !length_map.
Qed.

(** With two groups or more, none of them empty, an iteration stores the
    entry computed from the samples. *)
Lemma anova_step_tested (f_oneway : list (list Q) -> float * float)
    (results : dict (dict scenario_data)) (acc : dict anova_entry)
    (metric : string) :
  (2 <= List.length results)%nat ->
  (forall ps, In ps results -> snd ps <> []) ->
  all_have_metrics results = true ->
  anova_step f_oneway results (Ok acc) metric
  = Ok (set acc metric (anova_of f_oneway (samples results metric))).
Proof.
  intros Hlen Hne Hall. unfold anova_step. simpl.
  rewrite (collect_policy_data_samples results metric Hall). simpl.
  destruct (samples_length results metric) as [Hl _].
  assert (E1 : (1 <? List.length (samples results metric))%nat = true)
    by (apply Nat.ltb_lt; lia).
  assert (E2 : forallb (fun data : list Q => (0 <? List.length data)%nat)
                       (samples results metric) = true).
  { apply forallb_forall. intros data Hdata.
    unfold samples in Hdata. apply in_map_iff in Hdata.
    destruct Hdata as [ps [<- Hps]].
    apply Nat.ltb_lt. unfold values. rewrite !length_map.
    specialize (Hne ps Hps).
    destruct (snd ps) eqn:E; [exfalso; apply Hne; exact E | simpl; lia]. }
  now rewrite E1, E2.
Qed.

(** With a policy that has no scenario, an iteration leaves the result
    unchanged. *)
Lemma anova_step_empty_group (f_oneway : list (list Q) -> float * float)
    (results : dict (dict scenario_data)) (acc : dict anova_entry)
    (metric : string) :
  (exists ps, In ps results /\ snd ps = []) ->
  all_have_metrics results = true ->
  anova_step f_oneway results (Ok acc) metric = Ok acc.
Proof.
  intros [ps [Hps Hempty]] Hall. unfold anova_step. simpl.
  rewrite (collect_policy_data_samples results metric Hall). simpl.
  assert (E2 : forallb (fun data : list Q => (0 <? List.length data)%nat)
                       (samples results metric) = false).
  { destruct (forallb _ _) eqn:E; [|reflexivity].
    rewrite forallb_forall in E.
    specialize (E (map (fun data => get_or (get_or data "metrics" []) metric 0)
                       (values (snd ps)))).
    rewrite Hempty in E. simpl in E.
    assert (Hin : In (@nil Q) (samples results metric)).
    { unfold samples. apply in_map_iff. exists ps.
      destruct ps as [name scenarios]. simpl in Hempty. subst scenarios.
      split; [reflexivity | exact Hps]. }
    specialize (E Hin). discriminate E. }
  rewrite E2. now rewrite andb_false_r.
Qed.

End AnovaMore.

(** X15.  [perform_anova] fails with [KeyError('metrics')] as soon as one
    simulation record of the input lacks its 'metrics' entry, whatever the
    number of groups. *)
Theorem perform_anova_missing_metrics_entry :
  forall (f_oneway : list (list Q) -> float * float)
         (results : dict (dict Analytics.scenario_data)),
    all_have_metrics results = false ->
    Analytics.perform_anova f_oneway results = Raise (KeyError "metrics").
Proof.
  intros f_oneway results Hall.
  rewrite perform_anova_loop. unfold Analytics.metrics_list.
  cbn [fold_left].
  assert (Hstep : anova_step f_oneway results (Ok []) "average_delay"
                  = Raise (KeyError "metrics")).
  { unfold anova_step. simpl.
    now rewrite (collect_policy_data_key_error results "average_delay" Hall). }
  unfold dict in *. rewrite Hstep. reflexivity.
Qed.

Lemma perform_anova_missing_metrics_entry_witness :
  Analytics.perform_anova (f_oneway_returning 1 1)
    [("P1", [("baseline", Examples.record (Examples.mk 30 200 1500 45))]);
     ("P2", [("baseline", [("policy_config", [])])])]
  = Raise (KeyError "metrics").
Proof.
  apply perform_anova_missing_metrics_entry. reflexivity.
Defined.

(** X16.  Given two policy groups or more, each with at least one scenario
    and every record carrying 'metrics', [perform_anova] tests the four
    metrics average_delay, throughput, co2_emissions, average_speed in this
    order, each on the samples of that metric: one group per policy, whose
    size is the number of scenarios of the policy, with 0 for a record whose
    metrics lack the metric. *)
Theorem perform_anova_tests_every_metric :
  forall (f_oneway : list (list Q) -> float * float)
         (results : dict (dict Analytics.scenario_data)),
    (2 <= List.length results)%nat ->
    (forall ps, In ps results -> snd ps <> []) ->
    all_have_metrics results = true ->
    Analytics.perform_anova f_oneway results
    = Ok (map (fun metric =>
                 (metric, Analytics.anova_of f_oneway (samples results metric)))
              Analytics.metrics_list) /\
    forall metric,
      map (@List.length Q) (samples results metric)
      = map (fun ps => List.length (snd ps)) results.
Proof.
  intros f_oneway results Hlen Hne Hall. split.
  - rewrite perform_anova_loop. unfold Analytics.metrics_list.
    cbn [fold_left].
    rewrite !anova_step_tested by assumption.
    reflexivity.
  - intro metric. apply samples_length.
Qed.

Lemma perform_anova_tests_every_metric_witness :
  Analytics.perform_anova (f_oneway_returning 4.2 0.01) Examples.two_groups
  = Ok (map (fun metric =>
               (metric,
                Analytics.anova_of (f_oneway_returning 4.2 0.01)
                                   (samples Examples.two_groups metric)))
            Analytics.metrics_list).
Proof.
  apply (perform_anova_tests_every_metric
           (f_oneway_returning 4.2 0.01) Examples.two_groups).
  - simpl. lia.
  - simpl. intros ps [<-|[<-|[]]]; discriminate.
  - reflexivity.
Defined.

(** X17.  When some policy has no scenario at all, [perform_anova] tests
    nothing and returns the empty mapping, whatever the number of groups. *)
Theorem perform_anova_empty_group :
  forall (f_oneway : list (list Q) -> float * float)
         (results : dict (dict Analytics.scenario_data)),
    (exists ps, In ps results /\ snd ps = []) ->
    all_have_metrics results = true ->
    Analytics.perform_anova f_oneway results = Ok [].
Proof.
  intros f_oneway results Hempty Hall.
  rewrite perform_anova_loop.
  generalize (@nil (string * Analytics.anova_entry)) as acc.
  induction Analytics.metrics_list as [|metric rest IH]; intro acc.
  - reflexivity.
  - cbn [fold_left]. rewrite anova_step_empty_group by assumption. apply IH.
Qed.

Lemma perform_anova_empty_group_witness :
  Analytics.perform_anova (f_oneway_returning 1 1)
    (Examples.two_groups ++ [("P3", [])])%list
  = Ok [].
Proof.
  apply perform_anova_empty_group.
  - exists ("P3", []). split; [simpl; tauto | reflexivity].
  - reflexivity.
Defined.

(** ** The weighted score of the optimizer *)

Section WeightedScore.

Import Optimizer.

Lemma max2_0_eq (x : Q) : 0 <= x -> max2 0 x == x.
Proof.
  intro H. unfold max2. destruct (ltb 0 x) eqn:E; [reflexivity|].
  apply ltb_ge in E. lra.
Qed.

Lemma min2_100_eq (x : Q) : x <= 100 -> min2 100 x == x.
Proof.
  intro H. unfold min2. destruct (ltb x 100) eqn:E; [reflexivity|].
  apply ltb_ge in E. lra.
Qed.

Lemma clamp_0_100_bounds (x : Q) : 0 <= min2 100 (max2 0 x) <= 100.
Proof.
  unfold min2, max2.
  destruct (ltb 0 x) eqn:E0.
  - apply ltb_lt in E0. destruct (ltb x 100) eqn:E1.
    + apply ltb_lt in E1. lra.
    + lra.
  - destruct (ltb 0 100) eqn:E1; [lra | discriminate E1].
Qed.

Lemma clamp_0_100_eq (x : Q) : 0 <= x <= 100 -> min2 100 (max2 0 x) == x.
Proof.
  intros [H0 H1].
  rewrite min2_100_eq; [now apply max2_0_eq|].
  rewrite max2_0_eq by exact H0. exact H1.
Qed.

Lemma weighted_score_unfold (m : metrics) :
  calculate_weighted_score m None
  = min2 100
      (max2 0
         (0
          + max2 0 (100 - get_or m "average_delay" 0 / 3) * (1 / 4)
          + max2 0 (100 - get_or m "co2_emissions" 0 / 10) * (1 / 4)
          + min2 100 (get_or m "throughput" 0 / 20) * (1 / 4)
          + min2 100 (get_or m "average_speed" 0 / 0.6) * (1 / 4))).
Proof. reflexivity. Qed.

End WeightedScore.

(** X18.  [calculate_weighted_score] returns a value in [0, 100] for every
    metrics mapping and every weights mapping, whatever the signs and sizes
    of the values and weights: the aggregate is clamped at the end. *)
Theorem weighted_score_in_range :
  forall (m : metrics) (weights : option (dict Q)),
    0 <= Optimizer.calculate_weighted_score m weights <= 100.
Proof.
  intros m weights. unfold Optimizer.calculate_weighted_score.
  apply clamp_0_100_bounds.
Qed.

(** X19.  For a metrics mapping that has none of the four objectives,
    [calculate_weighted_score] with the default weights returns 50 where
    [calculate_composite_score] returns 25: the optimizer reads an absent
    delay or emission as 0, which earns the top sub-score 100, and the
    evaluator takes the mid-range values 150 and 500 instead. *)
Theorem weighted_and_composite_score_differ_on_absent_keys :
  forall m : metrics,
    get m "average_delay" = None -> get m "throughput" = None ->
    get m "co2_emissions" = None -> get m "average_speed" = None ->
    Optimizer.calculate_weighted_score m None == 50 /\
    Evaluator.calculate_composite_score m None == 25.
Proof.
  intros m Hd Ht He Hs. split.
  - rewrite weighted_score_unfold. unfold get_or.
    rewrite Hd, Ht, He, Hs. reflexivity.
  - rewrite composite_score_unfold. unfold get_or.
    rewrite Hd, Ht, He, Hs. reflexivity.
Qed.

Lemma weighted_and_composite_score_differ_on_absent_keys_witness :
  Optimizer.calculate_weighted_score [("total_travel_time", 2)] None == 50 /\
  Evaluator.calculate_composite_score [("total_travel_time", 2)] None == 25.
Proof.
  apply (weighted_and_composite_score_differ_on_absent_keys
           [("total_travel_time", 2)]); reflexivity.
Defined.

(** ** Climate scenarios *)

Section Climate.

Import ClimateScenarios.

Lemma known_scenario (scenario_name : string) :
  In scenario_name ["baseline"; "moderate"; "severe"; "extreme"] ->
  exists s, get CLIMATE_SCENARIOS scenario_name = Some s /\
            get_scenario scenario_name = Ok s /\
            0 <= capacity_reduction s <= 0.45 /\
            0 <= efficiency_loss s <= 0.35 /\
            1 <= emission_factor s <= 1.5.
Proof.
  simpl. intros [<-|[<-|[<-|[<-|[]]]]]; eexists;
    (split; [reflexivity|]); (split; [reflexivity|]);
    simpl; repeat split; discriminate.
Qed.

Lemma unknown_scenario (scenario_name : string) :
  ~ In scenario_name ["baseline"; "moderate"; "severe"; "extreme"] ->
  get_scenario scenario_name
  = Raise (ValueError
             ("Unknown scenario: " ++ scenario_name
              ++ ". Available: ['baseline', 'moderate', 'severe', 'extreme']")).
Proof.
  intro Hk. unfold get_scenario.
  assert (E : mem scenario_name (keys scenarios) = false).
  { destruct (mem scenario_name (keys scenarios)) eqn:M; [|reflexivity].
    apply mem_In in M. contradiction. }
  now rewrite E.
Qed.

End Climate.

(** X20.  [get_scenario] succeeds exactly on the four scenario names
    baseline, moderate, severe and extreme, and returns the entry of
    [CLIMATE_SCENARIOS]; for any other name it raises [ValueError] with a
    message that names the scenario asked for and lists the available ones,
    and [apply_capacity_reduction], [apply_efficiency_loss] and
    [get_emission_factor] raise the same error. *)
Theorem get_scenario_known_names :
  forall scenario_name : string,
    (In scenario_name ClimateScenarios.get_scenario_names
     <-> exists s, ClimateScenarios.get_scenario scenario_name = Ok s) /\
    (forall s, ClimateScenarios.get_scenario scenario_name = Ok s ->
               get ClimateScenarios.CLIMATE_SCENARIOS scenario_name = Some s) /\
    (~ In scenario_name ClimateScenarios.get_scenario_names ->
     let e := ValueError
                ("Unknown scenario: " ++ scenario_name
                 ++ ". Available: ['baseline', 'moderate', 'severe', 'extreme']") in
     ClimateScenarios.get_scenario scenario_name = Raise e /\
     (forall base, ClimateScenarios.apply_capacity_reduction base scenario_name
                   = Raise e) /\
     (forall base, ClimateScenarios.apply_efficiency_loss base scenario_name
                   = Raise e) /\
     ClimateScenarios.get_emission_factor scenario_name = Raise e).
Proof.
  intro scenario_name.
  change ClimateScenarios.get_scenario_names
    with ["baseline"; "moderate"; "severe"; "extreme"].
  destruct (in_dec string_dec scenario_name
              ["baseline"; "moderate"; "severe"; "extreme"]) as [Hin|Hnin].
  - destruct (known_scenario scenario_name Hin) as [s [Hget [Hs _]]].
    split; [|split].
    + split; [intros _; now exists s | intros _; exact Hin].
    + intros s' Hs'. congruence.
    + intro H. contradiction.
  - pose proof (unknown_scenario scenario_name Hnin) as Hraise.
    split; [|split].
    + split; [intro H; contradiction|].
      intros [s Hs]. rewrite Hraise in Hs. discriminate Hs.
    + intros s Hs. rewrite Hraise in Hs. discriminate Hs.
    + intros _. cbv zeta.
      unfold ClimateScenarios.apply_capacity_reduction,
        ClimateScenarios.apply_efficiency_loss,
        ClimateScenarios.get_emission_factor.
      rewrite Hraise. repeat split; reflexivity.
Qed.

Lemma get_scenario_known_names_witness :
  ClimateScenarios.get_scenario "tropical"
  = Raise (ValueError
             "Unknown scenario: tropical. Available: ['baseline', 'moderate', 'severe', 'extreme']").
Proof.
  apply (proj2 (proj2 (get_scenario_known_names "tropical"))).
  simpl. intros [H|[H|[H|[H|[]]]]]; discriminate H.
Defined.

(** X21.  For every scenario of the table and every base value that is not
    negative, climate stress never raises capacity or speed and never
    lowers emissions: the adjusted capacity lies between 55% and 100% of
    the base, the adjusted speed between 65% and 100%, the emission factor
    between 1 and 1.5; the baseline scenario changes nothing. *)
Theorem climate_stress_bounds :
  forall (scenario_name : string) (base : Q),
    In scenario_name ClimateScenarios.get_scenario_names ->
    0 <= base ->
    exists capacity speed factor,
      ClimateScenarios.apply_capacity_reduction base scenario_name = Ok capacity /\
      ClimateScenarios.apply_efficiency_loss base scenario_name = Ok speed /\
      ClimateScenarios.get_emission_factor scenario_name = Ok factor /\
      0.55 * base <= capacity <= base /\
      0.65 * base <= speed <= base /\
      1 <= factor <= 1.5 /\
      (scenario_name = "baseline" ->
       capacity == base /\ speed == base /\ factor == 1).
Proof.
  intros scenario_name base Hin Hbase.
  destruct (known_scenario scenario_name Hin)
    as [s [Hget [Hs [[Hc0 Hc1] [[He0 He1] [Hf0 Hf1]]]]]].
  unfold ClimateScenarios.apply_capacity_reduction,
    ClimateScenarios.apply_efficiency_loss,
    ClimateScenarios.get_emission_factor.
  rewrite Hs. simpl.
  do 3 eexists. repeat (split; [reflexivity|]).
  split; [|split; [|split]].
  - split; nra.
  - split; nra.
  - now split.
  - intros ->. simpl in Hget. injection Hget as <-. simpl.
    repeat split; ring.
Qed.

Lemma climate_stress_bounds_witness :
  exists capacity speed factor,
    ClimateScenarios.apply_capacity_reduction 1800 "severe" = Ok capacity /\
    ClimateScenarios.apply_efficiency_loss 1800 "severe" = Ok speed /\
    ClimateScenarios.get_emission_factor "severe" = Ok factor /\
    0.55 * 1800 <= capacity <= 1800 /\
    0.65 * 1800 <= speed <= 1800 /\
    1 <= factor <= 1.5 /\
    ("severe" = "baseline" ->
     capacity == 1800 /\ speed == 1800 /\ factor == 1).
Proof.
  apply (climate_stress_bounds "severe" 1800).
  - simpl. tauto.
  - discriminate.
Defined.

(** X22.  [compare_scenarios] returns one entry per scenario of the table,
    in the table's order.  The adjusted value of an entry agrees with
    [apply_capacity_reduction], [apply_efficiency_loss] and
    [get_emission_factor] for the metric names capacity, speed and
    emissions; for any other metric name nothing changes.  The percent
    change is 0 for a base value of 0, and for capacity it is minus the
    capacity reduction in percent, whatever the base value. *)
Theorem compare_scenarios_entries :
  forall (base : Q) (metric_name scenario_name : string)
         (s : ClimateScenarios.scenario),
    get ClimateScenarios.CLIMATE_SCENARIOS scenario_name = Some s ->
    keys (ClimateScenarios.compare_scenarios base metric_name)
    = ClimateScenarios.get_scenario_names /\
    exists e,
      get (ClimateScenarios.compare_scenarios base metric_name) scenario_name
      = Some e /\
      ClimateScenarios.base_value e = base /\
      ClimateScenarios.change e = ClimateScenarios.adjusted_value e - base /\
      (metric_name = "capacity" ->
       ClimateScenarios.apply_capacity_reduction base scenario_name
       = Ok (ClimateScenarios.adjusted_value e) /\
       (~ base == 0 ->
        ClimateScenarios.percent_change e
        == - (100 * ClimateScenarios.capacity_reduction s))) /\
      (metric_name = "speed" ->
       ClimateScenarios.apply_efficiency_loss base scenario_name
       = Ok (ClimateScenarios.adjusted_value e)) /\
      (metric_name = "emissions" ->
       exists factor,
         ClimateScenarios.get_emission_factor scenario_name = Ok factor /\
         ClimateScenarios.adjusted_value e = base * factor) /\
      (~ In metric_name ["capacity"; "speed"; "emissions"] ->
       ClimateScenarios.adjusted_value e = base /\
       ClimateScenarios.percent_change e == 0) /\
      (base == 0 -> ClimateScenarios.percent_change e = 0).
Proof.
  intros base metric_name scenario_name s Hget.
  split; [reflexivity|].
  assert (Hin : In scenario_name ["baseline"; "moderate"; "severe"; "extreme"]).
  { apply (get_in_keys ClimateScenarios.CLIMATE_SCENARIOS scenario_name s Hget). }
  assert (Hentry :
    get (ClimateScenarios.compare_scenarios base metric_name) scenario_name
    = Some (ClimateScenarios.scenario_impact base metric_name s)).
  { simpl in Hin.
    destruct Hin as [<-|[<-|[<-|[<-|[]]]]];
      simpl in Hget; injection Hget as <-; reflexivity. }
  destruct (known_scenario scenario_name Hin) as [s' [Hget' [Hs _]]].
  assert (s' = s) by congruence. subst s'.
  exists (ClimateScenarios.scenario_impact base metric_name s).
  split; [exact Hentry|].
  split; [reflexivity|]. split; [reflexivity|].
  split; [|split; [|split; [|split]]].
  - intros ->. split.
    + unfold ClimateScenarios.apply_capacity_reduction. rewrite Hs. reflexivity.
    + intro Hb. simpl.
      assert (E : eqb base 0 = false).
      { unfold eqb. destruct (Qeq_bool base 0) eqn:B; [|reflexivity].
        apply Qeq_bool_eq in B. contradiction. }
      rewrite E. simpl. field. exact Hb.
  - intros ->. unfold ClimateScenarios.apply_efficiency_loss. rewrite Hs.
    reflexivity.
  - intros ->. eexists. split.
    + unfold ClimateScenarios.get_emission_factor. rewrite Hs. reflexivity.
    + reflexivity.
  - intro Hm.
    assert (E1 : String.eqb metric_name "capacity" = false).
    { apply String.eqb_neq. intro E. apply Hm. rewrite E. simpl. tauto. }
    assert (E2 : String.eqb metric_name "speed" = false).
    { apply String.eqb_neq. intro E. apply Hm. rewrite E. simpl. tauto. }
    assert (E3 : String.eqb metric_name "emissions" = false).
    { apply String.eqb_neq. intro E. apply Hm. rewrite E. simpl. tauto. }
    unfold ClimateScenarios.scenario_impact. rewrite E1, E2, E3. simpl.
    split; [reflexivity|].
    destruct (eqb base 0) eqn:B; simpl; [reflexivity|].
    unfold eqb in B. apply Qeq_bool_neq in B. field. exact B.
  - intro Hb. simpl.
    assert (E : eqb base 0 = true) by (unfold eqb; now apply Qeq_bool_iff).
    now rewrite E.
Qed.

Lemma compare_scenarios_entries_witness :
  keys (ClimateScenarios.compare_scenarios 1800 "capacity")
  = ClimateScenarios.get_scenario_names.
Proof.
  apply (compare_scenarios_entries 1800 "capacity" "extreme"
           {| ClimateScenarios.name := "Extreme Climate Stress";
              ClimateScenarios.capacity_reduction := 0.45;
              ClimateScenarios.efficiency_loss := 0.35;
              ClimateScenarios.emission_factor := 1.50 |}).
  reflexivity.
Defined.

(** ** Validating a policy configuration *)

Section ValidatePolicy.

Import PolicyGenerator.

Lemma first_missing_none (fields : list string) (policy : dict value) :
  first_missing fields policy = None
  <-> forall field, In field fields -> In field (keys policy).
Proof.
  induction fields as [|f fields IH]; simpl.
  - split; [intros _ field [] | reflexivity].
  - destruct (mem f (keys policy)) eqn:E; simpl.
    + apply mem_In in E. rewrite IH. split.
      * intros H field [<-|Hf]; [exact E | now apply H].
      * intros H field Hf. apply H. now right.
    + split; [discriminate|].
      intro H. specialize (H f (or_introl eq_refl)).
      apply mem_In in H. congruence.
Qed.

Lemma first_missing_some (before : list string) (field : string)
    (after : list string) (policy : dict value) :
  (forall g, In g before -> In g (keys policy)) ->
  ~ In field (keys policy) ->
  first_missing (before ++ field :: after) policy = Some field.
Proof.
  induction before as [|g before IH]; intros Hbefore Hmissing; simpl.
  - destruct (mem field (keys policy)) eqn:E; [|reflexivity].
    apply mem_In in E. contradiction.
  - assert (E : mem g (keys policy) = true)
      by (apply mem_In; apply Hbefore; now left).
    rewrite E. simpl. apply IH; [|exact Hmissing].
    intros g' Hg'. apply Hbefore. now right.
Qed.

End ValidatePolicy.

(** X23.  [validate_policy] never fails.  It accepts a policy exactly when
    the four fields policy_name, policy_type, description and parameters are
    present and the value of parameters is a dictionary.  When a field is
    absent the message names the first absent one in that order; when only
    the type of parameters is wrong the message says so. *)
Theorem validate_policy_accepts_well_formed :
  forall policy : dict PolicyGenerator.value,
    exists is_valid message,
      PolicyGenerator.validate_policy policy = Ok (is_valid, message) /\
      (is_valid = true
       <-> (forall field, In field PolicyGenerator.required_fields ->
                          In field (keys policy)) /\
           exists entries,
             get policy "parameters" = Some (PolicyGenerator.VDict entries)) /\
      (is_valid = true -> message = "Policy configuration is valid") /\
      (forall before field after,
          PolicyGenerator.required_fields = (before ++ field :: after)%list ->
          (forall g, In g before -> In g (keys policy)) ->
          ~ In field (keys policy) ->
          is_valid = false /\
          message = "Missing required field: " ++ field) /\
      ((forall field, In field PolicyGenerator.required_fields ->
                      In field (keys policy)) ->
       is_valid = false -> message = "Parameters must be a dictionary").
Proof.
  intro policy. unfold PolicyGenerator.validate_policy.
  destruct (PolicyGenerator.first_missing PolicyGenerator.required_fields policy)
    as [missing|] eqn:E.
  - exists false, ("Missing required field: " ++ missing).
    split; [reflexivity|].
    assert (Hnot : ~ forall field, In field PolicyGenerator.required_fields ->
                                   In field (keys policy)).
    { intro H. apply first_missing_none in H. congruence. }
    split; [|split; [|split]].
    + split; [discriminate | intros [H _]; contradiction].
    + discriminate.
    + intros before field after Hfields Hbefore Hmissing.
      rewrite Hfields in E.
      rewrite (first_missing_some before field after policy Hbefore Hmissing) in E.
      injection E as <-. now split.
    + intro H. contradiction.
  - pose proof (proj1 (first_missing_none _ _) E) as Hall.
    destruct (in_keys_get policy "parameters") as [v Hv].
    { apply Hall. simpl. tauto. }
    unfold item. rewrite Hv. simpl.
    assert (Hno : forall before field after,
      PolicyGenerator.required_fields = (before ++ field :: after)%list ->
      (forall g, In g before -> In g (keys policy)) ->
      ~ In field (keys policy) -> False).
    { intros before field after Hfields _ Hmissing. apply Hmissing.
      apply Hall. rewrite Hfields. apply in_or_app. right. now left. }
    destruct v as [| b | q | s | items | entries]; simpl;
      try (eexists; eexists; split; [reflexivity|];
           split; [split; [discriminate | intros [_ [entries H]]; discriminate H]|];
           split; [discriminate|];
           split; [intros before field after H1 H2 H3;
                   exfalso; exact (Hno before field after H1 H2 H3)|];
           intros _ _; reflexivity).
    eexists; eexists; split; [reflexivity|].
    split; [split; [intros _; split; [exact Hall | now exists entries]
                   | reflexivity]|].
    split; [reflexivity|].
    split; [intros before field after H1 H2 H3;
            exfalso; exact (Hno before field after H1 H2 H3)|].
    intros _ H. discriminate H.
Qed.

Lemma validate_policy_accepts_well_formed_witness :
  exists is_valid message,
    PolicyGenerator.validate_policy
      [("policy_name", PolicyGenerator.VStr "Adaptive signals");
       ("policy_type", PolicyGenerator.VStr "Signal Timing Optimization");
       ("parameters", PolicyGenerator.VDict [])]
    = Ok (is_valid, message) /\
    is_valid = false /\ message = "Missing required field: description".
Proof.
  destruct (validate_policy_accepts_well_formed
              [("policy_name", PolicyGenerator.VStr "Adaptive signals");
               ("policy_type", PolicyGenerator.VStr "Signal Timing Optimization");
               ("parameters", PolicyGenerator.VDict [])])
    as [is_valid [message [H [_ [_ [Hmissing _]]]]]].
  exists is_valid, message. split; [exact H|].
  apply (Hmissing ["policy_name"; "policy_type"] "description" ["parameters"]).
  - reflexivity.
  - simpl. intros g [<-|[<-|[]]]; tauto.
  - simpl. intros [E|[E|[E|[]]]]; discriminate E.
Defined.

(** ** Metrics of a simulation batch *)

Section CalculateMetrics.

Import Evaluator.

Lemma column_In (field : vehicle -> option Q) (df : list vehicle) (x : Q) :
  In x (column field df) <-> exists v, In v df /\ field v = Some x.
Proof.
  unfold column. rewrite in_flat_map. split.
  - intros [v [Hv Hx]]. exists v. split; [exact Hv|].
    destruct (field v) as [y|]; [|contradiction].
    destruct Hx as [<-|[]]. reflexivity.
  - intros [v [Hv Hx]]. exists v. split; [exact Hv|].
    rewrite Hx. now left.
Qed.

Lemma has_column_nonempty (field : vehicle -> option Q) (df : list vehicle) :
  has_column field df = true -> column field df <> [].
Proof.
  unfold has_column. rewrite existsb_exists.
  intros [v [Hv Hf]] E.
  destruct (field v) as [x|] eqn:Ef; [|discriminate Hf].
  assert (Hin : In x (column field df)) by (apply column_In; now exists v).
  rewrite E in Hin. exact Hin.
Qed.


Lemma sum_nonnegative (xs : list Q) :
  (forall x, In x xs -> 0 <= x) -> 0 <= Py.sum xs.
Proof.
  induction xs as [|x xs IH]; intro H.
  - unfold Py.sum. simpl. lra.
  - rewrite sum_cons.
    assert (0 <= x) by (apply H; now left).
    assert (0 <= Py.sum xs) by (apply IH; intros y Hy; apply H; now right).
    lra.
Qed.

Lemma length_positive {A} (xs : list A) :
  xs <> [] -> 0 < inject_Z (Z.of_nat (List.length xs)).
Proof.
  intro H. destruct xs as [|x xs]; [congruence|].
  rewrite <- (Zlt_Qlt 0). simpl. lia.
Qed.


(** The five values computed for a batch that is not empty. *)
Lemma calculate_metrics_nonempty (data : simulation_data) :
  vehicles data <> [] -> ~ total_time data == 0 ->
  calculate_metrics data
  = Ok [("average_delay",
         if has_column delay (vehicles data)
         then mean (column delay (vehicles data)) else 0.0);
        ("throughput",
         inject_Z (Z.of_nat (List.length (filter completed (vehicles data))))
         / total_time data * 3600);
        ("co2_emissions",
         if has_column co2_emissions (vehicles data)
         then Py.sum (column co2_emissions (vehicles data)) / 1000
         else if has_column distance (vehicles data)
              then Py.sum (column distance (vehicles data)) / 1000 * 0.12
              else 0.0);
        ("average_speed",
         if has_column speed (vehicles data)
         then mean (column speed (vehicles data)) * 3.6 else 0.0);
        ("total_travel_time",
         if has_column travel_time (vehicles data)
         then Py.sum (column travel_time (vehicles data)) / 3600 else 0.0)].
Proof.
  intros Hne Ht. unfold calculate_metrics.
  destruct (vehicles data) as [|v vs] eqn:E; [congruence|].
  unfold div.
  assert (Hz : eqb (total_time data) 0 = false).
  { unfold eqb. destruct (Qeq_bool (total_time data) 0) eqn:B; [|reflexivity].
    apply Qeq_bool_eq in B. contradiction. }
  rewrite Hz. reflexivity.
Qed.

End CalculateMetrics.

(** X24.  [calculate_metrics] returns the five metrics average_delay,
    throughput, co2_emissions, average_speed and total_travel_time, all 0,
    for an empty batch, whatever the simulation time.  For a batch that is
    not empty, of vehicle records that all carry the flag completed, it
    returns a mapping with exactly these five keys when the simulation time
    is not 0, and fails with [ZeroDivisionError] when it is 0. *)
Theorem calculate_metrics_keys_and_errors :
  forall data : Evaluator.simulation_data,
    (Evaluator.vehicles data = [] ->
     Evaluator.calculate_metrics data = Ok Evaluator._get_empty_metrics /\
     keys Evaluator._get_empty_metrics
     = ["average_delay"; "throughput"; "co2_emissions"; "average_speed";
        "total_travel_time"] /\
     forall k x, In (k, x) Evaluator._get_empty_metrics -> x == 0) /\
    (Evaluator.vehicles data <> [] -> ~ Evaluator.total_time data == 0 ->
     exists m,
       Evaluator.calculate_metrics data = Ok m /\
       keys m = ["average_delay"; "throughput"; "co2_emissions";
                 "average_speed"; "total_travel_time"]) /\
    (Evaluator.vehicles data <> [] -> Evaluator.total_time data == 0 ->
     Evaluator.calculate_metrics data = Raise ZeroDivisionError).
Proof.
  intro data. split; [|split].
  - intro Hempty. split; [|split].
    + unfold Evaluator.calculate_metrics. now rewrite Hempty.
    + reflexivity.
    + simpl. intros k x [E|[E|[E|[E|[E|[]]]]]]; injection E as _ <-; reflexivity.
  - intros Hne Ht. eexists. split.
    + now apply calculate_metrics_nonempty.
    + reflexivity.
  - intros Hne Ht. unfold Evaluator.calculate_metrics.
    destruct (Evaluator.vehicles data) as [|v vs]; [congruence|].
    unfold div.
    assert (Hz : eqb (Evaluator.total_time data) 0 = true)
      by (unfold eqb; now apply Qeq_bool_iff).
    now rewrite Hz.
Qed.

Lemma calculate_metrics_keys_and_errors_witness :
  Evaluator.calculate_metrics
    {| Evaluator.vehicles :=
         [{| Evaluator.delay := Some 12; Evaluator.speed := Some 9;
             Evaluator.travel_time := Some 80; Evaluator.distance := Some 700;
             Evaluator.co2_emissions := Some 120;
             Evaluator.completed := true |}];
       Evaluator.simulation_time := Some 0 |}
  = Raise ZeroDivisionError.
Proof.
  apply (proj2 (proj2 (calculate_metrics_keys_and_errors _))).
  - discriminate.
  - reflexivity.
Defined.

(** X25.  For a batch of vehicle records that all carry the flag
    completed and whose values are not negative, and a positive simulation
    time, every metric that [calculate_metrics] returns is not negative, and
    the throughput is at most the number of vehicles of the batch per
    simulation time, scaled to the hour. *)
Theorem calculate_metrics_nonnegative :
  forall data : Evaluator.simulation_data,
    0 < Evaluator.total_time data ->
    (forall v, In v (Evaluator.vehicles data) -> nonnegative_vehicle v) ->
    exists m,
      Evaluator.calculate_metrics data = Ok m /\
      (forall k x, In (k, x) m -> 0 <= x) /\
      (forall x, get m "throughput" = Some x ->
         x <= inject_Z (Z.of_nat (List.length (Evaluator.vehicles data)))
              / Evaluator.total_time data * 3600).
Proof.
  intros data Ht Hnn.
  destruct (Evaluator.vehicles data) as [|v0 vs0] eqn:Ev.
  - exists Evaluator._get_empty_metrics. split; [|split].
    + unfold Evaluator.calculate_metrics. now rewrite Ev.
    + simpl. intros k x [E|[E|[E|[E|[E|[]]]]]]; injection E as _ <-; discriminate.
    + simpl. intros x E. injection E as <-.
      assert (H0 : inject_Z 0 / Evaluator.total_time data * 3600 == 0)
        by (unfold Qdiv; change (inject_Z 0) with 0; ring).
      rewrite H0. discriminate.
  - rewrite <- Ev in *.
    assert (Hne : Evaluator.vehicles data <> []) by (rewrite Ev; discriminate).
    assert (Hcol : forall field,
              In field [Evaluator.delay; Evaluator.speed; Evaluator.travel_time;
                        Evaluator.distance; Evaluator.co2_emissions] ->
              forall x, In x (Evaluator.column field (Evaluator.vehicles data)) ->
                        0 <= x).
    { intros field Hf x Hx. apply column_In in Hx.
      destruct Hx as [v [Hv Hx]]. exact (Hnn v Hv field x Hf Hx). }
    assert (Hmean : forall field,
              In field [Evaluator.delay; Evaluator.speed; Evaluator.travel_time;
                        Evaluator.distance; Evaluator.co2_emissions] ->
              Evaluator.has_column field (Evaluator.vehicles data) = true ->
              0 <= Evaluator.mean
                     (Evaluator.column field (Evaluator.vehicles data))).
    { intros field Hf Hc. unfold Evaluator.mean.
      apply Qle_shift_div_l.
      - apply length_positive. now apply has_column_nonempty.
      - rewrite Qmult_0_l. apply sum_nonnegative. now apply Hcol. }
    assert (Hsum : forall field,
              In field [Evaluator.delay; Evaluator.speed; Evaluator.travel_time;
                        Evaluator.distance; Evaluator.co2_emissions] ->
              0 <= Py.sum (Evaluator.column field (Evaluator.vehicles data))).
    { intros field Hf. apply sum_nonnegative. now apply Hcol. }
    assert (Hcount :
      0 <= inject_Z (Z.of_nat (List.length
                                 (filter Evaluator.completed
                                         (Evaluator.vehicles data))))
      /\ inject_Z (Z.of_nat (List.length
                               (filter Evaluator.completed
                                       (Evaluator.vehicles data))))
         <= inject_Z (Z.of_nat (List.length (Evaluator.vehicles data)))).
    { pose proof (filter_length_le_all Evaluator.completed
                    (Evaluator.vehicles data)) as Hle.
      split; [rewrite <- (Zle_Qle 0); lia | rewrite <- Zle_Qle; lia]. }
    eexists. split; [apply calculate_metrics_nonempty; [exact Hne | lra]|].
    split.
    + intros k x Hin. simpl in Hin.
      destruct Hin as [E|[E|[E|[E|[E|[]]]]]]; injection E as _ <-.
      * destruct (Evaluator.has_column Evaluator.delay _) eqn:C;
          [apply Hmean; [simpl; tauto | exact C] | discriminate].
      * apply Qmult_le_0_compat; [|discriminate].
        apply Qle_shift_div_l; [exact Ht|]. rewrite Qmult_0_l. apply Hcount.
      * destruct (Evaluator.has_column Evaluator.co2_emissions _).
        -- apply Qle_shift_div_l; [reflexivity|]. rewrite Qmult_0_l.
           apply Hsum. simpl. tauto.
        -- destruct (Evaluator.has_column Evaluator.distance _); [|discriminate].
           apply Qmult_le_0_compat; [|discriminate].
           apply Qle_shift_div_l; [reflexivity|]. rewrite Qmult_0_l.
           apply Hsum. simpl. tauto.
      * destruct (Evaluator.has_column Evaluator.speed _) eqn:C; [|discriminate].
        apply Qmult_le_0_compat; [|discriminate].
        apply Hmean; [simpl; tauto | exact C].
      * destruct (Evaluator.has_column Evaluator.travel_time _); [|discriminate].
        apply Qle_shift_div_l; [reflexivity|]. rewrite Qmult_0_l.
        apply Hsum. simpl. tauto.
    + simpl. intros x E. injection E as <-.
      apply Qmult_le_compat_r; [|discriminate].
      unfold Qdiv. apply Qmult_le_compat_r; [apply Hcount|].
      apply Qlt_le_weak. now apply Qinv_lt_0_compat.
Qed.

Lemma calculate_metrics_nonnegative_witness :
  exists m,
    Evaluator.calculate_metrics
      {| Evaluator.vehicles :=
           [{| Evaluator.delay := Some 12; Evaluator.speed := Some 9;
               Evaluator.travel_time := Some 80;
               Evaluator.distance := Some 700;
               Evaluator.co2_emissions := None;
               Evaluator.completed := true |};
            {| Evaluator.delay := Some 30; Evaluator.speed := None;
               Evaluator.travel_time := Some 95;
               Evaluator.distance := Some 900;
               Evaluator.co2_emissions := None;
               Evaluator.completed := false |}];
         Evaluator.simulation_time := Some 1800 |} = Ok m /\
    (forall k x, In (k, x) m -> 0 <= x) /\
    (forall x, get m "throughput" = Some x -> x <= (2 # 1) / 1800 * 3600).
Proof.
  apply (calculate_metrics_nonnegative
           {| Evaluator.vehicles :=
                [{| Evaluator.delay := Some 12; Evaluator.speed := Some 9;
                    Evaluator.travel_time := Some 80;
                    Evaluator.distance := Some 700;
                    Evaluator.co2_emissions := None;
                    Evaluator.completed := true |};
                 {| Evaluator.delay := Some 30; Evaluator.speed := None;
                    Evaluator.travel_time := Some 95;
                    Evaluator.distance := Some 900;
                    Evaluator.co2_emissions := None;
                    Evaluator.completed := false |}];
              Evaluator.simulation_time := Some 1800 |}).
  - reflexivity.
  - intros v [<-|[<-|[]]] field x Hf Hx; simpl in Hf;
      destruct Hf as [<-|[<-|[<-|[<-|[<-|[]]]]]]; simpl in Hx;
      try discriminate Hx; injection Hx as <-; discriminate.
Defined.

Section MetricsThenCompare.

Import Evaluator.

Lemma calculate_metrics_keys (data : simulation_data) (m : metrics) :
  calculate_metrics data = Ok m ->
  keys m = ["average_delay"; "throughput"; "co2_emissions"; "average_speed";
            "total_travel_time"].
Proof.
  unfold calculate_metrics.
  destruct (vehicles data) as [|v vs].
  - intro H. injection H as <-. reflexivity.
  - unfold div. destruct (eqb (total_time data) 0); simpl; intro H.
    + discriminate H.
    + injection H as <-. reflexivity.
Qed.

Lemma calculate_metrics_empty_values (data : simulation_data) (m : metrics) :
  vehicles data = [] -> calculate_metrics data = Ok m ->
  forall k, In k (keys m) -> get m k = Some 0.0.
Proof.
  intros Hempty H. unfold calculate_metrics in H. rewrite Hempty in H.
  injection H as <-. simpl.
  intros k [<-|[<-|[<-|[<-|[<-|[]]]]]]; reflexivity.
Qed.

(** With every key of the baseline in the policy, the comparison loop ends
    without exception, key by key. *)
Lemma compare_policies_total (b p : metrics) :
  wf b -> (forall k, In k (keys b) -> In k (keys p)) ->
  exists cmp,
    compare_policies b p = Ok cmp /\ keys cmp = keys b /\
    forall k, In k (keys b) ->
      exists e, compare_metric b p k = Ok e /\ get cmp k = Some e.
Proof.
  intros Hwf Hsub.
  destruct (compare_loop b p (keys b)) with (cmp0 := @nil (string * comparison))
    as [cmp [Hfold [Hin _]]].
  { intros k Hk. destruct (in_keys_get b k Hk) as [bv Hbv].
    destruct (in_keys_get p k (Hsub k Hk)) as [pv Hpv].
    destruct (compare_metric_ok b p k bv pv Hbv Hpv) as [e [He _]].
    now exists e. }
  exists cmp. split; [exact Hfold|]. split; [|exact Hin].
  now apply (compare_loop_keys b p (keys b) [] cmp).
Qed.

End MetricsThenCompare.

(** X26.  The metrics that [calculate_metrics] returns for two batches can
    always be compared: [compare_policies] fails neither with [KeyError] nor
    with [ZeroDivisionError], and its result has the five metric keys.  When
    the baseline batch is empty, the percent change of a metric is 0 where
    the policy value is 0 and 100 where it is not. *)
Theorem calculate_metrics_results_comparable :
  forall (baseline_data policy_data : Evaluator.simulation_data)
         (b p : metrics),
    Evaluator.calculate_metrics baseline_data = Ok b ->
    Evaluator.calculate_metrics policy_data = Ok p ->
    exists cmp,
      Evaluator.compare_policies b p = Ok cmp /\
      keys cmp = ["average_delay"; "throughput"; "co2_emissions";
                  "average_speed"; "total_travel_time"] /\
      (Evaluator.vehicles baseline_data = [] ->
       forall k e pv,
         get cmp k = Some e -> get p k = Some pv ->
         (pv == 0 -> Evaluator.percent_change e == 0) /\
         (~ pv == 0 -> Evaluator.percent_change e == 100)).
Proof.
  intros bd pd b p Hb Hp.
  pose proof (calculate_metrics_keys bd b Hb) as Kb.
  pose proof (calculate_metrics_keys pd p Hp) as Kp.
  destruct (compare_policies_total b p) as [cmp [Hcmp [Hkeys Hin]]].
  - unfold wf. rewrite Kb.
    repeat constructor; simpl; intuition discriminate.
  - intros k Hk. rewrite Kp. now rewrite Kb in Hk.
  - exists cmp. split; [exact Hcmp|]. split; [now rewrite Hkeys|].
    intros Hempty k e pv Hget Hpv.
    assert (Hk : In k (keys b)).
    { rewrite <- Hkeys. now apply (get_in_keys cmp k e). }
    pose proof (calculate_metrics_empty_values bd b Hempty Hb k Hk) as Hbv.
    destruct (compare_metric_ok b p k 0.0 pv Hbv Hpv)
      as [e' [He' [_ [_ [_ [_ [Hz [Hnz _]]]]]]]].
    destruct (Hin k Hk) as [e'' [He'' Hget'']].
    assert (E : e = e') by congruence. subst e'.
    split; [apply Hz | apply Hnz]; reflexivity.
Qed.

Lemma calculate_metrics_results_comparable_witness :
  exists cmp,
    Evaluator.compare_policies
      Evaluator._get_empty_metrics
      [("average_delay", 12 / inject_Z 1); ("throughput", inject_Z 1 / 1800 * 3600);
       ("co2_emissions", 0 + 700 / 1000 * 0.12);
       ("average_speed", 0.0); ("total_travel_time", (0 + 80) / 3600)]
    = Ok cmp /\
    keys cmp = ["average_delay"; "throughput"; "co2_emissions";
                "average_speed"; "total_travel_time"].
Proof.
  destruct (calculate_metrics_results_comparable
              {| Evaluator.vehicles := [];
                 Evaluator.simulation_time := Some 0 |}
              {| Evaluator.vehicles :=
                   [{| Evaluator.delay := Some 12; Evaluator.speed := None;
                       Evaluator.travel_time := Some 80;
                       Evaluator.distance := Some 700;
                       Evaluator.co2_emissions := None;
                       Evaluator.completed := true |}];
                 Evaluator.simulation_time := Some 1800 |}
              _ _ eq_refl eq_refl) as [cmp [H [K _]]].
  exists cmp. split; [exact H | exact K].
Defined.

(** ** Sensitivity analysis *)

Section Sensitivity.

Import Analytics.

Lemma mapM_Forall2 {A B} (f : A -> result B) (P : A -> B -> Prop)
    (xs : list A) :
  (forall x, In x xs -> exists y, f x = Ok y /\ P x y) ->
  exists ys, mapM f xs = Ok ys /\ Forall2 P xs ys.
Proof.
  induction xs as [|x xs IH]; intro H.
  - exists []. split; [reflexivity | constructor].
  - destruct (H x (or_introl eq_refl)) as [y [Hy HP]].
    destruct IH as [ys [Hys HF]]; [intros x' Hx'; apply H; now right|].
    exists (y :: ys). simpl. rewrite Hy, Hys. simpl.
    split; [reflexivity | now constructor].
Qed.

Lemma imul_ok (d : metrics) (k : string) (v x : Q) :
  get d k = Some v -> imul d k (Ok x) = Ok (set d k (v * x)).
Proof. intro H. unfold imul, item. now rewrite H. Qed.

Lemma relative_change_ok (varied base : metrics) (k : string) (v b : Q) :
  get varied k = Some v -> get base k = Some b -> ~ b == 0 ->
  relative_change varied base k = Ok ((v - b) / b * 100).
Proof.
  intros Hv Hb Hne. unfold relative_change, item, div, eqb.
  rewrite Hv, Hb. simpl.
  destruct (Qeq_bool b 0) eqn:E; [|reflexivity].
  apply Qeq_bool_eq in E. contradiction.
Qed.


Variable base : metrics.
Variables vd vt ve vs : Q.
Hypothesis Hd : get base "average_delay" = Some vd.
Hypothesis Ht : get base "throughput" = Some vt.
Hypothesis He : get base "co2_emissions" = Some ve.
Hypothesis Hs : get base "average_speed" = Some vs.

(** The varied metrics, branch by branch. *)
Lemma apply_parameter_variation_ok (p : string) (f : Q) :
  (mentions "signal" p || mentions "timing" p = false ->
   mentions "speed" p = false -> mentions "capacity" p = true ->
   ~ f == 0) ->
  exists varied d t e,
    _apply_parameter_variation base p f = Ok varied /\
    get varied "average_delay" = Some d /\
    get varied "throughput" = Some t /\
    get varied "co2_emissions" = Some e /\
    (if mentions "signal" p || mentions "timing" p
     then d == vd * (1 + (f - 1) * 0.5) /\ t == vt * (1 - (f - 1) * 0.3) /\
          e == ve
     else if mentions "speed" p
     then d == vd /\ t == vt /\ e == ve * (1 + (f - 1) * 0.4)
     else if mentions "capacity" p
     then d == vd * (1 / f) /\ t == vt * f /\ e == ve
     else d == vd /\ t == vt /\ e == ve).
Proof.
  intro Hf. unfold _apply_parameter_variation.
  destruct (mentions "signal" p || mentions "timing" p) eqn:C1.
  - rewrite (imul_ok base "average_delay" vd _ Hd). cbn [bind].
    erewrite imul_ok
      by (rewrite get_set_other by discriminate; exact Ht).
    do 4 eexists. split; [reflexivity|].
    rewrite get_set_other by discriminate. rewrite get_set_same.
    rewrite get_set_same.
    rewrite !get_set_other by discriminate.
    split; [reflexivity|]. split; [reflexivity|]. split; [exact He|].
    repeat split; reflexivity.
  - destruct (mentions "speed" p) eqn:C2.
    + rewrite (imul_ok base "average_speed" vs _ Hs). cbn [bind].
      erewrite imul_ok
        by (rewrite get_set_other by discriminate; exact He).
      do 4 eexists. split; [reflexivity|].
      rewrite get_set_same.
      rewrite !get_set_other by discriminate.
      split; [exact Hd|]. split; [exact Ht|]. split; [reflexivity|].
      repeat split; reflexivity.
    + destruct (mentions "capacity" p) eqn:C3.
      * rewrite (imul_ok base "throughput" vt _ Ht). cbn [bind].
        unfold imul at 1, item.
        rewrite get_set_other by discriminate. rewrite Hd. cbn [bind].
        unfold div, eqb.
        destruct (Qeq_bool f 0) eqn:E;
          [apply Qeq_bool_eq in E; now destruct (Hf eq_refl eq_refl eq_refl)|].
        cbn [bind].
        do 4 eexists. split; [reflexivity|].
        rewrite get_set_same.
        rewrite get_set_other by discriminate. rewrite get_set_same.
        rewrite !get_set_other by discriminate.
        split; [reflexivity|]. split; [reflexivity|]. split; [exact He|].
        repeat split; reflexivity.
      * exists base, vd, vt, ve. split; [reflexivity|].
        repeat split; try assumption; reflexivity.
Qed.


Hypothesis Hd0 : ~ vd == 0.
Hypothesis Ht0 : ~ vt == 0.
Hypothesis He0 : ~ ve == 0.

Lemma sensitivity_row_ok (p : string) (f : Q) :
  (mentions "signal" p || mentions "timing" p = false ->
   mentions "speed" p = false -> mentions "capacity" p = true ->
   ~ f == 0) ->
  exists row,
    sensitivity_row_for base (p, f) = Ok row /\
    parameter row = p /\ variation_factor row = f /\ row_as_expected row.
Proof.
  intro Hf.
  destruct (apply_parameter_variation_ok p f Hf)
    as [varied [d [t [e [Hvar [Gd [Gt [Ge Hval]]]]]]]].
  unfold sensitivity_row_for. rewrite Hvar. cbn [bind].
  rewrite (relative_change_ok varied base "average_delay" d vd Gd Hd Hd0).
  rewrite (relative_change_ok varied base "throughput" t vt Gt Ht Ht0).
  rewrite (relative_change_ok varied base "co2_emissions" e ve Ge He He0).
  cbn [bind]. eexists. split; [reflexivity|].
  split; [reflexivity|]. split; [reflexivity|].
  unfold row_as_expected, expected_changes.
  cbn [parameter variation_factor delay_change throughput_change
       emissions_change].
  destruct (mentions "signal" p || mentions "timing" p).
  - destruct Hval as [-> [-> ->]]. repeat split; field; assumption.
  - destruct (mentions "speed" p).
    + destruct Hval as [-> [-> ->]]. repeat split; field; assumption.
    + destruct (mentions "capacity" p) eqn:C.
      * destruct Hval as [-> [-> ->]].
        pose proof (Hf eq_refl eq_refl eq_refl) as Hf0.
        repeat split; field; try assumption; split; assumption.
      * destruct Hval as [-> [-> ->]]. repeat split; field; assumption.
Qed.

End Sensitivity.

(** X27.  For base metrics whose delay, throughput and emissions are not 0
    and that have the average speed, parameter names in ASCII, and factors
    that are not 0 for the parameters that mention "capacity" (in any
    letter case), [perform_sensitivity_analysis]
    returns one row per parameter and factor, in order, and the changes of a
    row depend on the parameter name and the factor only, not on the base
    metrics: 50 (f - 1), -30 (f - 1) and 0 percent for a name that mentions
    "signal" or "timing"; otherwise 0, 0 and 40 (f - 1) for one that mentions
    "speed"; otherwise (1 / f - 1) 100, (f - 1) 100 and 0 for one that
    mentions "capacity"; and no change for any other name. *)
Theorem sensitivity_changes_depend_on_factor_only :
  forall (base : metrics) (parameter_variations : dict (list Q)),
    (forall k, In k ["average_delay"; "throughput"; "co2_emissions"] ->
               exists v, get base k = Some v /\ ~ v == 0) ->
    (exists v, get base "average_speed" = Some v) ->
    (forall p fs f,
        In (p, fs) parameter_variations -> In f fs ->
        Analytics.mentions "capacity" p = true -> ~ f == 0) ->
    exists rows,
      Analytics.perform_sensitivity_analysis base parameter_variations
      = Ok rows /\
      map (fun row => (Analytics.parameter row,
                       Analytics.variation_factor row)) rows
      = Analytics.variations parameter_variations /\
      forall row, In row rows -> row_as_expected row.
Proof.
  intros base pv Hkeys [vs Hs] Hf.
  destruct (Hkeys "average_delay") as [vd [Hd Hd0]]; [simpl; tauto|].
  destruct (Hkeys "throughput") as [vt [Ht Ht0]]; [simpl; tauto|].
  destruct (Hkeys "co2_emissions") as [ve [He He0]]; [simpl; tauto|].
  destruct (mapM_Forall2 (Analytics.sensitivity_row_for base)
              (fun pf row => Analytics.parameter row = fst pf /\
                             Analytics.variation_factor row = snd pf /\
                             row_as_expected row)
              (Analytics.variations pv)) as [rows [Hrows HF]].
  { intros [p f] Hin. unfold Analytics.variations in Hin.
    apply in_flat_map in Hin. destruct Hin as [[p' fs] [Hpv Hin]].
    apply in_map_iff in Hin. destruct Hin as [f' [E Hf']].
    simpl in E. injection E as -> ->.
    apply (sensitivity_row_ok base vd vt ve vs Hd Ht He Hs Hd0 Ht0 He0 p f).
    intros _ _ Hc. exact (Hf p fs f Hpv Hf' Hc). }
  exists rows. split; [exact Hrows|]. split.
  - clear Hrows. induction HF as [|[p f] row pfs rows' [Hp [Hv _]] _ IH];
      [reflexivity|].
    simpl in *. now rewrite Hp, Hv, IH.
  - intros row Hin. clear Hrows.
    induction HF as [|pf row' pfs rows' [_ [_ Hrow]] _ IH]; [contradiction|].
    destruct Hin as [<-|Hin]; [exact Hrow | now apply IH].
Qed.

Lemma sensitivity_changes_depend_on_factor_only_witness :
  exists rows,
    Analytics.perform_sensitivity_analysis
      [("average_delay", 45); ("throughput", 1200); ("co2_emissions", 450);
       ("average_speed", 35)]
      [("Signal_Timing", [1.1; 0.9]); ("road capacity", [2]);
       ("speed_limit", [0])]
    = Ok rows /\
    map (fun row => (Analytics.parameter row,
                     Analytics.variation_factor row)) rows
    = [("Signal_Timing", 1.1); ("Signal_Timing", 0.9); ("road capacity", 2);
       ("speed_limit", 0)] /\
    forall row, In row rows -> row_as_expected row.
Proof.
  apply (sensitivity_changes_depend_on_factor_only
           [("average_delay", 45); ("throughput", 1200);
            ("co2_emissions", 450); ("average_speed", 35)]
           [("Signal_Timing", [1.1; 0.9]); ("road capacity", [2]);
            ("speed_limit", [0])]).
  - simpl. intros k [<-|[<-|[<-|[]]]]; eexists; (split; [reflexivity|]);
      intro H; discriminate H.
  - eexists. reflexivity.
  - simpl. intros p fs f [E|[E|[E|[]]]] Hin Hc; injection E as <- <-;
      simpl in Hin; try discriminate Hc.
    destruct Hin as [<-|[]]. intro H. discriminate H.
Defined.



(** ** Confidence intervals *)

Section ConfidenceIntervals.

Import Analytics.

Lemma set_set {V} (d : dict V) (k : string) (v v' : V) :
  set (set d k v) k v' = set d k v'.
Proof.
  induction d as [|[k0 v0] d IH]; simpl.
  - now rewrite String.eqb_refl.
  - destruct (String.eqb k k0) eqn:E; simpl; rewrite E; [reflexivity|].
    now rewrite IH.
Qed.

Lemma keys_set {V} (d : dict V) (k : string) (v : V) :
  keys (set d k v) = if mem k (keys d) then keys d else (keys d ++ [k])%list.
Proof.
  induction d as [|[k0 v0] d IH]; simpl; [reflexivity|].
  unfold mem in *. simpl.
  destruct (String.eqb k k0) eqn:E; simpl; [reflexivity|].
  rewrite IH. now destruct (existsb (String.eqb k) (keys d)).
Qed.

Lemma wf_set {V} (d : dict V) (k : string) (v : V) :
  wf d -> wf (set d k v).
Proof.
  unfold wf. intro H. rewrite keys_set.
  destruct (mem k (keys d)) eqn:E; [exact H|].
  apply NoDup_app; [exact H | repeat constructor; intros [] |].
  intros k' Hk' [<-|[]].
  apply mem_In in Hk'. congruence.
Qed.

Lemma values_of_wf (m : metrics) (k : string) :
  wf m ->
  values_of m k = match get m k with Some v => [v] | None => [] end.
Proof.
  unfold wf, values_of.
  induction m as [|[k0 v0] m IH]; intro H; simpl; [reflexivity|].
  inversion H as [|? ? Hnin Hnd]; subst.
  destruct (String.eqb k k0) eqn:E; simpl.
  - apply String.eqb_eq in E. subst k0.
    rewrite filter_none; [reflexivity|].
    intros [k1 v1] Hin. simpl.
    destruct (String.eqb k k1) eqn:E1; [|reflexivity].
    apply String.eqb_eq in E1. subst k1.
    exfalso. apply Hnin. unfold keys. apply in_map_iff.
    now exists (k, v1).
  - now apply IH.
Qed.

Lemma record_value_ok (md : dict (list Q)) (metric : string) (value : Q) :
  exists md',
    record_value md (metric, value) = Ok md' /\
    (wf md -> wf md') /\
    forall k, get_or md' k []
              = (get_or md k []
                 ++ if String.eqb k metric then [value] else [])%list.
Proof.
  unfold record_value.
  destruct (mem metric (keys md)) eqn:E; simpl.
  - apply mem_In in E. destruct (in_keys_get md metric E) as [l Hl].
    unfold item. rewrite Hl. simpl. eexists. split; [reflexivity|].
    split; [apply wf_set|].
    intro k. unfold get_or.
    destruct (String.eqb k metric) eqn:Ek.
    + apply String.eqb_eq in Ek. subst k.
      now rewrite get_set_same, Hl.
    + apply String.eqb_neq in Ek.
      rewrite get_set_other by exact Ek. now rewrite app_nil_r.
  - unfold item. rewrite get_set_same. simpl.
    eexists. split; [reflexivity|].
    split; [intro H; now do 2 apply wf_set|].
    assert (Hnone : get md metric = None).
    { apply get_none. intro Hin. apply mem_In in Hin. congruence. }
    intro k. unfold get_or. rewrite set_set.
    destruct (String.eqb k metric) eqn:Ek.
    + apply String.eqb_eq in Ek. subst k.
      now rewrite get_set_same, Hnone.
    + apply String.eqb_neq in Ek.
      rewrite get_set_other by exact Ek. now rewrite app_nil_r.
Qed.

Lemma record_values_ok (m : metrics) :
  forall md : dict (list Q),
  exists md',
    fold_left (fun acc' metric_value =>
                 metrics_data <- acc' ;;
                 record_value metrics_data metric_value)
              m (Ok md) = Ok md' /\
    (wf md -> wf md') /\
    forall k, get_or md' k [] = (get_or md k [] ++ values_of m k)%list.
Proof.
  induction m as [|[metric value] m IH]; intro md.
  - exists md. split; [reflexivity|]. split; [tauto|].
    intro k. unfold values_of. simpl. now rewrite app_nil_r.
  - destruct (record_value_ok md metric value) as [md1 [H1 [W1 G1]]].
    destruct (IH md1) as [md' [H' [W' G']]].
    exists md'. cbn [fold_left bind]. rewrite H1.
    split; [exact H'|]. split; [tauto|].
    intro k. rewrite G', G1. unfold values_of. simpl.
    rewrite <- app_assoc.
    now destruct (String.eqb k metric).
Qed.

Lemma collect_loop_raise (ds : list scenario_data) (e : exn) :
  fold_left
    (fun acc data =>
       metrics_data <- acc ;;
       m <- item data "metrics" ;;
       fold_left (fun acc' metric_value =>
                    metrics_data <- acc' ;;
                    record_value metrics_data metric_value)
                 m (Ok metrics_data))
    ds (Raise e) = Raise e.
Proof. induction ds as [|d ds IH]; simpl; [reflexivity | exact IH]. Qed.

Lemma collect_loop_ok (ds : list scenario_data) :
  (forall data, In data ds ->
                exists m, get data "metrics" = Some m /\ wf m) ->
  forall md : dict (list Q),
  exists md',
    fold_left
      (fun acc data =>
         metrics_data <- acc ;;
         m <- item data "metrics" ;;
         fold_left (fun acc' metric_value =>
                      metrics_data <- acc' ;;
                      record_value metrics_data metric_value)
                   m (Ok metrics_data))
      ds (Ok md) = Ok md' /\
    (wf md -> wf md') /\
    forall k,
      get_or md' k []
      = (get_or md k []
         ++ flat_map (fun data =>
                        match get (get_or data "metrics" []) k with
                        | Some value => [value]
                        | None => []
                        end) ds)%list.
Proof.
  induction ds as [|data ds IH]; intros Hm md.
  - exists md. split; [reflexivity|]. split; [tauto|].
    intro k. simpl. now rewrite app_nil_r.
  - destruct (Hm data (or_introl eq_refl)) as [m [Hget Hwf]].
    destruct (record_values_ok m md) as [md1 [H1 [W1 G1]]].
    destruct (IH (fun d Hd => Hm d (or_intror Hd)) md1) as [md' [H' [W' G']]].
    exists md'. cbn [fold_left bind]. unfold item.
    unfold scenario_data, metrics, dict in *. rewrite Hget.
    cbn [bind]. rewrite H1.
    split; [exact H'|]. split; [tauto|].
    intro k. rewrite G', G1. cbn [flat_map].
    rewrite <- app_assoc. f_equal. f_equal.
    unfold get_or at 1. rewrite Hget.
    now apply values_of_wf.
Qed.

Lemma collect_metrics_data_ok (scenarios : dict scenario_data) :
  (forall data, In data (values scenarios) ->
                exists m, get data "metrics" = Some m /\ wf m) ->
  exists md,
    collect_metrics_data scenarios = Ok md /\ wf md /\
    forall k, get_or md k [] = metric_samples scenarios k.
Proof.
  intro Hm.
  destruct (collect_loop_ok (values scenarios) Hm []) as [md [H [W G]]].
  exists md. split; [exact H|]. split; [apply W; constructor|].
  intro k. now rewrite G.
Qed.

Lemma collect_loop_cases (ds : list scenario_data) :
  forall md : dict (list Q),
    (forallb has_metrics ds = true ->
     exists md',
       fold_left
         (fun acc data =>
            metrics_data <- acc ;;
            m <- item data "metrics" ;;
            fold_left (fun acc' metric_value =>
                         metrics_data <- acc' ;;
                         record_value metrics_data metric_value)
                      m (Ok metrics_data))
         ds (Ok md) = Ok md') /\
    (forallb has_metrics ds = false ->
     fold_left
       (fun acc data =>
          metrics_data <- acc ;;
          m <- item data "metrics" ;;
          fold_left (fun acc' metric_value =>
                       metrics_data <- acc' ;;
                       record_value metrics_data metric_value)
                    m (Ok metrics_data))
       ds (Ok md) = Raise (KeyError "metrics")).
Proof.
  induction ds as [|data ds IH]; intro md.
  - split; [now exists md | discriminate].
  - cbn [forallb fold_left bind]. unfold has_metrics at 1 3, item.
    unfold scenario_data, metrics, dict in *.
    destruct (get data "metrics") as [m|] eqn:Hget; cbn [bind andb].
    + destruct (record_values_ok m md) as [md1 [H1 _]].
      unfold scenario_data, metrics, dict in *. rewrite H1.
      exact (IH md1).
    + split; [discriminate|]. intros _. apply collect_loop_raise.
Qed.

Lemma collect_metrics_data_cases (scenarios : dict scenario_data) :
  (forallb has_metrics (values scenarios) = true ->
   exists md, collect_metrics_data scenarios = Ok md) /\
  (forallb has_metrics (values scenarios) = false ->
   collect_metrics_data scenarios = Raise (KeyError "metrics")).
Proof. exact (collect_loop_cases (values scenarios) []). Qed.

Variable sem : list Q -> Q.
Variable t_interval : Q -> nat -> Q -> Q -> Q * Q.

Lemma confidence_loop_raise (confidence : Q)
    (results : dict (dict scenario_data)) (e : exn) :
  fold_left
    (fun acc policy_scenarios =>
       ci_results <- acc ;;
       let ci_results := set ci_results (fst policy_scenarios) [] in
       metrics_data <- collect_metrics_data (snd policy_scenarios) ;;
       Ok (set ci_results (fst policy_scenarios)
               (policy_intervals sem t_interval confidence metrics_data)))
    results (Raise e) = Raise e.
Proof. induction results as [|r rs IH]; simpl; [reflexivity | exact IH]. Qed.

Lemma confidence_loop_key_error (confidence : Q)
    (results : dict (dict scenario_data)) :
  all_have_metrics results = false ->
  forall ci0 : dict (dict interval),
    fold_left
      (fun acc policy_scenarios =>
         ci_results <- acc ;;
         let ci_results := set ci_results (fst policy_scenarios) [] in
         metrics_data <- collect_metrics_data (snd policy_scenarios) ;;
         Ok (set ci_results (fst policy_scenarios)
                 (policy_intervals sem t_interval confidence metrics_data)))
      results (Ok ci0) = Raise (KeyError "metrics").
Proof.
  unfold all_have_metrics.
  induction results as [|[policy scenarios] results IH]; intros Hall ci0;
    [discriminate Hall|].
  cbn [forallb fst snd] in Hall. cbn [fold_left bind fst snd].
  destruct (collect_metrics_data_cases scenarios) as [Hok Hraise].
  destruct (forallb has_metrics (values scenarios)) eqn:E.
  - destruct (Hok eq_refl) as [md Hmd]. rewrite Hmd. cbn [bind].
    apply IH. exact Hall.
  - rewrite (Hraise eq_refl). cbn [bind]. apply confidence_loop_raise.
Qed.

Lemma policy_intervals_loop (confidence : Q) (md : dict (list Q)) :
  wf md ->
  forall (acc : dict interval) (k : string),
    get (fold_left
           (fun entries metric_values =>
              if (1 <? List.length (snd metric_values))%nat
              then set entries (fst metric_values)
                       (interval_of sem t_interval confidence
                                    (snd metric_values))
              else entries)
           md acc) k
    = match get md k with
      | Some l => if (1 <? List.length l)%nat
                  then Some (interval_of sem t_interval confidence l)
                  else get acc k
      | None => get acc k
      end.
Proof.
  unfold wf. induction md as [|[k0 l0] md IH]; intros Hwf acc k;
    [reflexivity|].
  inversion Hwf as [|? ? Hnin Hnd]; subst.
  cbn [fold_left fst snd get]. rewrite (IH Hnd).
  destruct (String.eqb k k0) eqn:E.
  - apply String.eqb_eq in E. subst k0.
    rewrite (get_none md k Hnin).
    destruct (1 <? List.length l0)%nat; [apply get_set_same | reflexivity].
  - destruct (get md k) as [l|]; [destruct (1 <? List.length l)%nat|];
      try reflexivity;
      (destruct (1 <? List.length l0)%nat; [|reflexivity];
       apply get_set_other; now apply String.eqb_neq).
Qed.

Lemma policy_intervals_get (confidence : Q) (md : dict (list Q))
    (k : string) :
  wf md ->
  get (policy_intervals sem t_interval confidence md) k
  = if (1 <? List.length (get_or md k []))%nat
    then Some (interval_of sem t_interval confidence (get_or md k []))
    else None.
Proof.
  intro Hwf. unfold policy_intervals.
  rewrite (policy_intervals_loop confidence md Hwf [] k).
  unfold get_or. destruct (get md k) as [l|]; [|reflexivity].
  now destruct (1 <? List.length l)%nat.
Qed.

Lemma confidence_loop (confidence : Q)
    (results : dict (dict scenario_data)) :
  (forall policy scenarios data,
      In (policy, scenarios) results -> In data (values scenarios) ->
      exists m, get data "metrics" = Some m /\ wf m) ->
  forall ci0 : dict (dict interval),
    NoDup (keys ci0 ++ keys results) ->
    exists ci,
      fold_left
        (fun acc policy_scenarios =>
           ci_results <- acc ;;
           let ci_results := set ci_results (fst policy_scenarios) [] in
           metrics_data <- collect_metrics_data (snd policy_scenarios) ;;
           Ok (set ci_results (fst policy_scenarios)
                   (policy_intervals sem t_interval confidence metrics_data)))
        results (Ok ci0) = Ok ci /\
      keys ci = (keys ci0 ++ keys results)%list /\
      (forall policy, ~ In policy (keys results) ->
                      get ci policy = get ci0 policy) /\
      forall policy scenarios,
        In (policy, scenarios) results ->
        exists entries,
          get ci policy = Some entries /\
          forall metric,
            get entries metric
            = if (1 <? List.length (metric_samples scenarios metric))%nat
              then Some (interval_of sem t_interval confidence
                                     (metric_samples scenarios metric))
              else None.
Proof.
  induction results as [|[policy scenarios] results IH]; intros Hm ci0 Hnd.
  - exists ci0. split; [reflexivity|]. split; [now rewrite app_nil_r|].
    split; [reflexivity | intros ? ? []].
  - destruct (collect_metrics_data_ok scenarios) as [md [Hmd [Wmd Gmd]]].
    { intros data Hd. apply (Hm policy scenarios data); [now left | exact Hd]. }
    assert (Hfresh : ~ In policy (keys ci0)).
    { intro Hin. simpl in Hnd. apply NoDup_remove_2 in Hnd. apply Hnd.
      apply in_or_app. now left. }
    assert (Hfresh' : ~ In policy (keys results)).
    { intro Hin. simpl in Hnd. apply NoDup_remove_2 in Hnd. apply Hnd.
      apply in_or_app. now right. }
    pose (entries := policy_intervals sem t_interval confidence md).
    destruct (IH (fun p s d Hp Hd => Hm p s d (or_intror Hp) Hd)
                 (ci0 ++ [(policy, entries)])%list)
      as [ci [Hci [Kci [Oci Eci]]]].
    { unfold keys in *. rewrite map_app. simpl. rewrite <- app_assoc.
      exact Hnd. }
    exists ci. cbn [fold_left bind fst snd]. rewrite Hmd. cbn [bind].
    rewrite set_set, (set_fresh ci0 policy _ Hfresh).
    split; [exact Hci|]. split.
    { rewrite Kci. unfold keys. rewrite map_app. simpl.
      now rewrite <- app_assoc. }
    split.
    { intros p Hp. rewrite Oci by (intro; apply Hp; now right).
      rewrite <- (set_fresh ci0 policy entries Hfresh).
      apply get_set_other. intro E. apply Hp. now left. }
    intros p s [E|Hin].
    + injection E as <- <-. exists entries. split.
      * rewrite (Oci policy Hfresh').
        rewrite <- (set_fresh ci0 policy entries Hfresh).
        apply get_set_same.
      * intro metric. unfold entries.
        rewrite (policy_intervals_get confidence md metric Wmd).
        now rewrite Gmd.
    + exact (Eci p s Hin).
Qed.

End ConfidenceIntervals.

(** X29.  When every simulation record has its 'metrics' entry,
    [calculate_confidence_intervals] returns one entry per policy, in the
    order of the input, and the entry of a policy has an interval for a
    metric exactly when two or more of the policy's scenarios report the
    metric: it is computed from these values in the order of the scenarios,
    and a metric with a single value, or every metric of a policy with a
    single scenario, has none. *)
Theorem confidence_intervals_need_two_samples :
  forall (sem : list Q -> Q) (t_interval : Q -> nat -> Q -> Q -> Q * Q)
         (results : dict (dict Analytics.scenario_data)) (confidence : Q),
    wf results ->
    (forall policy scenarios data,
        In (policy, scenarios) results -> In data (values scenarios) ->
        exists m, get data "metrics" = Some m /\ wf m) ->
    exists ci,
      Analytics.calculate_confidence_intervals sem t_interval results
                                               confidence = Ok ci /\
      keys ci = keys results /\
      forall policy scenarios,
        get results policy = Some scenarios ->
        exists entries,
          get ci policy = Some entries /\
          forall metric,
            ((List.length (metric_samples scenarios metric) < 2)%nat ->
             get entries metric = None) /\
            ((2 <= List.length (metric_samples scenarios metric))%nat ->
             get entries metric
             = Some (Analytics.interval_of sem t_interval confidence
                       (metric_samples scenarios metric))).
Proof.
  intros sem t_interval results confidence Hwf Hm.
  destruct (confidence_loop sem t_interval confidence results Hm [])
    as [ci [Hci [Kci [_ Eci]]]]; [exact Hwf|].
  exists ci. split; [exact Hci|]. split; [exact Kci|].
  intros policy scenarios Hget.
  destruct (Eci policy scenarios (get_in results policy scenarios Hget))
    as [entries [He Hentries]].
  exists entries. split; [exact He|].
  intro metric. rewrite Hentries. split; intro Hlen.
  - destruct (Nat.ltb_spec 1 (List.length (metric_samples scenarios metric)));
      [lia | reflexivity].
  - destruct (Nat.ltb_spec 1 (List.length (metric_samples scenarios metric)));
      [reflexivity | lia].
Qed.

Lemma confidence_intervals_need_two_samples_witness :
  exists ci,
    Analytics.calculate_confidence_intervals
      (fun _ => 1) (fun _ _ loc scale => (loc - scale, loc + scale))
      [("P1", [("baseline", Examples.record (Examples.mk 30 200 1500 45));
               ("extreme", Examples.record (Examples.mk 50 260 1300 38))]);
       ("P2", [("baseline", Examples.record (Examples.mk 28 210 1450 44))])]
      0.95 = Ok ci /\
    keys ci = ["P1"; "P2"] /\
    (exists entries,
        get ci "P2" = Some entries /\
        get entries "average_delay" = None).
Proof.
  destruct (confidence_intervals_need_two_samples
              (fun _ => 1) (fun _ _ loc scale => (loc - scale, loc + scale))
              [("P1", [("baseline",
                        Examples.record (Examples.mk 30 200 1500 45));
                       ("extreme",
                        Examples.record (Examples.mk 50 260 1300 38))]);
               ("P2", [("baseline",
                        Examples.record (Examples.mk 28 210 1450 44))])]
              0.95) as [ci [Hci [Kci Eci]]].
  - repeat constructor; simpl; intuition discriminate.
  - simpl.
    intros policy scenarios data [E|[E|[]]] Hd; injection E as <- <-;
      simpl in Hd; destruct Hd as [<-|Hd];
      try (destruct Hd as [<-|[]]); try contradiction;
      (eexists; split; [reflexivity|]);
      repeat constructor; simpl; intuition discriminate.
  - exists ci. split; [exact Hci|]. split; [exact Kci|].
    destruct (Eci "P2" _ eq_refl) as [entries [He Hentries]].
    exists entries. split; [exact He|].
    apply (proj1 (Hentries "average_delay")). simpl. lia.
Defined.

(** X30.  [calculate_confidence_intervals] fails with [KeyError('metrics')]
    as soon as one simulation record of the input lacks its 'metrics'
    entry; the intervals of the policies before it are lost. *)
Theorem confidence_intervals_missing_metrics_entry :
  forall (sem : list Q -> Q) (t_interval : Q -> nat -> Q -> Q -> Q * Q)
         (results : dict (dict Analytics.scenario_data)) (confidence : Q),
    all_have_metrics results = false ->
    Analytics.calculate_confidence_intervals sem t_interval results confidence
    = Raise (KeyError "metrics").
Proof.
  intros sem t_interval results confidence Hall.
  exact (confidence_loop_key_error sem t_interval confidence results Hall []).
Qed.

Lemma confidence_intervals_missing_metrics_entry_witness :
  Analytics.calculate_confidence_intervals
    (fun _ => 1) (fun _ _ loc scale => (loc - scale, loc + scale))
    [("P1", [("baseline", Examples.record (Examples.mk 30 200 1500 45));
             ("extreme", Examples.record (Examples.mk 50 260 1300 38))]);
     ("P2", [("baseline", [("policy_config", [])])])]
    0.95
  = Raise (KeyError "metrics").
Proof.
  apply confidence_intervals_missing_metrics_entry. reflexivity.
Defined.

(** * The evaluator on binary64 values *)

Section Binary64.

Import Evaluator64.

Lemma sub_self_finite (v : float) :
  finite64 v = true -> (v - v)%float = 0%float.
Proof.
  unfold finite64. intro H. apply Prim2SF_inj. rewrite sub_spec.
  destruct (Prim2SF v) as [s|s| |s m e]; try discriminate H.
  - now destruct s.
  - unfold SF64sub, SFsub. cbv zeta. now rewrite Z.sub_diag.
Qed.

Lemma sub_self_not_finite (v : float) :
  finite64 v = false -> Prim2SF (v - v)%float = S754_nan.
Proof.
  unfold finite64. intro H. rewrite sub_spec.
  destruct (Prim2SF v) as [s|s| |s m e]; try discriminate H.
  - now destruct s.
  - reflexivity.
Qed.

Lemma sub_self_cases (v : float) :
  (v - v)%float = 0%float \/ Prim2SF (v - v)%float = S754_nan.
Proof.
  destruct (finite64 v) eqn:E.
  - left. now apply sub_self_finite.
  - right. now apply sub_self_not_finite.
Qed.

Lemma nan_not_below (x : float) :
  Prim2SF x = S754_nan ->
  (x <? 0)%float = false /\ (0 <? x)%float = false /\
  (x =? 0)%float = false /\ is_nan x = true.
Proof.
  intro H. unfold is_nan. rewrite !ltb_spec, !eqb_spec, H.
  repeat split; reflexivity.
Qed.

Lemma is_improvement_self (k : string) (v : float) :
  _is_improvement k (v - v)%float = false.
Proof.
  unfold _is_improvement.
  destruct (sub_self_cases v) as [-> | H].
  - destruct (mem k _); [reflexivity|]. destruct (mem k _); reflexivity.
  - destruct (nan_not_below _ H) as [H1 [H2 _]]. rewrite H1, H2.
    destruct (mem k _); [reflexivity|]. destruct (mem k _); reflexivity.
Qed.

(** A zero divided by a finite value that is not zero, times 100, is a
    zero. *)
Lemma zero_percent (v : float) :
  finite64 v = true -> (v =? 0)%float = false ->
  (0 / v * 100 =? 0)%float = true.
Proof.
  unfold finite64. intros H Hz.
  rewrite eqb_spec in Hz. rewrite eqb_spec, mul_spec, div_spec.
  destruct (Prim2SF v) as [s|s| |s m e]; try discriminate H.
  - now destruct s.
  - now destruct s.
Qed.

Lemma nan_percent (x v : float) :
  Prim2SF x = S754_nan -> Prim2SF (x / v * 100)%float = S754_nan.
Proof.
  intro H. rewrite mul_spec, div_spec, H. reflexivity.
Qed.

(** The loop body never fails when both dicts have the key: the division
    is reached only with a divisor that is not zero. *)
Lemma compare_metric_ok64 (b p : metrics) (k : string) (bv pv : float) :
  get b k = Some bv -> get p k = Some pv ->
  exists e,
    compare_metric b p k = Ok e /\
    baseline e = bv /\ policy e = pv /\
    absolute_change e = (pv - bv)%float /\
    is_improvement e = _is_improvement k (pv - bv)%float /\
    percent_change e
    = if (bv =? 0)%float
      then (if (pv =? 0)%float then 0%float else 100%float)
      else ((pv - bv) / bv * 100)%float.
Proof.
  intros Hb Hp. unfold compare_metric, item. rewrite Hb, Hp.
  cbn [bind]. unfold Py64.div.
  destruct (bv =? 0)%float; cbn [negb bind];
    (eexists; split; [reflexivity|]; repeat split; reflexivity).
Qed.

(** The loop of [compare_policies], for any body that succeeds on the
    keys. *)
Lemma compare_loop64 (b p : metrics) (ks : list string) :
  (forall k, In k ks -> exists e, compare_metric b p k = Ok e) ->
  forall cmp0, exists cmp,
    fold_left
      (fun acc metric_key =>
         comparison <- acc ;;
         entry <- compare_metric b p metric_key ;;
         Ok (set comparison metric_key entry))
      ks (Ok cmp0) = Ok cmp /\
    (forall k, In k ks ->
       exists e, compare_metric b p k = Ok e /\ get cmp k = Some e) /\
    (forall k, ~ In k ks -> get cmp k = get cmp0 k).
Proof.
  induction ks as [|k ks IH]; intros Hok cmp0.
  - exists cmp0. simpl. split; [reflexivity|].
    split; [intros k [] | reflexivity].
  - destruct (Hok k (or_introl eq_refl)) as [e He].
    destruct (IH (fun k' Hin => Hok k' (or_intror Hin)) (set cmp0 k e))
      as [cmp [Hfold [Hin Hout]]].
    exists cmp. cbn [fold_left bind]. rewrite He. cbn [bind].
    split; [exact Hfold|]. split.
    + intros k' Hk'.
      destruct (in_dec string_dec k' ks) as [Hks|Hks]; [now apply Hin|].
      destruct Hk' as [<-|Hk']; [|contradiction].
      exists e. split; [exact He|].
      rewrite (Hout k Hks). apply get_set_same.
    + intros k' Hk'. rewrite Hout by (intro; apply Hk'; now right).
      apply get_set_other. intro E. apply Hk'. now left.
Qed.

Lemma compare_policies_ok64 (b p : metrics) :
  (forall k, In k (keys b) -> In k (keys p)) ->
  exists cmp,
    compare_policies b p = Ok cmp /\
    forall k, In k (keys b) ->
      exists e, compare_metric b p k = Ok e /\ get cmp k = Some e.
Proof.
  intro Hsub.
  destruct (compare_loop64 b p (keys b)) with (cmp0 := @nil (string * comparison))
    as [cmp [Hfold [Hin _]]].
  { intros k Hk. destruct (in_keys_get b k Hk) as [bv Hbv].
    destruct (in_keys_get p k (Hsub k Hk)) as [pv Hpv].
    destruct (compare_metric_ok64 b p k bv pv Hbv Hpv) as [e [He _]].
    now exists e. }
  exists cmp. split; [exact Hfold | exact Hin].
Qed.

(** NaN in, NaN out: the sum of the weighted sub-scores. *)
Lemma add_nan_l (x y : float) :
  Prim2SF x = S754_nan -> Prim2SF (x + y)%float = S754_nan.
Proof. intro H. rewrite add_spec, H. reflexivity. Qed.

End Binary64.

Lemma add_nan_r (x y : float) :
  Prim2SF y = S754_nan -> Prim2SF (x + y)%float = S754_nan.
Proof.
  intro H. rewrite add_spec, H. now destruct (Prim2SF x).
Qed.

Lemma round2_nan (x : float) :
  Prim2SF x = S754_nan -> Prim2SF (Py64.round2 x) = S754_nan.
Proof. intro H. unfold Py64.round2. now rewrite H. Qed.

(** The score with the default weights, written out. *)
Lemma composite_score_unfold64 (m : Evaluator64.metrics) :
  Evaluator64.calculate_composite_score m None
  = Py64.round2
      (0
       + (300 - Py64.min2 (Py64.max2 (get_or m "average_delay" 150) 0) 300)
         / 300 * 100 * 0.25
       + Py64.min2 (Py64.max2 (get_or m "throughput" 0) 0) 2000
         / 2000 * 100 * 0.25
       + (1000 - Py64.min2 (Py64.max2 (get_or m "co2_emissions" 500) 0) 1000)
         / 1000 * 100 * 0.25
       + Py64.min2 (Py64.max2 (get_or m "average_speed" 0) 0) 60
         / 60 * 100 * 0.25)%float.
Proof. reflexivity. Qed.

(** C5 fails on the code.  The docstring of [calculate_composite_score]
    promises a score from 0 to 100, and the clamp [min(max(x, 0), hi)] is
    meant to give it for every value; but [max] and [min] keep their first
    argument when the comparison fails, so a NaN in one of the four metrics
    passes the clamp and the score is NaN, neither at least 0 nor at most
    100, whatever the other metrics are.  ([calculate_weighted_score] in the
    optimizer clamps with the constant first, [max(0, x)], and stays in
    range.) *)
Theorem composite_score_nan_input :
  forall (m : Evaluator64.metrics) (k : string),
    In k ["average_delay"; "throughput"; "co2_emissions"; "average_speed"] ->
    get m k = Some nan ->
    is_nan (Evaluator64.calculate_composite_score m None) = true /\
    (0 <=? Evaluator64.calculate_composite_score m None)%float = false /\
    (Evaluator64.calculate_composite_score m None <=? 100)%float = false.
Proof.
  intros m k Hk Hnan.
  assert (H : Prim2SF (Evaluator64.calculate_composite_score m None)
              = S754_nan).
  { rewrite composite_score_unfold64. apply round2_nan.
    simpl in Hk. destruct Hk as [<-|[<-|[<-|[<-|[]]]]].
    - unfold get_or at 1. rewrite Hnan.
      apply add_nan_l, add_nan_l, add_nan_l. reflexivity.
    - unfold get_or at 2. rewrite Hnan.
      apply add_nan_l, add_nan_l, add_nan_r. reflexivity.
    - unfold get_or at 3. rewrite Hnan.
      apply add_nan_l, add_nan_r. reflexivity.
    - unfold get_or at 4. rewrite Hnan.
      apply add_nan_r. reflexivity. }
  unfold is_nan. rewrite eqb_spec, !leb_spec, H. repeat split.
Qed.

Lemma composite_score_nan_input_witness :
  is_nan (Evaluator64.calculate_composite_score [("average_delay", nan)] None)
  = true /\
  (0 <=? Evaluator64.calculate_composite_score [("average_delay", nan)] None)%float
  = false /\
  (Evaluator64.calculate_composite_score [("average_delay", nan)] None <=? 100)%float
  = false.
Proof.
  apply (composite_score_nan_input [("average_delay", nan)] "average_delay").
  - simpl. tauto.
  - reflexivity.
Defined.

(** The score is the rounded binary64 sum of the weighted sub-scores: at
    delay 300, throughput 2, emissions 1000 and speed 0 the sum is a little
    above 0.025 and rounds to 0.03. *)
Example composite_score_sums_in_binary64 :
  Evaluator64.calculate_composite_score
    [("average_delay", 300%float); ("throughput", 2%float);
     ("co2_emissions", 1000%float); ("average_speed", 0%float)] None
  = 0.03%float.
Proof. reflexivity. Qed.

(** C9 fails on the code for values that are not finite: with an infinite
    delay the difference of the value with itself is NaN, and so is the
    percent change. *)
Lemma compare_policies_self_infinite :
  exists e,
    Evaluator64.compare_policies [("average_delay", infinity)]
                                 [("average_delay", infinity)]
    = Ok [("average_delay", e)] /\
    (Evaluator64.absolute_change e =? 0)%float = false /\
    (Evaluator64.percent_change e =? 0)%float = false /\
    is_nan (Evaluator64.absolute_change e) = true /\
    is_nan (Evaluator64.percent_change e) = true.
Proof. eexists. repeat split. Qed.

(** C9, amended.  Comparing a metric set with itself gives, for every metric
    key, [is_improvement = false]; where the value is finite the absolute
    change is 0 and the percent change is a zero, and where it is an
    infinity or NaN both changes are NaN.  More generally, where the
    baseline value is 0 the percent change is 0 if the policy value is 0 as
    well and 100 if it is not, and the comparison of two metric sets fails
    for no values with a division by zero: it succeeds whenever the policy
    has the keys of the baseline. *)
Theorem compare_policies_self_finite_and_zero_baseline :
  (forall M : Evaluator64.metrics,
      exists cmp,
        Evaluator64.compare_policies M M = Ok cmp /\
        forall k v, get M k = Some v ->
          exists e, get cmp k = Some e /\
                    Evaluator64.is_improvement e = false /\
                    (finite64 v = true ->
                     Evaluator64.absolute_change e = 0%float /\
                     (Evaluator64.percent_change e =? 0)%float = true) /\
                    (finite64 v = false ->
                     is_nan (Evaluator64.absolute_change e) = true /\
                     is_nan (Evaluator64.percent_change e) = true)) /\
  (forall b p : Evaluator64.metrics,
      (forall k, In k (keys b) -> In k (keys p)) ->
      exists cmp,
        Evaluator64.compare_policies b p = Ok cmp /\
        forall k bv pv,
          get b k = Some bv -> get p k = Some pv -> (bv =? 0)%float = true ->
          exists e, get cmp k = Some e /\
                    Evaluator64.percent_change e
                    = if (pv =? 0)%float then 0%float else 100%float).
Proof.
  split.
  - intro M.
    destruct (compare_policies_ok64 M M (fun k Hk => Hk)) as [cmp [Hcmp Hin]].
    exists cmp. split; [exact Hcmp|].
    intros k v Hv.
    destruct (Hin k (get_in_keys M k v Hv)) as [e [He Hget]].
    exists e. split; [exact Hget|].
    destruct (compare_metric_ok64 M M k v v Hv Hv)
      as [e' [He' [_ [_ [Habs [Himp Hpc]]]]]].
    rewrite He in He'. injection He' as <-.
    split; [rewrite Himp; apply is_improvement_self|]. split.
    + intro Hfin. rewrite Habs, Hpc, (sub_self_finite v Hfin).
      split; [reflexivity|].
      destruct (v =? 0)%float eqn:Ez; [reflexivity|].
      now apply zero_percent.
    + intro Hinf.
      pose proof (sub_self_not_finite v Hinf) as Hnan.
      assert (Ez : (v =? 0)%float = false).
      { rewrite eqb_spec. unfold finite64 in Hinf.
        destruct (Prim2SF v) as [s|s| |s m e0]; try discriminate Hinf.
        - now destruct s.
        - reflexivity. }
      rewrite Habs, Hpc, Ez. split.
      * now apply nan_not_below.
      * apply nan_not_below. now apply nan_percent.
  - intros b p Hsub.
    destruct (compare_policies_ok64 b p Hsub) as [cmp [Hcmp Hin]].
    exists cmp. split; [exact Hcmp|].
    intros k bv pv Hbv Hpv Hzero.
    destruct (Hin k (get_in_keys b k bv Hbv)) as [e [He Hget]].
    exists e. split; [exact Hget|].
    destruct (compare_metric_ok64 b p k bv pv Hbv Hpv)
      as [e' [He' [_ [_ [_ [_ Hpc]]]]]].
    rewrite He in He'. injection He' as <-.
    now rewrite Hpc, Hzero.
Qed.

Lemma compare_policies_self_finite_and_zero_baseline_witness :
  exists cmp,
    Evaluator64.compare_policies
      [("average_delay", 30%float); ("throughput", 0%float)]
      [("average_delay", 40.5%float); ("throughput", 7%float)]
    = Ok cmp /\
    exists e, get cmp "throughput" = Some e /\
              Evaluator64.percent_change e = 100%float.
Proof.
  destruct (proj2 compare_policies_self_finite_and_zero_baseline
              [("average_delay", 30%float); ("throughput", 0%float)]
              [("average_delay", 40.5%float); ("throughput", 7%float)])
    as [cmp [H Hz]].
  - intros k Hk. exact Hk.
  - exists cmp. split; [exact H|].
    exact (Hz "throughput" 0%float 7%float eq_refl eq_refl eq_refl).
Defined.
